(** * Commit Streak: a shallow embedding of the game engine

    The engine exists in two revisions in the repository: [game.js] and the
    visually enhanced, touch-enabled copy of it.  Both are embedded here; the
    few places where they differ are guarded by the [revision] field of the
    world, so that every theorem below speaks about both files.

    Numbers.  JavaScript numbers are modelled by exact arithmetic: integer
    counters (score, lives, combo, frame count, particle life, clock) by [Z],
    everything that carries a fraction (positions, velocities, speeds, sizes)
    by [Q].  Rounding of IEEE doubles is not modelled.

    Host.  [Math.random], [Math.sin], [Math.cos], [Math.PI], [Date.now],
    [setTimeout], [localStorage] and the DOM/audio side effects belong to the
    browser; they are fields of the world (an oracle for the random draws, a
    clock, a queue of pending timers, a typed store and a log of effects).

    Rendering.  [draw()] and the scrolling [Background] only read the engine
    state and write to the canvas; they are left out of [update] and of the
    session.  The random numbers they draw (background respawn heights,
    camera shake offsets) are left out with them, which only renumbers the
    draws of the oracle: the oracle is arbitrary in every statement.  The
    camera shake and the background of [game.js] are embedded on their own,
    after the engine. *)

From Stdlib Require Import ZArith QArith Qround Qminmax Qabs List String Bool Lia Lqa.
Import ListNotations.

Open Scope string_scope.
Open Scope list_scope.
Open Scope Z_scope.
Open Scope Q_scope.

(** ** JavaScript numbers *)

(** [a < b] on numbers. *)
Definition Qltb (a b : Q) : bool := negb (Qle_bool b a).
(** [a > b] on numbers. *)
Definition Qgtb (a b : Q) : bool := Qltb b a.
(** [a >= b] on numbers. *)
Definition Qgeb (a b : Q) : bool := Qle_bool b a.

(** [Math.floor]. *)
Definition Math_floor (q : Q) : Z := Qfloor q.

(** The fractional part; it sends the raw oracle values into [[0, 1)], the
    range of [Math.random()]. *)
Definition frac (q : Q) : Q := q - inject_Z (Qfloor q).

(** [a % b] on integers (the sign follows the dividend). *)
Definition js_rem (a b : Z) : Z := Z.rem a b.

(** [for (let i = 0; i < count; i++) body(i)] over a state [S]. *)
Definition for_loop {S : Type} (count : nat) (body : nat -> S -> S) (s : S) : S :=
  fold_left (fun acc i => body i acc) (seq 0 count) s.

(** [array.find(pred)]. *)
Definition array_find {A : Type} (pred : A -> bool) (l : list A) : option A :=
  find pred l.

(** Objects are compared by identity in JavaScript.  Two distinct objects
    with the same fields are treated alike by every operation of the engine,
    and [array.indexOf(o)] is only ever called with an [o] that
    [array.find] has just returned from the same array, the first one
    accepted; comparing field by field therefore finds the same index. *)
Definition same_number (a b : Q) : bool :=
  (Qnum a =? Qnum b)%Z && (Qden a =? Qden b)%positive.

(** [array.indexOf(a)]; [None] is [-1]. *)
Fixpoint indexOf {A : Type} (same : A -> A -> bool) (a : A) (l : list A) : option nat :=
  match l with
  | [] => None
  | b :: l' => if same a b then Some O else option_map S (indexOf same a l')
  end.

(** [array.splice(index, 1)]. *)
Fixpoint splice1 {A : Type} (index : nat) (l : list A) : list A :=
  match l, index with
  | [], _ => []
  | _ :: l', O => l'
  | b :: l', S i => b :: splice1 i l'
  end.

(** [index = array.indexOf(a); if (index > -1) array.splice(index, 1)]. *)
Definition remove_object {A : Type} (same : A -> A -> bool) (a : A) (l : list A) : list A :=
  match indexOf same a l with
  | Some index => splice1 index l
  | None => l
  end.

(** ** Entities *)

(** An axis-aligned rectangle: what [getBounds()] returns and what
    [isColliding] reads of its arguments. *)
Module Rect.
Record t := mk { x : Q; y : Q; width : Q; height : Q }.
End Rect.

Module Player.
Record t := mk {
    initialX : Q;
    initialY : Q;
    x : Q;
    y : Q;
    width : Q;
    height : Q;
    velocityY : Q;
    jumping : bool;
    sliding : bool;
    slideTimer : Z;
    invincible : bool
  }.

(** Set once in the constructor and never assigned again. *)
Definition gravity : Q := 0.6.
Definition jumpForce : Q := -13.
Definition groundY : Q := 380.

Definition new (x0 y0 : Q) : t :=
    mk x0 y0 x0 y0 32 32 0 false false 0%Z false.

Definition set_invincible (b : bool) (p : t) : t :=
    mk (initialX p) (initialY p) (x p) (y p) (width p) (height p)
       (velocityY p) (jumping p) (sliding p) (slideTimer p) b.

Definition reset (p : t) : t :=
    mk (initialX p) (initialY p) (initialX p) (initialY p) (width p) (height p)
       0 false false 0%Z false.

Definition jump (p : t) : t :=
    mk (initialX p) (initialY p) (x p) (y p) (width p) (height p)
       jumpForce true (sliding p) (slideTimer p) (invincible p).

Definition slide (p : t) : t :=
    mk (initialX p) (initialY p) (x p) (y p) (width p) 16
       (velocityY p) (jumping p) true 20%Z (invincible p).

(** The sliding block of [update]. *)
Definition update_slide (p : t) : t :=
    if sliding p then
      let timer := (slideTimer p - 1)%Z in
      if (timer <=? 0)%Z then
        mk (initialX p) (initialY p) (x p) (y p) (width p) 32
           (velocityY p) (jumping p) false timer (invincible p)
      else
        mk (initialX p) (initialY p) (x p) (y p) (width p) (height p)
           (velocityY p) (jumping p) true timer (invincible p)
    else p.

(** Physics and ground collision of [update]. *)
Definition update_physics (p : t) : t :=
    let v := velocityY p + gravity in
    let y' := y p + v in
    if Qgeb y' groundY then
      mk (initialX p) (initialY p) (x p) groundY (width p) (height p)
         0 false (sliding p) (slideTimer p) (invincible p)
    else
      mk (initialX p) (initialY p) (x p) y' (width p) (height p)
         v (jumping p) (sliding p) (slideTimer p) (invincible p).

Definition update (p : t) : t := update_physics (update_slide p).

Definition getBounds (p : t) : Rect.t :=
    Rect.mk (x p) (y p) (width p) (height p).
End Player.

Inductive ObstacleKind := bug | conflict | spike.

Definition ObstacleKind_eqb (a b : ObstacleKind) : bool :=
  match a, b with
  | bug, bug | conflict, conflict | spike, spike => true
  | _, _ => false
  end.

Module Obstacle.
Record t := mk {
    x : Q; y : Q; width : Q; height : Q;
    type : ObstacleKind;
    color : string
  }.
Definition bounds (o : t) : Rect.t := Rect.mk (x o) (y o) (width o) (height o).
Definition set_x (x' : Q) (o : t) : t :=
    mk x' (y o) (width o) (height o) (type o) (color o).
Definition same (a b : t) : bool :=
  same_number (x a) (x b) && same_number (y a) (y b) &&
  same_number (width a) (width b) && same_number (height a) (height b) &&
  ObstacleKind_eqb (type a) (type b) && String.eqb (color a) (color b).
End Obstacle.

(** A row of the obstacle type table. *)
Module ObstacleType.
Record t := mk {
    type : ObstacleKind; width : Q; height : Q; y : Q; color : string
  }.
End ObstacleType.

Module Collectible.
Record t := mk {
    x : Q; y : Q; width : Q; height : Q;
    floatOffset : Q;
    floatPhase : Q
  }.
Definition same (a b : t) : bool :=
  same_number (x a) (x b) && same_number (y a) (y b) &&
  same_number (width a) (width b) && same_number (height a) (height b) &&
  same_number (floatOffset a) (floatOffset b) &&
  same_number (floatPhase a) (floatPhase b).
End Collectible.

Inductive PowerupKind := invincibility | slowmo | magnet.

Definition PowerupKind_eqb (a b : PowerupKind) : bool :=
  match a, b with
  | invincibility, invincibility | slowmo, slowmo | magnet, magnet => true
  | _, _ => false
  end.

Module Powerup.
Record t := mk {
    x : Q; y : Q; width : Q; height : Q;
    type : PowerupKind;
    color : string;
    duration : Z;
    floatOffset : Q;
    floatPhase : Q
  }.
Definition same (a b : t) : bool :=
  same_number (x a) (x b) && same_number (y a) (y b) &&
  same_number (width a) (width b) && same_number (height a) (height b) &&
  PowerupKind_eqb (type a) (type b) && String.eqb (color a) (color b) &&
  (duration a =? duration b)%Z &&
  same_number (floatOffset a) (floatOffset b) &&
  same_number (floatPhase a) (floatPhase b).
End Powerup.

(** A row of the power-up type table. *)
Module PowerupType.
Record t := mk { type : PowerupKind; color : string; duration : Z }.
End PowerupType.

Inductive Shape := circle | square.

(** A particle.  The fields from [gravity] on exist only in the enhanced
    revision; [None] stands for a property the object does not have. *)
Module Particle.
Record t := mk {
    x : Q; y : Q; vx : Q; vy : Q;
    size : Q;
    color : string;
    life : Z;
    maxLife : Z;
    alpha : Q;
    gravity : option Q;
    glow : option bool;
    shape : option Shape;
    shrink : option bool;
    type : option string
  }.
End Particle.

Module Camera.
Record t := mk { shakeIntensity : Q; shakeDuration : Z; shakeTime : Z }.

Definition new : t := mk 0 0%Z 0%Z.

(** [shake(intensity, duration)]; [now] is the value of [Date.now()]. *)
Definition shake (now : Z) (intensity : Q) (duration : Z) (c : t) : t :=
    mk intensity duration now.

End Camera.

Module Stats.
Record t := mk {
    score : Z;
    streak : Z;
    highScore : Z;
    lives : Z;
    combo : Z;
    maxCombo : Z;
    commits : Z;
    gameSpeed : Q;
    speedMultiplier : Q
  }.

Definition set_score (v : Z) (s : t) : t :=
  mk v (streak s) (highScore s) (lives s) (combo s) (maxCombo s) (commits s) (gameSpeed s) (speedMultiplier s).

Definition set_streak (v : Z) (s : t) : t :=
  mk (score s) v (highScore s) (lives s) (combo s) (maxCombo s) (commits s) (gameSpeed s) (speedMultiplier s).

Definition set_highScore (v : Z) (s : t) : t :=
  mk (score s) (streak s) v (lives s) (combo s) (maxCombo s) (commits s) (gameSpeed s) (speedMultiplier s).

Definition set_lives (v : Z) (s : t) : t :=
  mk (score s) (streak s) (highScore s) v (combo s) (maxCombo s) (commits s) (gameSpeed s) (speedMultiplier s).

Definition set_combo (v : Z) (s : t) : t :=
  mk (score s) (streak s) (highScore s) (lives s) v (maxCombo s) (commits s) (gameSpeed s) (speedMultiplier s).

Definition set_maxCombo (v : Z) (s : t) : t :=
  mk (score s) (streak s) (highScore s) (lives s) (combo s) v (commits s) (gameSpeed s) (speedMultiplier s).

Definition set_commits (v : Z) (s : t) : t :=
  mk (score s) (streak s) (highScore s) (lives s) (combo s) (maxCombo s) v (gameSpeed s) (speedMultiplier s).

Definition set_gameSpeed (v : Q) (s : t) : t :=
  mk (score s) (streak s) (highScore s) (lives s) (combo s) (maxCombo s) (commits s) v (speedMultiplier s).

Definition set_speedMultiplier (v : Q) (s : t) : t :=
  mk (score s) (streak s) (highScore s) (lives s) (combo s) (maxCombo s) (commits s) (gameSpeed s) v.
End Stats.

Module Settings.
Record t := mk { sound : bool; music : bool; particles : bool; screenShake : bool }.
Definition defaults : t := mk true true true true.
End Settings.

Module TouchControls.
Record t := mk {
    touchStartX : Q; touchStartY : Q; touchEndX : Q; touchEndY : Q;
    minSwipeDistance : Q
  }.
Definition new : t := mk 0 0 0 0 50.
End TouchControls.

(** ** The world: the engine object graph and the browser it runs in *)

(** Which of the two copies of the engine is loaded. *)
Inductive Revision := Original | Enhanced.

(** [this.state]: ['start'], ['playing'] or ['gameOver']. *)
Inductive GameState := start | playing | gameOver_state.

(** The closures handed to [setTimeout]. *)
Inductive Callback :=
| ClearInvincible        (* () => this.player.invincible = false *)
| ClearActivePowerup     (* () => { this.activePowerup = null; } *)
| HidePowerupIndicator   (* () => { indicator.classList.add('hidden'); } *)
| CloseAudioContext      (* () => { audioContext.close(); } *)
| RemovePulse (button : string).

(** What the engine does to the page, the speaker and the device. *)
Inductive Effect :=
| PlaySound (type : string)
| UpdateUI (score streak highScore : Z)
| UpdateLives (lives : Z)
| UpdateCombo (combo : Z)
| ShowElement (id : string)
| HideElement (id : string)
| FinalScreen (score streak maxCombo commits : Z)
| DisplayNewAchievements (ids : list string)
| Vibrate (duration : Z)
| PulseOn (button : string)
| PulseOff (button : string)
| PreventDefault.

Record World := mkWorld {
  revision : Revision;
  random_source : nat -> Q;
  drawn : nat;
  Math_sin : Q -> Q;
  Math_cos : Q -> Q;
  Math_PI : Q;
  canVibrate : bool;
  Date_now : Z;
  timers : list (Z * Callback);
  commitStreakHigh : option Z;
  commitStreakAchievements : option (list string);
  effects : list Effect;
  state : GameState;
  frameCount : Z;
  isPaused : bool;
  isMobile : bool;
  touchControls : TouchControls.t;
  settings : Settings.t;
  stats : Stats.t;
  unlocked : list string;
  player : Player.t;
  obstacles : list Obstacle.t;
  collectibles : list Collectible.t;
  powerups : list Powerup.t;
  activePowerup : option PowerupKind;
  powerupTimer : Z;
  particles : list Particle.t;
  camera : Camera.t
}.

Definition set_drawn (v : nat) (w : World) : World :=
  mkWorld (revision w) (random_source w) v (Math_sin w) (Math_cos w)
    (Math_PI w) (canVibrate w) (Date_now w) (timers w) (commitStreakHigh w)
    (commitStreakAchievements w) (effects w) (state w) (frameCount w)
    (isPaused w) (isMobile w) (touchControls w) (settings w) (stats w)
    (unlocked w) (player w) (obstacles w) (collectibles w) (powerups w)
    (activePowerup w) (powerupTimer w) (particles w) (camera w).

Definition set_Date_now (v : Z) (w : World) : World :=
  mkWorld (revision w) (random_source w) (drawn w) (Math_sin w) (Math_cos w)
    (Math_PI w) (canVibrate w) v (timers w) (commitStreakHigh w)
    (commitStreakAchievements w) (effects w) (state w) (frameCount w)
    (isPaused w) (isMobile w) (touchControls w) (settings w) (stats w)
    (unlocked w) (player w) (obstacles w) (collectibles w) (powerups w)
    (activePowerup w) (powerupTimer w) (particles w) (camera w).

Definition set_timers (v : list (Z * Callback)) (w : World) : World :=
  mkWorld (revision w) (random_source w) (drawn w) (Math_sin w) (Math_cos w)
    (Math_PI w) (canVibrate w) (Date_now w) v (commitStreakHigh w)
    (commitStreakAchievements w) (effects w) (state w) (frameCount w)
    (isPaused w) (isMobile w) (touchControls w) (settings w) (stats w)
    (unlocked w) (player w) (obstacles w) (collectibles w) (powerups w)
    (activePowerup w) (powerupTimer w) (particles w) (camera w).

Definition set_commitStreakHigh (v : option Z) (w : World) : World :=
  mkWorld (revision w) (random_source w) (drawn w) (Math_sin w) (Math_cos w)
    (Math_PI w) (canVibrate w) (Date_now w) (timers w) v
    (commitStreakAchievements w) (effects w) (state w) (frameCount w)
    (isPaused w) (isMobile w) (touchControls w) (settings w) (stats w)
    (unlocked w) (player w) (obstacles w) (collectibles w) (powerups w)
    (activePowerup w) (powerupTimer w) (particles w) (camera w).

Definition set_commitStreakAchievements (v : option (list string)) (w : World) : World :=
  mkWorld (revision w) (random_source w) (drawn w) (Math_sin w) (Math_cos w)
    (Math_PI w) (canVibrate w) (Date_now w) (timers w) (commitStreakHigh w) v
    (effects w) (state w) (frameCount w) (isPaused w) (isMobile w)
    (touchControls w) (settings w) (stats w) (unlocked w) (player w)
    (obstacles w) (collectibles w) (powerups w) (activePowerup w)
    (powerupTimer w) (particles w) (camera w).

Definition set_effects (v : list Effect) (w : World) : World :=
  mkWorld (revision w) (random_source w) (drawn w) (Math_sin w) (Math_cos w)
    (Math_PI w) (canVibrate w) (Date_now w) (timers w) (commitStreakHigh w)
    (commitStreakAchievements w) v (state w) (frameCount w) (isPaused w)
    (isMobile w) (touchControls w) (settings w) (stats w) (unlocked w)
    (player w) (obstacles w) (collectibles w) (powerups w) (activePowerup w)
    (powerupTimer w) (particles w) (camera w).

Definition set_state (v : GameState) (w : World) : World :=
  mkWorld (revision w) (random_source w) (drawn w) (Math_sin w) (Math_cos w)
    (Math_PI w) (canVibrate w) (Date_now w) (timers w) (commitStreakHigh w)
    (commitStreakAchievements w) (effects w) v (frameCount w) (isPaused w)
    (isMobile w) (touchControls w) (settings w) (stats w) (unlocked w)
    (player w) (obstacles w) (collectibles w) (powerups w) (activePowerup w)
    (powerupTimer w) (particles w) (camera w).

Definition set_frameCount (v : Z) (w : World) : World :=
  mkWorld (revision w) (random_source w) (drawn w) (Math_sin w) (Math_cos w)
    (Math_PI w) (canVibrate w) (Date_now w) (timers w) (commitStreakHigh w)
    (commitStreakAchievements w) (effects w) (state w) v (isPaused w)
    (isMobile w) (touchControls w) (settings w) (stats w) (unlocked w)
    (player w) (obstacles w) (collectibles w) (powerups w) (activePowerup w)
    (powerupTimer w) (particles w) (camera w).

Definition set_isPaused (v : bool) (w : World) : World :=
  mkWorld (revision w) (random_source w) (drawn w) (Math_sin w) (Math_cos w)
    (Math_PI w) (canVibrate w) (Date_now w) (timers w) (commitStreakHigh w)
    (commitStreakAchievements w) (effects w) (state w) (frameCount w) v
    (isMobile w) (touchControls w) (settings w) (stats w) (unlocked w)
    (player w) (obstacles w) (collectibles w) (powerups w) (activePowerup w)
    (powerupTimer w) (particles w) (camera w).

Definition set_touchControls (v : TouchControls.t) (w : World) : World :=
  mkWorld (revision w) (random_source w) (drawn w) (Math_sin w) (Math_cos w)
    (Math_PI w) (canVibrate w) (Date_now w) (timers w) (commitStreakHigh w)
    (commitStreakAchievements w) (effects w) (state w) (frameCount w)
    (isPaused w) (isMobile w) v (settings w) (stats w) (unlocked w) (player w)
    (obstacles w) (collectibles w) (powerups w) (activePowerup w)
    (powerupTimer w) (particles w) (camera w).

Definition set_settings (v : Settings.t) (w : World) : World :=
  mkWorld (revision w) (random_source w) (drawn w) (Math_sin w) (Math_cos w)
    (Math_PI w) (canVibrate w) (Date_now w) (timers w) (commitStreakHigh w)
    (commitStreakAchievements w) (effects w) (state w) (frameCount w)
    (isPaused w) (isMobile w) (touchControls w) v (stats w) (unlocked w)
    (player w) (obstacles w) (collectibles w) (powerups w) (activePowerup w)
    (powerupTimer w) (particles w) (camera w).

Definition set_stats (v : Stats.t) (w : World) : World :=
  mkWorld (revision w) (random_source w) (drawn w) (Math_sin w) (Math_cos w)
    (Math_PI w) (canVibrate w) (Date_now w) (timers w) (commitStreakHigh w)
    (commitStreakAchievements w) (effects w) (state w) (frameCount w)
    (isPaused w) (isMobile w) (touchControls w) (settings w) v (unlocked w)
    (player w) (obstacles w) (collectibles w) (powerups w) (activePowerup w)
    (powerupTimer w) (particles w) (camera w).

Definition set_unlocked (v : list string) (w : World) : World :=
  mkWorld (revision w) (random_source w) (drawn w) (Math_sin w) (Math_cos w)
    (Math_PI w) (canVibrate w) (Date_now w) (timers w) (commitStreakHigh w)
    (commitStreakAchievements w) (effects w) (state w) (frameCount w)
    (isPaused w) (isMobile w) (touchControls w) (settings w) (stats w) v
    (player w) (obstacles w) (collectibles w) (powerups w) (activePowerup w)
    (powerupTimer w) (particles w) (camera w).

Definition set_player (v : Player.t) (w : World) : World :=
  mkWorld (revision w) (random_source w) (drawn w) (Math_sin w) (Math_cos w)
    (Math_PI w) (canVibrate w) (Date_now w) (timers w) (commitStreakHigh w)
    (commitStreakAchievements w) (effects w) (state w) (frameCount w)
    (isPaused w) (isMobile w) (touchControls w) (settings w) (stats w)
    (unlocked w) v (obstacles w) (collectibles w) (powerups w)
    (activePowerup w) (powerupTimer w) (particles w) (camera w).

Definition set_obstacles (v : list Obstacle.t) (w : World) : World :=
  mkWorld (revision w) (random_source w) (drawn w) (Math_sin w) (Math_cos w)
    (Math_PI w) (canVibrate w) (Date_now w) (timers w) (commitStreakHigh w)
    (commitStreakAchievements w) (effects w) (state w) (frameCount w)
    (isPaused w) (isMobile w) (touchControls w) (settings w) (stats w)
    (unlocked w) (player w) v (collectibles w) (powerups w) (activePowerup w)
    (powerupTimer w) (particles w) (camera w).

Definition set_collectibles (v : list Collectible.t) (w : World) : World :=
  mkWorld (revision w) (random_source w) (drawn w) (Math_sin w) (Math_cos w)
    (Math_PI w) (canVibrate w) (Date_now w) (timers w) (commitStreakHigh w)
    (commitStreakAchievements w) (effects w) (state w) (frameCount w)
    (isPaused w) (isMobile w) (touchControls w) (settings w) (stats w)
    (unlocked w) (player w) (obstacles w) v (powerups w) (activePowerup w)
    (powerupTimer w) (particles w) (camera w).

Definition set_powerups (v : list Powerup.t) (w : World) : World :=
  mkWorld (revision w) (random_source w) (drawn w) (Math_sin w) (Math_cos w)
    (Math_PI w) (canVibrate w) (Date_now w) (timers w) (commitStreakHigh w)
    (commitStreakAchievements w) (effects w) (state w) (frameCount w)
    (isPaused w) (isMobile w) (touchControls w) (settings w) (stats w)
    (unlocked w) (player w) (obstacles w) (collectibles w) v (activePowerup w)
    (powerupTimer w) (particles w) (camera w).

Definition set_activePowerup (v : option PowerupKind) (w : World) : World :=
  mkWorld (revision w) (random_source w) (drawn w) (Math_sin w) (Math_cos w)
    (Math_PI w) (canVibrate w) (Date_now w) (timers w) (commitStreakHigh w)
    (commitStreakAchievements w) (effects w) (state w) (frameCount w)
    (isPaused w) (isMobile w) (touchControls w) (settings w) (stats w)
    (unlocked w) (player w) (obstacles w) (collectibles w) (powerups w) v
    (powerupTimer w) (particles w) (camera w).

Definition set_powerupTimer (v : Z) (w : World) : World :=
  mkWorld (revision w) (random_source w) (drawn w) (Math_sin w) (Math_cos w)
    (Math_PI w) (canVibrate w) (Date_now w) (timers w) (commitStreakHigh w)
    (commitStreakAchievements w) (effects w) (state w) (frameCount w)
    (isPaused w) (isMobile w) (touchControls w) (settings w) (stats w)
    (unlocked w) (player w) (obstacles w) (collectibles w) (powerups w)
    (activePowerup w) v (particles w) (camera w).

Definition set_particles (v : list Particle.t) (w : World) : World :=
  mkWorld (revision w) (random_source w) (drawn w) (Math_sin w) (Math_cos w)
    (Math_PI w) (canVibrate w) (Date_now w) (timers w) (commitStreakHigh w)
    (commitStreakAchievements w) (effects w) (state w) (frameCount w)
    (isPaused w) (isMobile w) (touchControls w) (settings w) (stats w)
    (unlocked w) (player w) (obstacles w) (collectibles w) (powerups w)
    (activePowerup w) (powerupTimer w) v (camera w).

Definition set_camera (v : Camera.t) (w : World) : World :=
  mkWorld (revision w) (random_source w) (drawn w) (Math_sin w) (Math_cos w)
    (Math_PI w) (canVibrate w) (Date_now w) (timers w) (commitStreakHigh w)
    (commitStreakAchievements w) (effects w) (state w) (frameCount w)
    (isPaused w) (isMobile w) (touchControls w) (settings w) (stats w)
    (unlocked w) (player w) (obstacles w) (collectibles w) (powerups w)
    (activePowerup w) (powerupTimer w) (particles w) v.

(** ** Host primitives *)

(** The value returned by the [k]-th of the next calls to [Math.random()]. *)
Definition Math_random (k : nat) (w : World) : Q :=
  frac (random_source w (drawn w + k)%nat).

(** [n] calls to [Math.random()] have been made. *)
Definition consume (n : nat) (w : World) : World :=
  set_drawn (drawn w + n)%nat w.

(** [setTimeout(cb, delay)]. *)
Definition setTimeout (cb : Callback) (delay : Z) (w : World) : World :=
  set_timers (timers w ++ [((Date_now w + delay)%Z, cb)]) w.

Definition emit (e : Effect) (w : World) : World :=
  set_effects (effects w ++ [e]) w.

(** [array[Math.floor(r * array.length)]]. *)
Definition pick {A : Type} (r : Q) (table : list A) (default : A) : A :=
  nth (Z.to_nat (Math_floor (r * inject_Z (Z.of_nat (List.length table))))) table default.

(** ** ObstacleManager *)

Module ObstacleManager.
Import Obstacle.

Definition types : list ObstacleType.t :=
  [ ObstacleType.mk bug 32 32 380 "#f85149";
    ObstacleType.mk conflict 32 36 344 "#f85149";
    ObstacleType.mk spike 24 48 364 "#ff6b6b" ].

Definition reset (w : World) : World := set_obstacles [] w.

Definition spawn (w : World) : World :=
  let type := pick (Math_random 0 w) types (ObstacleType.mk bug 32 32 380 "#f85149") in
  let w := consume 1 w in
  set_obstacles
    (obstacles w ++
     [ mk 900 (ObstacleType.y type) (ObstacleType.width type)
          (ObstacleType.height type) (ObstacleType.type type)
          (ObstacleType.color type) ]) w.

(** The callback of [filter]: the obstacle is moved, then tested. *)
Definition moved (speed : Q) (obs : t) : t := set_x (x obs - speed) obs.
Definition on_screen (obs : t) : bool := Qgtb (x obs + width obs) 0.

Definition update (speed : Q) (frameCount : Z) (w : World) : World :=
  let w := set_obstacles (filter on_screen (map (moved speed) (obstacles w))) w in
  if (js_rem frameCount 120 =? 0)%Z then spawn w else w.

Definition isColliding (rect1 rect2 : Rect.t) : bool :=
  Qltb (Rect.x rect1) (Rect.x rect2 + Rect.width rect2) &&
  Qgtb (Rect.x rect1 + Rect.width rect1) (Rect.x rect2) &&
  Qltb (Rect.y rect1) (Rect.y rect2 + Rect.height rect2) &&
  Qgtb (Rect.y rect1 + Rect.height rect1) (Rect.y rect2).

Definition hits (p : Player.t) (obs : t) : bool :=
  isColliding (Player.getBounds p) (bounds obs).

Definition checkCollision (p : Player.t) (w : World) : option t :=
  array_find (hits p) (obstacles w).

Definition removeObstacle (obstacle : t) (w : World) : World :=
  set_obstacles (remove_object same obstacle (obstacles w)) w.
End ObstacleManager.

(** ** CollectibleManager *)

Module CollectibleManager.
Import Collectible.

Definition reset (w : World) : World := set_collectibles [] w.

Definition yPositions : list Q := [300; 340; 380].

Definition spawn (w : World) : World :=
  let y := pick (Math_random 0 w) yPositions 300 in
  let phase := Math_random 1 w * Math_PI w * 2 in
  let w := consume 2 w in
  set_collectibles (collectibles w ++ [ mk 900 y 24 24 0 phase ]) w.

Definition moved (sin : Q -> Q) (speed : Q) (frameCount : Z) (col : t) : t :=
  mk (x col - speed) (y col) (width col) (height col)
     (sin (inject_Z frameCount * 0.1 + floatPhase col) * 3) (floatPhase col).
Definition on_screen (col : t) : bool := Qgtb (x col + width col) 0.

Definition update (speed : Q) (frameCount : Z) (w : World) : World :=
  let w := set_collectibles
             (filter on_screen
                (map (moved (Math_sin w) speed frameCount) (collectibles w))) w in
  if (js_rem frameCount 80 =? 0)%Z then spawn w else w.

Definition hits (p : Player.t) (col : t) : bool :=
  let playerBounds := Player.getBounds p in
  Qltb (Rect.x playerBounds) (x col + width col) &&
  Qgtb (Rect.x playerBounds + Rect.width playerBounds) (x col) &&
  Qltb (Rect.y playerBounds) (y col + height col) &&
  Qgtb (Rect.y playerBounds + Rect.height playerBounds) (y col).

Definition checkCollision (p : Player.t) (w : World) : option t :=
  array_find (hits p) (collectibles w).

Definition removeCollectible (collectible : t) (w : World) : World :=
  set_collectibles (remove_object same collectible (collectibles w)) w.
End CollectibleManager.

(** ** PowerupManager *)

Module PowerupManager.
Import Powerup.

Definition types : list PowerupType.t :=
  [ PowerupType.mk invincibility "#bc8cff" 5000;
    PowerupType.mk slowmo "#58a6ff" 5000;
    PowerupType.mk magnet "#f9826c" 5000 ].

Definition reset (w : World) : World :=
  set_powerupTimer 0 (set_activePowerup None (set_powerups [] w)).

Definition spawn (w : World) : World :=
  let type := pick (Math_random 0 w) types (PowerupType.mk invincibility "#bc8cff" 5000) in
  let phase := Math_random 1 w * Math_PI w * 2 in
  let w := consume 2 w in
  set_powerups
    (powerups w ++
     [ mk 900 320 32 32 (PowerupType.type type) (PowerupType.color type)
          (PowerupType.duration type) 0 phase ]) w.

Definition moved (sin : Q -> Q) (speed : Q) (frameCount : Z) (pu : t) : t :=
  mk (x pu - speed) (y pu) (width pu) (height pu) (type pu) (color pu)
     (duration pu)
     (sin (inject_Z frameCount * 0.08 + floatPhase pu) * 5) (floatPhase pu).
Definition on_screen (pu : t) : bool := Qgtb (x pu + width pu) 0.

(** [frameCount % 400 === 0 && Math.random() < 0.5]: the draw is made only
    on a multiple of 400. *)
Definition update (speed : Q) (frameCount : Z) (w : World) : World :=
  let w := set_powerups
             (filter on_screen
                (map (moved (Math_sin w) speed frameCount) (powerups w))) w in
  if (js_rem frameCount 400 =? 0)%Z then
    let r := Math_random 0 w in
    let w := consume 1 w in
    if Qltb r 0.5 then spawn w else w
  else w.

Definition hits (p : Player.t) (pu : t) : bool :=
  let playerBounds := Player.getBounds p in
  Qltb (Rect.x playerBounds) (x pu + width pu) &&
  Qgtb (Rect.x playerBounds + Rect.width playerBounds) (x pu) &&
  Qltb (Rect.y playerBounds) (y pu + height pu) &&
  Qgtb (Rect.y playerBounds + Rect.height playerBounds) (y pu).

Definition checkCollision (p : Player.t) (w : World) : option t :=
  array_find (hits p) (powerups w).

Definition removePowerup (powerup : t) (w : World) : World :=
  set_powerups (remove_object same powerup (powerups w)) w.

(** [this.types.find(p => p.type === type).duration]; every kind has a row. *)
Definition duration_of (type : PowerupKind) : Z :=
  match find (fun p => PowerupKind_eqb (PowerupType.type p) type) types with
  | Some p => PowerupType.duration p
  | None => 0
  end.

Definition activatePowerup (type : PowerupKind) (w : World) : World :=
  let w := set_activePowerup (Some type) w in
  setTimeout ClearActivePowerup (duration_of type) w.

(** [updateEffects(player, stats)], on the engine's own player and stats. *)
Definition updateEffects (w : World) : World :=
  let w :=
    match activePowerup w with
    | Some invincibility => set_player (Player.set_invincible true (player w)) w
    | _ => w
    end in
  match activePowerup w with
  | Some slowmo => set_stats (Stats.set_speedMultiplier 0.5 (stats w)) w
  | _ => set_stats (Stats.set_speedMultiplier 1 (stats w)) w
  end.
End PowerupManager.

(** ** ParticleSystem *)

Module ParticleSystem.
Import Particle.

Definition reset (w : World) : World := set_particles [] w.

(** [p.gravity || 0.2]: a missing property and [0] both give [0.2]. *)
Definition gravity_or_default (g : option Q) : Q :=
  match g with
  | Some g => if Qeq_bool g 0 then 0.2 else g
  | None => 0.2
  end.

(** [p.type !== 'trail'] *)
Definition not_trail (type : option string) : bool :=
  match type with
  | Some s => negb (String.eqb s "trail")
  | None => true
  end.

(** [if (p.shrink)] *)
Definition truthy (b : option bool) : bool :=
  match b with
  | Some true => true
  | _ => false
  end.

(** The body of the [filter] callback up to its [return]. *)
Definition advance (rev : Revision) (p : t) : t :=
  let life' := (life p - 1)%Z in
  let alpha' := inject_Z life' / inject_Z (maxLife p) in
  match rev with
  | Original =>
      mk (x p + vx p) (y p + vy p) (vx p) (vy p + 0.2) (size p) (color p)
         life' (maxLife p) alpha' (gravity p) (glow p) (shape p) (shrink p)
         (type p)
  | Enhanced =>
      mk (x p + vx p) (y p + vy p) (vx p)
         (if not_trail (type p) then vy p + gravity_or_default (gravity p)
          else vy p)
         (if truthy (shrink p) then size p * 0.96 else size p) (color p)
         life' (maxLife p) alpha' (gravity p) (glow p) (shape p) (shrink p)
         (type p)
  end.

(** The value the [filter] callback returns. *)
Definition kept (rev : Revision) (p : t) : bool :=
  match rev with
  | Original => (0 <? life p)%Z
  | Enhanced => (0 <? life p)%Z && Qgtb (size p) 0.5
  end.

Definition update (w : World) : World :=
  set_particles
    (filter (kept (revision w)) (map (advance (revision w)) (particles w))) w.

Definition push (p : t) (w : World) : World :=
  set_particles (particles w ++ [p]) w.

(** [(Math.PI * 2 * i) / count] *)
Definition angle_of (w : World) (i count : nat) : Q :=
  (Math_PI w * 2 * inject_Z (Z.of_nat i)) / inject_Z (Z.of_nat count).

Definition createBurst (x y : Q) (color : string) (count : nat) (w : World) : World :=
  for_loop count
    (fun i w =>
       let angle := angle_of w i count in
       let speed := 2 + Math_random 0 w * 3 in
       match revision w with
       | Original =>
           push (mk x y (Math_cos w angle * speed) (Math_sin w angle * speed)
                    4 color 30 30 1 None None None None None)
                (consume 1 w)
       | Enhanced =>
           push (mk x y (Math_cos w angle * speed) (Math_sin w angle * speed)
                    (3 + Math_random 1 w * 2) color 30 30 1
                    (Some 0.15) (Some true) (Some circle) (Some true) None)
                (consume 2 w)
       end) w.

Definition createExplosion (x y : Q) (color : string) (count : nat) (w : World) : World :=
  match revision w with
  | Original =>
      for_loop count
        (fun _ w =>
           push (mk x y ((Math_random 0 w - 0.5) * 6)
                    ((Math_random 1 w - 0.5) * 6)
                    6 color 40 40 1 None None None None None)
                (consume 2 w)) w
  | Enhanced =>
      let w :=
        for_loop count
          (fun _ w =>
             push (mk x y ((Math_random 0 w - 0.5) * 8)
                      ((Math_random 1 w - 0.5) * 8)
                      (4 + Math_random 2 w * 4) color 40 40 1
                      (Some 0.25) (Some true)
                      (Some (if Qgtb (Math_random 3 w) 0.5 then circle else square))
                      (Some true) None)
                  (consume 4 w)) w in
      (* the shockwave ring *)
      for_loop 12
        (fun i w =>
           let angle := angle_of w i 12 in
           let speed := 5 + Math_random 0 w * 2 in
           push (mk x y (Math_cos w angle * speed) (Math_sin w angle * speed)
                    2 color 20 20 1
                    (Some 0) (Some true) (Some circle) (Some true) None)
                (consume 1 w)) w
  end.

(** Only in the enhanced revision. *)
Definition createTrail (x y : Q) (color : string) (w : World) : World :=
  push (mk (x + Math_random 0 w * 8 - 4) (y + Math_random 1 w * 8 - 4)
           ((Math_random 2 w - 0.5) * 2) ((Math_random 3 w - 0.5) * 2)
           (2 + Math_random 4 w * 2) color 15 15 0.6
           (Some 0.05) (Some false) (Some square) (Some true) (Some "trail"))
       (consume 5 w).

(** Only in the enhanced revision. *)
Definition createSparkle (x y : Q) (color : string) (w : World) : World :=
  for_loop 4
    (fun i w =>
       let angle := angle_of w i 4 in
       let speed := 1 + Math_random 0 w in
       push (mk x y (Math_cos w angle * speed) (Math_sin w angle * speed)
                2 color 25 25 1
                (Some 0) (Some true) (Some circle) (Some true) None)
            (consume 1 w)) w.
End ParticleSystem.

(** ** AchievementManager *)

Module Achievement.
Record t := mk {
    id : string; name : string; desc : string; icon : string;
    requirement : Stats.t -> bool
  }.
End Achievement.

Module AchievementManager.
Import Achievement.

(** The catalog; the icons are emoji in the original revision and empty
    strings in the enhanced one. *)
Definition achievements (rev : Revision) : list t :=
  let icon (original : string) :=
    match rev with Original => original | Enhanced => "" end in
  [ mk "first_commit" "FIRST COMMIT" "Collect your first commit" (icon "✓")
       (fun stats => (Stats.commits stats >=? 1)%Z);
    mk "streak_10" "GETTING STARTED" "Reach a streak of 10" (icon "🔥")
       (fun stats => (Stats.streak stats >=? 10)%Z);
    mk "streak_50" "ON FIRE" "Reach a streak of 50" (icon "🔥")
       (fun stats => (Stats.streak stats >=? 50)%Z);
    mk "score_1000" "MILESTONE" "Score 1000 points" (icon "🎯")
       (fun stats => (Stats.score stats >=? 1000)%Z);
    mk "score_5000" "HIGH ACHIEVER" "Score 5000 points" (icon "🏆")
       (fun stats => (Stats.score stats >=? 5000)%Z);
    mk "combo_5" "COMBO MASTER" "Get a 5x combo" (icon "⚡")
       (fun stats => (Stats.maxCombo stats >=? 5)%Z);
    mk "combo_10" "UNSTOPPABLE" "Get a 10x combo" (icon "💫")
       (fun stats => (Stats.maxCombo stats >=? 10)%Z);
    mk "commits_100" "CONTRIBUTOR" "Collect 100 commits" (icon "📝")
       (fun stats => (Stats.commits stats >=? 100)%Z) ].

(** [this.unlocked.includes(id)] *)
Definition includes (ids : list string) (id : string) : bool :=
  existsb (String.eqb id) ids.

(** The [forEach] of [checkAchievements]; the accumulator is
    [(this.unlocked, newUnlocked)]. *)
Definition visit (stats : Stats.t) (acc : list string * list t) (achievement : t)
  : list string * list t :=
  let '(unlocked, newUnlocked) := acc in
  if negb (includes unlocked (id achievement)) && requirement achievement stats
  then (unlocked ++ [id achievement], newUnlocked ++ [achievement])
  else (unlocked, newUnlocked).

Definition check (stats : Stats.t) (catalog : list t) (unlocked : list string)
  : list string * list t :=
  fold_left (visit stats) catalog (unlocked, []).

(** [localStorage.setItem('commitStreakAchievements', JSON.stringify(this.unlocked))] *)
Definition saveUnlocked (w : World) : World :=
  set_commitStreakAchievements (Some (unlocked w)) w.

(** [checkAchievements(stats)]: the list it returns, and the world it leaves. *)
Definition checkAchievements (stats : Stats.t) (w : World) : list t * World :=
  let result := check stats (achievements (revision w)) (unlocked w) in
  let newUnlocked := snd result in
  let w := set_unlocked (fst result) w in
  let w := if (0 <? Z.of_nat (List.length newUnlocked))%Z then saveUnlocked w else w in
  (newUnlocked, w).
End AchievementManager.

(** ** GameEngine *)

Module GameEngine.

Definition is_playing (w : World) : bool :=
  match state w with playing => true | _ => false end.

(** [playSound(type)].  The oscillator itself is the browser's business; the
    enhanced revision also schedules the closing of the audio context (its
    [try] block is taken to succeed). *)
Definition playSound (type : string) (w : World) : World :=
  if negb (Settings.sound (settings w)) then w
  else
    match revision w with
    | Original => emit (PlaySound type) w
    | Enhanced => setTimeout CloseAudioContext 1000 (emit (PlaySound type) w)
    end.

Definition updateUI (w : World) : World :=
  emit (UpdateUI (Stats.score (stats w)) (Stats.streak (stats w))
                 (Stats.highScore (stats w))) w.

Definition updateLives (w : World) : World :=
  emit (UpdateLives (Stats.lives (stats w))) w.

Definition updateCombo (w : World) : World :=
  emit (UpdateCombo (Stats.combo (stats w))) w.

Definition hideAllScreens (w : World) : World :=
  emit (HideElement "settingsScreen")
    (emit (HideElement "achievementsScreen")
       (emit (HideElement "gameOverScreen")
          (emit (HideElement "startScreen") w))).

(** Only in the enhanced revision. *)
Definition showMobileControls (w : World) : World :=
  if isMobile w then emit (ShowElement "mobileControls") w else w.

(** Only in the enhanced revision. *)
Definition hideMobileControls (w : World) : World :=
  if isMobile w then emit (HideElement "mobileControls") w else w.

(** Only in the enhanced revision. *)
Definition triggerVibration (duration : Z) (w : World) : World :=
  if canVibrate w && Settings.screenShake (settings w)
  then emit (Vibrate duration) w else w.

Definition resetGame (w : World) : World :=
  let w := set_stats
             (Stats.mk 0 0 (Stats.highScore (stats w)) 3 0 0 0 5 1) w in
  let w := set_frameCount 0 w in
  let w := set_player (Player.reset (player w)) w in
  let w := ObstacleManager.reset w in
  let w := CollectibleManager.reset w in
  let w := PowerupManager.reset w in
  let w := ParticleSystem.reset w in
  let w := updateUI w in
  updateLives w.

Definition startGame (w : World) : World :=
  let w := resetGame w in
  let w := set_state playing w in
  let w := hideAllScreens w in
  let w := match revision w with
           | Original => w
           | Enhanced => showMobileControls w
           end in
  playSound "start" w.

Definition pauseGame (w : World) : World :=
  if is_playing w
  then emit (ShowElement "pauseOverlay") (set_isPaused true w)
  else w.

Definition resumeGame (w : World) : World :=
  emit (HideElement "pauseOverlay") (set_isPaused false w).

Definition gameOver (w : World) : World :=
  let w := set_state gameOver_state w in
  let w := playSound "gameOver" w in
  let w := match revision w with
           | Original => w
           | Enhanced => hideMobileControls w
           end in
  (* Update high score *)
  let w :=
    if (Stats.score (stats w) >? Stats.highScore (stats w))%Z
    then set_commitStreakHigh (Some (Stats.score (stats w)))
           (set_stats (Stats.set_highScore (Stats.score (stats w)) (stats w)) w)
    else w in
  (* Check achievements *)
  let checked := AchievementManager.checkAchievements (stats w) w in
  let newAchievements := fst checked in
  let w := snd checked in
  (* Display game over screen *)
  let w := emit (FinalScreen (Stats.score (stats w)) (Stats.streak (stats w))
                             (Stats.maxCombo (stats w)) (Stats.commits (stats w)))
                w in
  let w :=
    if (0 <? Z.of_nat (List.length newAchievements))%Z
    then emit (ShowElement "newAchievements")
           (emit (DisplayNewAchievements (map Achievement.id newAchievements)) w)
    else w in
  emit (ShowElement "gameOverScreen") w.

(** The centre of the player's box, where the particles are emitted. *)
Definition player_cx (w : World) : Q := Player.x (player w) + Player.width (player w) / 2.
Definition player_cy (w : World) : Q := Player.y (player w) + Player.height (player w) / 2.

Definition handleDamage (w : World) : World :=
  let w := set_stats (Stats.set_lives (Stats.lives (stats w) - 1)%Z (stats w)) w in
  let w := set_stats (Stats.set_combo 0 (stats w)) w in
  let w := updateLives w in
  let w := updateCombo w in
  let w := playSound "hit" w in
  let w :=
    if Settings.screenShake (settings w)
    then set_camera (Camera.shake (Date_now w) 10 200 (camera w)) w
    else w in
  let w :=
    if Settings.particles (settings w)
    then ParticleSystem.createExplosion (player_cx w) (player_cy w) "#f85149" 15 w
    else w in
  if (Stats.lives (stats w) <=? 0)%Z
  then gameOver w
  else
    (* Brief invincibility *)
    let w := set_player (Player.set_invincible true (player w)) w in
    setTimeout ClearInvincible 1500 w.

Definition handleCollectible (w : World) : World :=
  let w := set_stats (Stats.set_score (Stats.score (stats w) + 100)%Z (stats w)) w in
  let w := set_stats (Stats.set_streak (Stats.streak (stats w) + 1)%Z (stats w)) w in
  let w := set_stats (Stats.set_commits (Stats.commits (stats w) + 1)%Z (stats w)) w in
  let w := set_stats (Stats.set_combo (Stats.combo (stats w) + 1)%Z (stats w)) w in
  let w := set_stats
             (Stats.set_maxCombo
                (Z.max (Stats.maxCombo (stats w)) (Stats.combo (stats w)))
                (stats w)) w in
  let w := updateUI w in
  let w := updateCombo w in
  let w := playSound "collect" w in
  if Settings.particles (settings w)
  then
    match revision w with
    | Original =>
        ParticleSystem.createBurst (player_cx w) (player_cy w) "#39d353" 8 w
    | Enhanced =>
        let x := player_cx w in
        let y := player_cy w in
        let w := ParticleSystem.createBurst x y "#39d353" 8 w in
        ParticleSystem.createSparkle x y "#4ae168" w
    end
  else w.

Definition showPowerupIndicator (type : PowerupKind) (w : World) : World :=
  setTimeout HidePowerupIndicator 5000 (emit (ShowElement "powerupIndicator") w).

Definition handlePowerup (powerup : Powerup.t) (w : World) : World :=
  let w := PowerupManager.activatePowerup (Powerup.type powerup) w in
  let w := playSound "powerup" w in
  let w := showPowerupIndicator (Powerup.type powerup) w in
  if Settings.particles (settings w)
  then ParticleSystem.createBurst
         (Powerup.x powerup + Powerup.width powerup / 2)
         (Powerup.y powerup + Powerup.height powerup / 2) "#bc8cff" 12 w
  else w.

(** The three blocks of [checkCollisions], in source order. *)
Definition checkObstacle (w : World) : World :=
  match ObstacleManager.checkCollision (player w) w with
  | Some obstacleHit =>
      if negb (Player.invincible (player w))
      then ObstacleManager.removeObstacle obstacleHit (handleDamage w)
      else w
  | None => w
  end.

Definition checkCollectible (w : World) : World :=
  match CollectibleManager.checkCollision (player w) w with
  | Some collectible =>
      CollectibleManager.removeCollectible collectible (handleCollectible w)
  | None => w
  end.

Definition checkPowerup (w : World) : World :=
  match PowerupManager.checkCollision (player w) w with
  | Some powerup => PowerupManager.removePowerup powerup (handlePowerup powerup w)
  | None => w
  end.

Definition checkCollisions (w : World) : World :=
  checkPowerup (checkCollectible (checkObstacle w)).

(** The steps of [update], in source order. *)
Definition advanceFrame (w : World) : World :=
  set_frameCount (frameCount w + 1)%Z w.

Definition updatePlayer (w : World) : World :=
  set_player (Player.update (player w)) w.

(** The trail of the enhanced revision; nothing in the original. *)
Definition emitTrail (w : World) : World :=
  match revision w with
  | Original => w
  | Enhanced =>
      if Settings.particles (settings w) && (js_rem (frameCount w) 3 =? 0)%Z
      then ParticleSystem.createTrail (player_cx w) (player_cy w)
             (if Player.invincible (player w) then "#bc8cff"
              else "rgba(57, 211, 83, 0.6)") w
      else w
  end.

Definition updateGameSpeed (w : World) : World :=
  if (js_rem (frameCount w) 500 =? 0)%Z
  then set_stats
         (Stats.set_gameSpeed (Qmin (Stats.gameSpeed (stats w) + 0.3) 12) (stats w)) w
  else w.

Definition currentSpeed (w : World) : Q :=
  Stats.gameSpeed (stats w) * Stats.speedMultiplier (stats w).

Definition updateScore (speed : Q) (w : World) : World :=
  set_stats
    (Stats.set_score (Stats.score (stats w) + Math_floor (speed / 10))%Z (stats w)) w.

Definition refreshUI (w : World) : World :=
  if (js_rem (frameCount w) 30 =? 0)%Z then updateUI w else w.

Definition update (w : World) : World :=
  if negb (is_playing w) || isPaused w then w
  else
    let w := advanceFrame w in
    let w := updatePlayer w in
    let w := emitTrail w in
    let w := PowerupManager.updateEffects w in
    let w := updateGameSpeed w in
    let speed := currentSpeed w in
    let w := ObstacleManager.update speed (frameCount w) w in
    let w := CollectibleManager.update speed (frameCount w) w in
    let w := PowerupManager.update speed (frameCount w) w in
    let w := ParticleSystem.update w in
    let w := checkCollisions w in
    let w := updateScore speed w in
    refreshUI w.

(** [gameLoop()] runs [update()] and then [draw()], which changes nothing
    that is modelled. *)
Definition gameLoop (w : World) : World := update w.
End GameEngine.

(** ** Input: the listeners installed by the engine *)

Module Input.
Import GameEngine.

Definition is_pause_key (key : string) : bool :=
  String.eqb key "Escape" || String.eqb key "p" || String.eqb key "P".

Definition is_jump_key (key : string) : bool :=
  String.eqb key "ArrowUp" || String.eqb key " ".

Definition is_slide_key (key : string) : bool :=
  String.eqb key "ArrowDown".

(** [!this.player.jumping && !this.player.sliding] *)
Definition running (w : World) : bool :=
  negb (Player.jumping (player w)) && negb (Player.sliding (player w)).

(** The [keydown] listener. *)
Definition keydown (key : string) (w : World) : World :=
  if negb (is_playing w) || isPaused w then
    if is_pause_key key then
      if isPaused w then resumeGame w else w
    else w
  else
    let w :=
      if is_jump_key key && running w
      then playSound "jump" (set_player (Player.jump (player w)) w)
      else w in
    let w :=
      if is_slide_key key && running w
      then set_player (Player.slide (player w)) w
      else w in
    if is_pause_key key then pauseGame w else w.

(** The touch listeners exist only in the enhanced revision, and
    [initializeMobileControls] installs them only on a mobile device. *)
Definition touch_enabled (w : World) : bool :=
  match revision w with
  | Original => false
  | Enhanced => isMobile w
  end.

(** [touchstart] on the jump button: the shared listener, then its own. *)
Definition jumpBtn_touchstart (w : World) : World :=
  if touch_enabled w then
    let w := emit PreventDefault w in
    let w := emit PreventDefault w in
    if is_playing w && negb (isPaused w) && running w then
      let w := set_player (Player.jump (player w)) w in
      let w := playSound "jump" w in
      let w := triggerVibration 50 w in
      let w := emit (PulseOn "jumpBtn") w in
      setTimeout (RemovePulse "jumpBtn") 300 w
    else w
  else w.

(** [touchstart] on the slide button. *)
Definition slideBtn_touchstart (w : World) : World :=
  if touch_enabled w then
    let w := emit PreventDefault w in
    let w := emit PreventDefault w in
    if is_playing w && negb (isPaused w) && running w then
      let w := set_player (Player.slide (player w)) w in
      let w := triggerVibration 50 w in
      let w := emit (PulseOn "slideBtn") w in
      setTimeout (RemovePulse "slideBtn") 300 w
    else w
  else w.

Definition handleSwipeGesture (w : World) : World :=
  let deltaX := TouchControls.touchEndX (touchControls w)
                - TouchControls.touchStartX (touchControls w) in
  let deltaY := TouchControls.touchEndY (touchControls w)
                - TouchControls.touchStartY (touchControls w) in
  let minDistance := TouchControls.minSwipeDistance (touchControls w) in
  if Qgtb (Qabs deltaY) (Qabs deltaX) then
    if Qgtb (Qabs deltaY) minDistance then
      if Qltb deltaY 0 then
        (* Swipe up - Jump *)
        if running w then
          let w := set_player (Player.jump (player w)) w in
          let w := playSound "jump" w in
          triggerVibration 50 w
        else w
      else
        (* Swipe down - Slide *)
        if running w then
          let w := set_player (Player.slide (player w)) w in
          triggerVibration 50 w
        else w
    else w
  else w.

(** [touchstart] on the canvas, at client coordinates [(x, y)]. *)
Definition canvas_touchstart (x y : Q) (w : World) : World :=
  if touch_enabled w then
    if negb (is_playing w) || isPaused w then w
    else
      let t := touchControls w in
      let w := set_touchControls
                 (TouchControls.mk x y (TouchControls.touchEndX t)
                    (TouchControls.touchEndY t) (TouchControls.minSwipeDistance t)) w in
      emit PreventDefault w
  else w.

Definition canvas_touchmove (w : World) : World :=
  if touch_enabled w then
    if negb (is_playing w) || isPaused w then w else emit PreventDefault w
  else w.

(** [touchend] on the canvas, at client coordinates [(x, y)]. *)
Definition canvas_touchend (x y : Q) (w : World) : World :=
  if touch_enabled w then
    if negb (is_playing w) || isPaused w then w
    else
      let t := touchControls w in
      let w := set_touchControls
                 (TouchControls.mk (TouchControls.touchStartX t)
                    (TouchControls.touchStartY t) x y
                    (TouchControls.minSwipeDistance t)) w in
      let w := handleSwipeGesture w in
      emit PreventDefault w
  else w.

(** The commands a player can give. *)
Inductive Command :=
| KeyDown (key : string)
| TouchJumpBtn
| TouchSlideBtn
| CanvasTouchStart (x y : Q)
| CanvasTouchMove
| CanvasTouchEnd (x y : Q).

Definition deliver (c : Command) (w : World) : World :=
  match c with
  | KeyDown key => keydown key w
  | TouchJumpBtn => jumpBtn_touchstart w
  | TouchSlideBtn => slideBtn_touchstart w
  | CanvasTouchStart x y => canvas_touchstart x y w
  | CanvasTouchMove => canvas_touchmove w
  | CanvasTouchEnd x y => canvas_touchend x y w
  end.
End Input.

(** ** Timers and the course of a session *)

Module Session.

Definition run_callback (cb : Callback) (w : World) : World :=
  match cb with
  | ClearInvincible => set_player (Player.set_invincible false (player w)) w
  | ClearActivePowerup => set_activePowerup None w
  | HidePowerupIndicator => emit (HideElement "powerupIndicator") w
  | CloseAudioContext => w
  | RemovePulse button => emit (PulseOff button) w
  end.

(** The pending timer that expires first; of two with the same deadline, the
    one that was set first. *)
Fixpoint earliest (pending : list (Z * Callback)) : option (Z * Callback) :=
  match pending with
  | [] => None
  | t :: rest =>
      match earliest rest with
      | Some t' => if (fst t' <? fst t)%Z then Some t' else Some t
      | None => Some t
      end
  end.

(** The queue without its earliest timer. *)
Fixpoint drop_earliest (pending : list (Z * Callback)) : list (Z * Callback) :=
  match pending with
  | [] => []
  | t :: rest =>
      match earliest rest with
      | Some t' => if (fst t' <? fst t)%Z then t :: drop_earliest rest else rest
      | None => rest
      end
  end.

(** The browser runs the earliest timer, provided its deadline has come. *)
Definition fire (w : World) : World :=
  match earliest (timers w) with
  | Some (deadline, cb) =>
      if (deadline <=? Date_now w)%Z
      then run_callback cb (set_timers (drop_earliest (timers w)) w)
      else w
  | None => w
  end.

(** What can happen during play.  The buttons of the menu screens (menu,
    quit, achievements, settings with its four toggles, reset progress) are
    not among the events: a statement about all sequences of events says
    nothing about them. *)
Inductive Event :=
| Frame                           (* requestAnimationFrame calls gameLoop *)
| Elapse (ms : N)                 (* wall-clock time passes *)
| TimerDue                        (* the browser runs a timer that is due *)
| Act (c : Input.Command)         (* the player acts *)
| ClickStart                      (* the start or the restart button *)
| ClickResume.                    (* the resume button *)

Definition step (e : Event) (w : World) : World :=
  match e with
  | Frame => GameEngine.gameLoop w
  | Elapse ms => set_Date_now (Date_now w + Z.of_N ms)%Z w
  | TimerDue => fire w
  | Act c => Input.deliver c w
  | ClickStart => GameEngine.startGame w
  | ClickResume => GameEngine.resumeGame w
  end.

Definition run (events : list Event) (w : World) : World :=
  fold_left (fun w e => step e w) events w.

(** [n] consecutive frames. *)
Definition frames (n : nat) (w : World) : World :=
  Nat.iter n GameEngine.gameLoop w.
End Session.

(** ** Concrete worlds *)

Module Sample.

(** Crude rational stand-ins for the trigonometric functions. *)
Definition sin (q : Q) : Q := q - q * q * q / 6.
Definition cos (q : Q) : Q := 1 - q * q / 2.

(** The raw draws 0, 0.7, 1.4, ...; reduced to [[0, 1)] they read
    0, 0.7, 0.4, 0.1, 0.8, ... *)
Definition oracle (n : nat) : Q := inject_Z (Z.of_nat n) * 0.7.

(** The engine as its constructor leaves it, on a desktop browser. *)
Definition fresh (rev : Revision) : World :=
  mkWorld rev oracle 0%nat sin cos 3.14159 false 0%Z [] None None []
    start 0%Z false false TouchControls.new Settings.defaults
    (Stats.mk 0 0 0 3 0 0 0 5 1) []
    (Player.new 100 380) [] [] [] None 0%Z [] Camera.new.

(** A game in progress, right after the start button was pressed. *)
Definition started (rev : Revision) : World := GameEngine.startGame (fresh rev).
End Sample.

(** ** Vocabulary of the statements *)

(** The obstacle that [spawn] builds from a row of the type table. *)
Definition obstacle_of_type (ty : ObstacleType.t) : Obstacle.t :=
  Obstacle.mk 900 (ObstacleType.y ty) (ObstacleType.width ty)
    (ObstacleType.height ty) (ObstacleType.type ty) (ObstacleType.color ty).

(** What is left of the list after every obstacle has moved left by [speed]
    and those fully off screen have been culled. *)
Definition obstacles_after_move (speed : Q) (w : World) : list Obstacle.t :=
  filter ObstacleManager.on_screen
    (map (ObstacleManager.moved speed) (obstacles w)).

(** The pending timeouts of the damage handler, those that will clear
    [player.invincible]. *)
Definition is_damage_timeout (t : Z * Callback) : bool :=
  match snd t with
  | ClearInvincible => true
  | _ => false
  end.

Definition damage_timeouts (w : World) : list (Z * Callback) :=
  filter is_damage_timeout (timers w).

(** The observable parts of a world.  The statistics are split into their
    fields, since the handlers touch different ones; the invincibility flag
    and the damage timeouts are parts of their own, next to the player and
    the timer queue they live in. *)
Inductive Field :=
| F_revision
| F_random_source
| F_drawn
| F_Math_sin
| F_Math_cos
| F_Math_PI
| F_canVibrate
| F_Date_now
| F_timers
| F_damageTimeouts
| F_commitStreakHigh
| F_commitStreakAchievements
| F_effects
| F_state
| F_frameCount
| F_isPaused
| F_isMobile
| F_touchControls
| F_settings
| F_score
| F_streak
| F_highScore
| F_lives
| F_combo
| F_maxCombo
| F_commits
| F_gameSpeed
| F_speedMultiplier
| F_unlocked
| F_player
| F_invincible
| F_obstacles
| F_collectibles
| F_powerups
| F_activePowerup
| F_powerupTimer
| F_particles
| F_camera.

(** Two worlds agree on a part. *)
Definition same_field (f : Field) (w w' : World) : Prop :=
  match f with
  | F_revision => revision w = revision w'
  | F_random_source => random_source w = random_source w'
  | F_drawn => drawn w = drawn w'
  | F_Math_sin => Math_sin w = Math_sin w'
  | F_Math_cos => Math_cos w = Math_cos w'
  | F_Math_PI => Math_PI w = Math_PI w'
  | F_canVibrate => canVibrate w = canVibrate w'
  | F_Date_now => Date_now w = Date_now w'
  | F_timers => timers w = timers w'
  | F_damageTimeouts => damage_timeouts w = damage_timeouts w'
  | F_commitStreakHigh => commitStreakHigh w = commitStreakHigh w'
  | F_commitStreakAchievements => commitStreakAchievements w = commitStreakAchievements w'
  | F_effects => effects w = effects w'
  | F_state => state w = state w'
  | F_frameCount => frameCount w = frameCount w'
  | F_isPaused => isPaused w = isPaused w'
  | F_isMobile => isMobile w = isMobile w'
  | F_touchControls => touchControls w = touchControls w'
  | F_settings => settings w = settings w'
  | F_score => Stats.score (stats w) = Stats.score (stats w')
  | F_streak => Stats.streak (stats w) = Stats.streak (stats w')
  | F_highScore => Stats.highScore (stats w) = Stats.highScore (stats w')
  | F_lives => Stats.lives (stats w) = Stats.lives (stats w')
  | F_combo => Stats.combo (stats w) = Stats.combo (stats w')
  | F_maxCombo => Stats.maxCombo (stats w) = Stats.maxCombo (stats w')
  | F_commits => Stats.commits (stats w) = Stats.commits (stats w')
  | F_gameSpeed => Stats.gameSpeed (stats w) = Stats.gameSpeed (stats w')
  | F_speedMultiplier => Stats.speedMultiplier (stats w) = Stats.speedMultiplier (stats w')
  | F_unlocked => unlocked w = unlocked w'
  | F_player => player w = player w'
  | F_invincible => Player.invincible (player w) = Player.invincible (player w')
  | F_obstacles => obstacles w = obstacles w'
  | F_collectibles => collectibles w = collectibles w'
  | F_powerups => powerups w = powerups w'
  | F_activePowerup => activePowerup w = activePowerup w'
  | F_powerupTimer => powerupTimer w = powerupTimer w'
  | F_particles => particles w = particles w'
  | F_camera => camera w = camera w'
  end.

Definition stats_fields : list Field :=
  [ F_score; F_streak; F_highScore; F_lives; F_combo; F_maxCombo; F_commits; F_gameSpeed; F_speedMultiplier ].

(** The player is in the air or sliding: [jumping || sliding]. *)
Definition busy (w : World) : bool :=
  Player.jumping (player w) || Player.sliding (player w).

(** A key that asks for a jump or a slide. *)
Definition is_move_key (key : string) : bool :=
  Input.is_jump_key key || Input.is_slide_key key.

(** A command that asks for a jump: the jump keys, the jump button and a
    swipe upwards that is long enough and more vertical than horizontal. *)
Definition asks_jump (c : Input.Command) (w : World) : bool :=
  match c with
  | Input.KeyDown key => Input.is_jump_key key
  | Input.TouchJumpBtn => Input.touch_enabled w
  | Input.CanvasTouchEnd x y =>
      let dx := x - TouchControls.touchStartX (touchControls w) in
      let dy := y - TouchControls.touchStartY (touchControls w) in
      Input.touch_enabled w && Qgtb (Qabs dy) (Qabs dx) &&
      Qgtb (Qabs dy) (TouchControls.minSwipeDistance (touchControls w)) &&
      Qltb dy 0
  | _ => false
  end.

(** A playing world whose player is in the middle of a jump. *)
Definition airborne (rev : Revision) : World :=
  Input.deliver (Input.KeyDown "ArrowUp") (Sample.started rev).

(** The entries of the catalog that [stats] earns and that are not in the
    unlocked list yet. *)
Definition newly_earned (stats : Stats.t) (unlocked : list string)
    (catalog : list Achievement.t) : list Achievement.t :=
  filter
    (fun a => negb (AchievementManager.includes unlocked (Achievement.id a))
              && Achievement.requirement a stats)
    catalog.

(** The steps of [update] before the managers, and the speed they leave. *)
Definition before_managers (w : World) : World :=
  GameEngine.updateGameSpeed
    (PowerupManager.updateEffects
       (GameEngine.emitTrail
          (GameEngine.updatePlayer (GameEngine.advanceFrame w)))).

(** The three manager updates, in source order, at a speed and a frame. *)
Definition managers (speed : Q) (frame : Z) (w : World) : World :=
  PowerupManager.update speed frame
    (CollectibleManager.update speed frame
       (ObstacleManager.update speed frame w)).

(** A started game with a bug standing on the player. *)
Definition on_a_bug (rev : Revision) : World :=
  set_obstacles [Obstacle.mk 100 380 32 32 bug "#f85149"] (Sample.started rev).

(** The same, with the player invincible. *)
Definition shielded (rev : Revision) : World :=
  set_player (Player.set_invincible true (player (on_a_bug rev))) (on_a_bug rev).

(** One [ParticleSystem.update()] on the list alone. *)
Definition particles_step (rev : Revision) (l : list Particle.t) : list Particle.t :=
  filter (ParticleSystem.kept rev) (map (ParticleSystem.advance rev) l).

(** A started game in which a first burst went off ten updates ago. *)
Definition ten_after_burst (rev : Revision) : World :=
  Nat.iter 10 ParticleSystem.update
    (ParticleSystem.createBurst 116 396 "#39d353" 8 (Sample.started rev)).

(** The world on which [update] runs its collision pass. *)
Definition before_collisions (w : World) : World :=
  ParticleSystem.update
    (managers (GameEngine.currentSpeed (before_managers w)) (frameCount w + 1)%Z
       (before_managers w)).

Definition is_none {A : Type} (o : option A) : bool :=
  match o with
  | None => true
  | Some _ => false
  end.

(** The frame that starts in [w] meets no obstacle, collectible or power-up. *)
Definition collision_free (w : World) : bool :=
  let pre := before_collisions w in
  is_none (ObstacleManager.checkCollision (player pre) pre) &&
  is_none (CollectibleManager.checkCollision (player pre) pre) &&
  is_none (PowerupManager.checkCollision (player pre) pre).

(** [collision_free] along [n] consecutive frames, in one pass. *)
Fixpoint collision_free_run (n : nat) (w : World) : bool :=
  match n with
  | O => true
  | S n' => collision_free w && collision_free_run n' (GameEngine.gameLoop w)
  end.

Definition slowmo_active (w : World) : bool :=
  match activePowerup w with
  | Some slowmo => true
  | _ => false
  end.

(** A started game at top speed whose draws all come out as 0.4: every
    obstacle is a merge conflict hanging above the player's head, every
    collectible sits at height 340 and every power-up at 320, so a player who
    stays on the ground touches nothing. *)
Definition top_speed (rev : Revision) : World :=
  let w := Sample.started rev in
  mkWorld rev (fun _ => 0.4) 0%nat Sample.sin Sample.cos 3.14159 false 0%Z
    (timers w) None None [] playing 0%Z false false TouchControls.new
    Settings.defaults (Stats.mk 0 0 0 3 0 0 0 12 1) []
    (Player.new 100 380) [] [] [] None 0%Z [] Camera.new.

(** The same game, with the particles switched off in the settings, one
    frame after the player ran into a slow-motion power-up. *)
Definition slowed (rev : Revision) : World :=
  GameEngine.gameLoop
    (set_powerups [Powerup.mk 100 380 32 32 slowmo "#58a6ff" 5000 0 0]
       (set_settings (Settings.mk true true false true) (top_speed rev))).

(** The player is invincible and no timeout of the damage handler is
    pending: nothing is left that could clear the flag. *)
Definition shield_stuck (w : World) : Prop :=
  Player.invincible (player w) = true /\ damage_timeouts w = [].

(** Every event but the start button, which resets the player. *)
Definition ordinary (e : Session.Event) : bool :=
  match e with
  | Session.ClickStart => false
  | _ => true
  end.

(** A started game with a bug and an invincibility power-up both standing on
    the player. *)
Definition bug_and_shield (rev : Revision) : World :=
  set_powerups [Powerup.mk 100 380 32 32 invincibility "#bc8cff" 5000 0 0]
    (on_a_bug rev).

(** The player pauses, a second and a half after the hit the damage timeout
    runs, five seconds after the pickup the power-up expires, and the player
    resumes. *)
Definition pause_through_expiry : list Session.Event :=
  [ Session.Act (Input.KeyDown "p");
    Session.Elapse 1484; Session.TimerDue;
    Session.Elapse 3500; Session.TimerDue; Session.TimerDue;
    Session.Act (Input.KeyDown "p");
    Session.Frame ].

(** A started game one frame after the player ran into an invincibility
    power-up: the collision pass has picked it up and activated it, and its
    expiry is pending. *)
Definition shield_picked (rev : Revision) : World :=
  GameEngine.gameLoop
    (set_powerups [Powerup.mk 100 380 32 32 invincibility "#bc8cff" 5000 0 0]
       (Sample.started rev)).

(** The height of the player [k] frames into a jump from the ground, in
    exact arithmetic: [380 - 13 k + 0.3 k (k + 1)]. *)
Definition jump_height (k : nat) : Q :=
  let K := inject_Z (Z.of_nat k) in
  380 - 13 * K + 0.3 * K * (K + 1).

(** What is left of the collectibles and of the power-ups after the move and
    the cull of their manager's [update]. *)
Definition collectibles_after_move (speed : Q) (frameCount : Z) (w : World)
  : list Collectible.t :=
  filter CollectibleManager.on_screen
    (map (CollectibleManager.moved (Math_sin w) speed frameCount) (collectibles w)).

Definition powerups_after_move (speed : Q) (frameCount : Z) (w : World)
  : list Powerup.t :=
  filter PowerupManager.on_screen
    (map (PowerupManager.moved (Math_sin w) speed frameCount) (powerups w)).

(** The power-up that [spawn] builds from a row of the type table. *)
Definition powerup_of_type (ty : PowerupType.t) (phase : Q) : Powerup.t :=
  Powerup.mk 900 320 32 32 (PowerupType.type ty) (PowerupType.color ty)
    (PowerupType.duration ty) 0 phase.

(** The statistics after a hit: one life less and the combo gone; when that
    was the last life, the high score is raised to the score if beaten. *)
Definition damaged (s : Stats.t) : Stats.t :=
  Stats.mk (Stats.score s) (Stats.streak s)
    (if (Stats.lives s - 1 <=? 0)%Z
     then Z.max (Stats.highScore s) (Stats.score s)
     else Stats.highScore s)
    (Stats.lives s - 1) 0 (Stats.maxCombo s) (Stats.commits s)
    (Stats.gameSpeed s) (Stats.speedMultiplier s).

(** The statistics after a pickup. *)
Definition collected (s : Stats.t) : Stats.t :=
  Stats.mk (Stats.score s + 100) (Stats.streak s + 1) (Stats.highScore s)
    (Stats.lives s) (Stats.combo s + 1)
    (Z.max (Stats.maxCombo s) (Stats.combo s + 1)) (Stats.commits s + 1)
    (Stats.gameSpeed s) (Stats.speedMultiplier s).

(** The speed settings one frame later: the multiplier follows the active
    power-up, and on every 500th frame the base speed grows by 0.3 up to the
    cap of 12. *)
Definition speed_step (frame : Z) (slow : bool) (s : Stats.t) : Stats.t :=
  Stats.set_gameSpeed
    (if (js_rem frame 500 =? 0)%Z
     then Qmin (Stats.gameSpeed s + 0.3) 12 else Stats.gameSpeed s)
    (Stats.set_speedMultiplier (if slow then 0.5 else 1) s).

(** The collision pass will count a hit: an obstacle overlaps the player and
    the player is not invincible. *)
Definition hits_obstacle (w : World) : bool :=
  negb (is_none (ObstacleManager.checkCollision (player w) w)) &&
  negb (Player.invincible (player w)).

(** The collision pass will pick up a collectible. *)
Definition hits_collectible (w : World) : bool :=
  negb (is_none (CollectibleManager.checkCollision (player w) w)).

(** The statistics at the end of a frame that began with [s], on frame number
    [frame], with or without slow motion, a hit and a pickup: the speed
    step, the hit, the pickup, and last the points for the distance run. *)
Definition stats_after_frame (frame : Z) (slow hit pick : bool) (s : Stats.t)
  : Stats.t :=
  let s0 := speed_step frame slow s in
  let s1 := if hit then damaged s0 else s0 in
  let s2 := if pick then collected s1 else s1 in
  Stats.set_score
    (Stats.score s2 +
     Math_floor (Stats.gameSpeed s0 * Stats.speedMultiplier s0 / 10))%Z s2.

(** The statistics with which [resetGame] starts a game: everything at its
    initial value but the high score. *)
Definition initial_stats (highScore : Z) : Stats.t :=
  Stats.mk 0 0 highScore 3 0 0 0 5 1.

(** The speed settings the engine works with: a base speed between the
    initial 5 and the cap of 12, and a multiplier of 1 or, in slow motion,
    0.5. *)
Definition sane_speed (s : Stats.t) : Prop :=
  5 <= Stats.gameSpeed s /\ Stats.gameSpeed s <= 12 /\
  (Stats.speedMultiplier s = 1 \/ Stats.speedMultiplier s = 0.5).

(** The lives a session can show: between 0 and 3, at least one while a
    game is running, none once it is over. *)
Definition lives_in_range (s : Stats.t) (st : GameState) : Prop :=
  (0 <= Stats.lives s <= 3)%Z /\
  (st = playing -> (1 <= Stats.lives s)%Z) /\
  (st = gameOver_state -> Stats.lives s = 0%Z).

(** The pickup counters agree with each other. *)
Definition counters_agree (s : Stats.t) : Prop :=
  (0 <= Stats.combo s <= Stats.maxCombo s)%Z /\
  (Stats.maxCombo s <= Stats.commits s)%Z /\
  Stats.streak s = Stats.commits s.

(** The points a frame gives for the distance run, [Math.floor(speed / 10)]
    at a base speed between 5 and 12: one point from speed 10 on, none below
    it and none in slow motion. *)
Definition distance_points (gameSpeed : Q) (slow : bool) : Z :=
  if slow then 0 else if Qle_bool 10 gameSpeed then 1 else 0.

(** The base speed that belongs to a frame count: 0.3 more for every 500
    frames, from 5 up to the cap of 12. *)
Definition scheduled_speed (frame : Z) : Q :=
  Qmin 12 (5 + 0.3 * inject_Z (frame / 500)).

(** The player but for the invincibility flag: where it stands, how it
    moves and how tall it is. *)
Definition stance (p : Player.t) : Player.t := Player.set_invincible false p.

(** The parts of the world that can change while no game is running or the
    start button stays untouched: the clock and the timers with what their
    callbacks write, the log of effects and the pause flag. *)
Definition idle_footprint : list Field :=
  [ F_Date_now; F_timers; F_damageTimeouts; F_player; F_invincible;
    F_activePowerup; F_effects; F_isPaused ].

(** A game on its last life, with a bug and a collectible both standing on
    the player. *)
Definition last_life (rev : Revision) : World :=
  set_collectibles [Collectible.mk 100 380 24 24 0 0]
    (set_stats (Stats.mk 250 2 100 1 2 2 2 5 1) (on_a_bug rev)).

(** The events that leave a pause alone: everything but the pause key and
    the resume and start buttons. *)
Definition keeps_pause (e : Session.Event) : bool :=
  match e with
  | Session.Act (Input.KeyDown key) => negb (Input.is_pause_key key)
  | Session.ClickStart | Session.ClickResume => false
  | _ => true
  end.

(** A game just started on a touch device. *)
Definition on_mobile : World :=
  GameEngine.startGame
    (mkWorld Enhanced Sample.oracle 0%nat Sample.sin Sample.cos 3.14159 true 0%Z
       [] None None [] start 0%Z false true TouchControls.new Settings.defaults
       (Stats.mk 0 0 0 3 0 0 0 5 1) [] (Player.new 100 380) [] [] [] None 0%Z []
       Camera.new).

(** ** What the page reads back from the store *)

(** [loadStats()]: [parseInt(localStorage.getItem('commitStreakHigh')) || 0]
    for the high score, the initial values for the rest. *)
Definition loadStats (w : World) : Stats.t :=
  Stats.mk 0 0
    (match commitStreakHigh w with Some saved => saved | None => 0 end)
    3 0 0 0 5 1.

(** [loadUnlocked()]: the saved list, or the empty one. *)
Definition loadUnlocked (w : World) : list string :=
  match commitStreakAchievements w with Some saved => saved | None => [] end.

(** The store is up to date: a page loaded now would show the high score and
    the achievements of this one. *)
Definition progress_saved (w : World) : Prop :=
  Stats.highScore (loadStats w) = Stats.highScore (stats w) /\
  loadUnlocked w = unlocked w.

(** ** The camera shake and the scrolling background

    Both are part of the picture only: [draw()] asks the camera for an
    offset, and [update()] scrolls the background between the managers and
    the particles.  They read the clock and draw random numbers, and write
    nothing that the game logic reads; they are modelled here on their own,
    next to the world.  The camera is the same in both revisions; the
    background is the one of [game.js] (the enhanced copy draws three
    layers, which are not embedded). *)

Module Draw.

(** [Camera.getShake()].  The offsets are no numbers when the duration is 0
    and the division gives NaN or an infinity; [None] stands for that. *)
Definition getShake (w : World) : option (Q * Q) * World :=
  let elapsed := (Date_now w - Camera.shakeTime (camera w))%Z in
  if (elapsed >? Camera.shakeDuration (camera w))%Z then (Some (0, 0), w)
  else if (Camera.shakeDuration (camera w) =? 0)%Z then (None, consume 2 w)
  else
    let progress :=
      1 - inject_Z elapsed / inject_Z (Camera.shakeDuration (camera w)) in
    let intensity := Camera.shakeIntensity (camera w) * progress in
    (Some ((Math_random 0 w - 0.5) * intensity,
           (Math_random 1 w - 0.5) * intensity),
     consume 2 w).

End Draw.

Module Background.

Record element := mkElement {
    x : Q; y : Q; char : string; speed : Q; opacity : Q
  }.

Definition chars : list string :=
  [ "{}"; "()"; "[]"; "//"; "/*"; "*/"; "<>"; "=="; "!="; "++"; "--" ].

(** [init()]: twenty elements, five draws each. *)
Definition init (w : World) : list element * World :=
  for_loop 20
    (fun _ (s : list element * World) =>
       let (elements, w) := s in
       (elements ++
        [ mkElement (Math_random 0 w * 900) (Math_random 1 w * 400)
            (pick (Math_random 2 w) chars "{}")
            (0.2 + Math_random 3 w * 0.5) (0.1 + Math_random 4 w * 0.15) ],
        consume 5 w))
    ([], w).

(** The body of the [forEach] in [update]. *)
Definition scroll (el : element) (w : World) : element * World :=
  let x' := x el - speed el in
  if Qltb x' (-50)
  then (mkElement 900 (Math_random 0 w * 400) (char el) (speed el) (opacity el),
        consume 1 w)
  else (mkElement x' (y el) (char el) (speed el) (opacity el), w).

(** [update(gameSpeed)]; the argument is not used. *)
Definition update (gameSpeed : Q) (s : list element * World)
  : list element * World :=
  fold_left
    (fun (acc : list element * World) el =>
       let (done, w) := acc in
       let (el', w') := scroll el w in
       (done ++ [el'], w'))
    (fst s) ([], snd s).

End Background.

(** An element of the background as [init] makes it and [update] keeps it:
    between the left margin and the right edge, at a height on the canvas,
    drifting at its own slow speed. *)
Definition in_view (el : Background.element) : Prop :=
  -50 <= Background.x el /\ Background.x el <= 900 /\
  0 <= Background.y el /\ Background.y el < 400 /\
  0.2 <= Background.speed el /\ Background.speed el < 0.7 /\
  In (Background.char el) Background.chars.

(** A started game in the moment of a hit. *)
Definition just_hit (rev : Revision) : World :=
  GameEngine.handleDamage (set_Date_now 1000 (Sample.started rev)).

(** A started game with a bug far ahead, and a bug and a spike both
    standing on the player. *)
Definition among_obstacles (rev : Revision) : World :=
  set_obstacles
    [ Obstacle.mk 500 380 32 32 bug "#f85149";
      Obstacle.mk 100 380 32 32 bug "#f85149";
      Obstacle.mk 110 364 24 48 spike "#ff6b6b" ]
    (Sample.started rev).

(* end of vocabulary *)

(** * Properties *)

(** ** Numbers *)

Lemma Qltb_lt (a b : Q) : Qltb a b = true <-> a < b.
Proof.
  unfold Qltb. rewrite negb_true_iff, <- not_true_iff_false, Qle_bool_iff.
  split; [apply Qnot_le_lt | apply Qlt_not_le].
Qed.

Lemma Qgtb_gt (a b : Q) : Qgtb a b = true <-> a > b.
Proof. unfold Qgtb. apply Qltb_lt. Qed.

Lemma Qgeb_ge (a b : Q) : Qgeb a b = true <-> a >= b.
Proof. unfold Qgeb. apply Qle_bool_iff. Qed.

Lemma frac_range (q : Q) : 0 <= frac q /\ frac q < 1.
Proof.
  unfold frac. pose proof (Qfloor_le q) as Hlo. pose proof (Qlt_floor q) as Hhi.
  rewrite inject_Z_plus in Hhi. change (inject_Z 1) with 1 in Hhi.
  split; lra.
Qed.

Lemma Math_random_range (k : nat) (w : World) :
  0 <= Math_random k w /\ Math_random k w < 1.
Proof. apply frac_range. Qed.

(** [Math.floor(Math.random() * n)] is an index of an array of length [n]. *)
Lemma random_index_range (r : Q) (n : nat) :
  0 <= r -> r < 1 -> (0 < n)%nat ->
  (Z.to_nat (Math_floor (r * inject_Z (Z.of_nat n))) < n)%nat.
Proof.
  intros Hlo Hhi Hn. unfold Math_floor.
  assert (Hpos : 0 < inject_Z (Z.of_nat n)).
  { change 0 with (inject_Z 0). rewrite <- Zlt_Qlt. lia. }
  assert (H0 : (0 <= Qfloor (r * inject_Z (Z.of_nat n)))%Z).
  { rewrite <- (Qfloor_Z 0). apply Qfloor_resp_le.
    change (inject_Z 0) with 0. nra. }
  assert (H1 : (Qfloor (r * inject_Z (Z.of_nat n)) < Z.of_nat n)%Z).
  { rewrite Zlt_Qlt. eapply Qle_lt_trans; [apply Qfloor_le|]. nra. }
  lia.
Qed.

Lemma pick_In {A : Type} (r : Q) (table : list A) (default : A) :
  0 <= r -> r < 1 -> table <> [] -> In (pick r table default) table.
Proof.
  intros Hlo Hhi Hne. unfold pick. apply nth_In.
  apply random_index_range; auto.
  destruct table; [congruence | simpl; lia].
Qed.

(** ** Frames: what an operation leaves alone

    Every operation of the engine is a function on worlds.  A frame lemma
    for an operation [op] names the parts it may change, in the form
    [~ In f parts -> same_field f w0 w -> same_field f w0 (op w)], so that
    the lemmas chain through the sequential code of the callers. *)

Create HintDb frame.

Lemma same_field_refl (f : Field) (w : World) : same_field f w w.
Proof. destruct f; reflexivity. Qed.

Lemma same_field_trans (f : Field) (w1 w2 w3 : World) :
  same_field f w1 w2 -> same_field f w2 w3 -> same_field f w1 w3.
Proof. destruct f; simpl; congruence. Qed.

#[export] Hint Extern 0 (same_field _ ?a ?b) =>
  constr_eq a b; apply same_field_refl : frame.

Ltac notin :=
  cbn [In];
  repeat match goal with
         | H : ~ In _ _ |- _ => progress cbn [In] in H
         end;
  solve [ tauto | intuition discriminate ].

#[export] Hint Extern 1 (~ In _ _) => notin : frame.

Ltac frame_setter f :=
  let Hn := fresh "Hn" in
  let H := fresh "H" in
  intros Hn H; destruct f; simpl in *;
  solve [ assumption | exfalso; apply Hn; simpl; intuition ].

Lemma frame_set_drawn (f : Field) (v : nat) (w0 w : World) :
  ~ In f [F_drawn] -> same_field f w0 w -> same_field f w0 (set_drawn v w).
Proof. frame_setter f. Qed.

Lemma frame_set_Date_now (f : Field) (v : Z) (w0 w : World) :
  ~ In f [F_Date_now] -> same_field f w0 w -> same_field f w0 (set_Date_now v w).
Proof. frame_setter f. Qed.

Lemma frame_set_timers (f : Field) (v : list (Z * Callback)) (w0 w : World) :
  ~ In f [F_timers; F_damageTimeouts] -> same_field f w0 w -> same_field f w0 (set_timers v w).
Proof. frame_setter f. Qed.

Lemma frame_set_commitStreakHigh (f : Field) (v : option Z) (w0 w : World) :
  ~ In f [F_commitStreakHigh] -> same_field f w0 w -> same_field f w0 (set_commitStreakHigh v w).
Proof. frame_setter f. Qed.

Lemma frame_set_commitStreakAchievements (f : Field) (v : option (list string)) (w0 w : World) :
  ~ In f [F_commitStreakAchievements] -> same_field f w0 w -> same_field f w0 (set_commitStreakAchievements v w).
Proof. frame_setter f. Qed.

Lemma frame_set_effects (f : Field) (v : list Effect) (w0 w : World) :
  ~ In f [F_effects] -> same_field f w0 w -> same_field f w0 (set_effects v w).
Proof. frame_setter f. Qed.

Lemma frame_set_state (f : Field) (v : GameState) (w0 w : World) :
  ~ In f [F_state] -> same_field f w0 w -> same_field f w0 (set_state v w).
Proof. frame_setter f. Qed.

Lemma frame_set_frameCount (f : Field) (v : Z) (w0 w : World) :
  ~ In f [F_frameCount] -> same_field f w0 w -> same_field f w0 (set_frameCount v w).
Proof. frame_setter f. Qed.

Lemma frame_set_isPaused (f : Field) (v : bool) (w0 w : World) :
  ~ In f [F_isPaused] -> same_field f w0 w -> same_field f w0 (set_isPaused v w).
Proof. frame_setter f. Qed.

Lemma frame_set_touchControls (f : Field) (v : TouchControls.t) (w0 w : World) :
  ~ In f [F_touchControls] -> same_field f w0 w -> same_field f w0 (set_touchControls v w).
Proof. frame_setter f. Qed.

Lemma frame_set_settings (f : Field) (v : Settings.t) (w0 w : World) :
  ~ In f [F_settings] -> same_field f w0 w -> same_field f w0 (set_settings v w).
Proof. frame_setter f. Qed.

Lemma frame_set_stats (f : Field) (v : Stats.t) (w0 w : World) :
  ~ In f stats_fields -> same_field f w0 w -> same_field f w0 (set_stats v w).
Proof. frame_setter f. Qed.

Lemma frame_set_score (f : Field) (v : Z) (w0 w : World) :
  ~ In f [F_score] -> same_field f w0 w ->
  same_field f w0 (set_stats (Stats.set_score v (stats w)) w).
Proof. frame_setter f. Qed.

Lemma frame_set_streak (f : Field) (v : Z) (w0 w : World) :
  ~ In f [F_streak] -> same_field f w0 w ->
  same_field f w0 (set_stats (Stats.set_streak v (stats w)) w).
Proof. frame_setter f. Qed.

Lemma frame_set_highScore (f : Field) (v : Z) (w0 w : World) :
  ~ In f [F_highScore] -> same_field f w0 w ->
  same_field f w0 (set_stats (Stats.set_highScore v (stats w)) w).
Proof. frame_setter f. Qed.

Lemma frame_set_lives (f : Field) (v : Z) (w0 w : World) :
  ~ In f [F_lives] -> same_field f w0 w ->
  same_field f w0 (set_stats (Stats.set_lives v (stats w)) w).
Proof. frame_setter f. Qed.

Lemma frame_set_combo (f : Field) (v : Z) (w0 w : World) :
  ~ In f [F_combo] -> same_field f w0 w ->
  same_field f w0 (set_stats (Stats.set_combo v (stats w)) w).
Proof. frame_setter f. Qed.

Lemma frame_set_maxCombo (f : Field) (v : Z) (w0 w : World) :
  ~ In f [F_maxCombo] -> same_field f w0 w ->
  same_field f w0 (set_stats (Stats.set_maxCombo v (stats w)) w).
Proof. frame_setter f. Qed.

Lemma frame_set_commits (f : Field) (v : Z) (w0 w : World) :
  ~ In f [F_commits] -> same_field f w0 w ->
  same_field f w0 (set_stats (Stats.set_commits v (stats w)) w).
Proof. frame_setter f. Qed.

Lemma frame_set_gameSpeed (f : Field) (v : Q) (w0 w : World) :
  ~ In f [F_gameSpeed] -> same_field f w0 w ->
  same_field f w0 (set_stats (Stats.set_gameSpeed v (stats w)) w).
Proof. frame_setter f. Qed.

Lemma frame_set_speedMultiplier (f : Field) (v : Q) (w0 w : World) :
  ~ In f [F_speedMultiplier] -> same_field f w0 w ->
  same_field f w0 (set_stats (Stats.set_speedMultiplier v (stats w)) w).
Proof. frame_setter f. Qed.

Lemma frame_set_unlocked (f : Field) (v : list string) (w0 w : World) :
  ~ In f [F_unlocked] -> same_field f w0 w -> same_field f w0 (set_unlocked v w).
Proof. frame_setter f. Qed.

Lemma frame_set_player (f : Field) (v : Player.t) (w0 w : World) :
  ~ In f [F_player; F_invincible] -> same_field f w0 w -> same_field f w0 (set_player v w).
Proof. frame_setter f. Qed.

Lemma frame_set_obstacles (f : Field) (v : list Obstacle.t) (w0 w : World) :
  ~ In f [F_obstacles] -> same_field f w0 w -> same_field f w0 (set_obstacles v w).
Proof. frame_setter f. Qed.

Lemma frame_set_collectibles (f : Field) (v : list Collectible.t) (w0 w : World) :
  ~ In f [F_collectibles] -> same_field f w0 w -> same_field f w0 (set_collectibles v w).
Proof. frame_setter f. Qed.

Lemma frame_set_powerups (f : Field) (v : list Powerup.t) (w0 w : World) :
  ~ In f [F_powerups] -> same_field f w0 w -> same_field f w0 (set_powerups v w).
Proof. frame_setter f. Qed.

Lemma frame_set_activePowerup (f : Field) (v : option PowerupKind) (w0 w : World) :
  ~ In f [F_activePowerup] -> same_field f w0 w -> same_field f w0 (set_activePowerup v w).
Proof. frame_setter f. Qed.

Lemma frame_set_powerupTimer (f : Field) (v : Z) (w0 w : World) :
  ~ In f [F_powerupTimer] -> same_field f w0 w -> same_field f w0 (set_powerupTimer v w).
Proof. frame_setter f. Qed.

Lemma frame_set_particles (f : Field) (v : list Particle.t) (w0 w : World) :
  ~ In f [F_particles] -> same_field f w0 w -> same_field f w0 (set_particles v w).
Proof. frame_setter f. Qed.

Lemma frame_set_camera (f : Field) (v : Camera.t) (w0 w : World) :
  ~ In f [F_camera] -> same_field f w0 w -> same_field f w0 (set_camera v w).
Proof. frame_setter f. Qed.

#[export] Hint Resolve
  frame_set_drawn frame_set_Date_now frame_set_timers frame_set_commitStreakHigh frame_set_commitStreakAchievements
  frame_set_effects frame_set_state frame_set_frameCount frame_set_isPaused frame_set_touchControls
  frame_set_settings frame_set_stats frame_set_unlocked frame_set_player frame_set_obstacles
  frame_set_collectibles frame_set_powerups frame_set_activePowerup frame_set_powerupTimer frame_set_particles
  frame_set_camera frame_set_score frame_set_streak frame_set_highScore frame_set_lives
  frame_set_combo frame_set_maxCombo frame_set_commits frame_set_gameSpeed frame_set_speedMultiplier : frame.

Lemma for_loop_ind {S : Type} (P : S -> Prop) (body : nat -> S -> S) :
  (forall i s, P s -> P (body i s)) ->
  forall count s, P s -> P (for_loop count body s).
Proof.
  intros Hbody count. unfold for_loop. generalize 0%nat.
  induction count as [| n IH]; intros k s Hs; simpl; auto.
Qed.

Lemma frame_for_loop (f : Field) (w0 : World) (body : nat -> World -> World) :
  (forall i w, same_field f w0 w -> same_field f w0 (body i w)) ->
  forall count w, same_field f w0 w -> same_field f w0 (for_loop count body w).
Proof.
  intros Hbody count w Hw.
  apply (for_loop_ind (same_field f w0)); auto.
Qed.

Lemma frame_let (f : Field) (w0 e : World) (body : World -> World) :
  same_field f w0 e ->
  (forall w, same_field f w0 w -> same_field f w0 (body w)) ->
  same_field f w0 (let w := e in body w).
Proof. intros He Hbody. cbv zeta. auto. Qed.

(** One step through sequential code: a [let] of a world is cut at the
    binding, a [let] of a value is substituted, a conditional is split, a
    loop is entered, and a call is closed by the frame lemma of the callee. *)
Ltac frame_step :=
  first
    [ match goal with
      | H : same_field ?f ?a ?b |- same_field ?g ?c ?d =>
          constr_eq f g; constr_eq a c; constr_eq b d; exact H
      end
    | match goal with
      | |- same_field _ ?a ?b => constr_eq a b; apply same_field_refl
      end
    | lazymatch goal with
      | |- same_field ?f ?w0 (let x := ?e in @?body x) =>
          lazymatch type of e with
          | World => apply (frame_let f w0 e body); [| intros ? ?]
          | _ => change (same_field f w0 (body e)); cbv beta
          end
      end
    | match goal with
      | |- same_field _ _ (match ?c with _ => _ end) => destruct c
      end
    | apply frame_for_loop; [intros ? ? ? |]
    | solve [ eauto 40 with frame ] ].

Ltac frame := intros; repeat frame_step.

(** [frame] inside a larger proof: the facts already in the context are put
    aside, so that the search never compares two large worlds. *)
Ltac framed :=
  repeat match goal with
         | H : ?T |- _ => match type of T with Prop => clear H end
         end;
  frame.

(** The same steps as hints, for calls whose argument is itself a
    conditional, a loop or a [let]. *)
#[export] Hint Extern 4 (same_field _ _ (match ?c with _ => _ end)) =>
  destruct c : frame.
#[export] Hint Extern 4 (same_field ?f ?w0 (let x := ?e in @?body x)) =>
  cbv zeta : frame.
#[export] Hint Extern 4 (same_field _ _ (for_loop _ _ _)) =>
  apply frame_for_loop; [intros ? ? ? |] : frame.

Lemma frame_consume (f : Field) (n : nat) (w0 w : World) :
  ~ In f [F_drawn] -> same_field f w0 w -> same_field f w0 (consume n w).
Proof. unfold consume. frame. Qed.

Lemma frame_setTimeout (f : Field) (cb : Callback) (delay : Z) (w0 w : World) :
  ~ In f [F_timers; F_damageTimeouts] ->
  same_field f w0 w -> same_field f w0 (setTimeout cb delay w).
Proof. unfold setTimeout. frame. Qed.

(** A timeout other than the damage handler's leaves the damage timeouts as
    they are. *)
Lemma frame_setTimeout_other (f : Field) (cb : Callback) (delay : Z) (w0 w : World) :
  cb <> ClearInvincible -> ~ In f [F_timers] ->
  same_field f w0 w -> same_field f w0 (setTimeout cb delay w).
Proof.
  intros Hcb Hn H. destruct f;
    try (apply frame_setTimeout; [notin | assumption]).
  unfold same_field, damage_timeouts, setTimeout in *.
  cbn [timers set_timers]. rewrite filter_app. cbn [filter].
  unfold is_damage_timeout at 2. cbn [snd].
  destruct cb; try congruence; rewrite app_nil_r; assumption.
Qed.

(** Replacing the player by one with the same invincibility flag. *)
Lemma frame_set_player_flag (f : Field) (p : Player.t) (w0 w : World) :
  Player.invincible p = Player.invincible (player w) -> ~ In f [F_player] ->
  same_field f w0 w -> same_field f w0 (set_player p w).
Proof.
  intros Hp Hn H. destruct f;
    try (apply frame_set_player; [notin | assumption]).
  unfold same_field in *. cbn [player set_player]. congruence.
Qed.

Lemma Player_update_invincible (p : Player.t) :
  Player.invincible (Player.update p) = Player.invincible p.
Proof.
  unfold Player.update, Player.update_physics, Player.update_slide.
  destruct (Player.sliding p); [destruct (_ <=? _)%Z |];
    cbn [Player.y Player.velocityY]; destruct (Qgeb _ _); reflexivity.
Qed.

#[export] Hint Extern 1 (_ <> ClearInvincible) => discriminate : frame.
#[export] Hint Extern 1 (Player.invincible _ = Player.invincible _) =>
  solve [ reflexivity | apply Player_update_invincible ] : frame.
#[export] Hint Resolve frame_setTimeout_other frame_set_player_flag : frame.

Lemma frame_emit (f : Field) (e : Effect) (w0 w : World) :
  ~ In f [F_effects] -> same_field f w0 w -> same_field f w0 (emit e w).
Proof. unfold emit. frame. Qed.

#[export] Hint Resolve frame_consume frame_setTimeout frame_emit : frame.

Lemma frame_ObstacleManager_reset (f : Field) (w0 w : World) :
  ~ In f [F_obstacles] ->
  same_field f w0 w -> same_field f w0 (ObstacleManager.reset w).
Proof. cbv beta delta [ObstacleManager.reset]. frame. Qed.

#[export] Hint Resolve frame_ObstacleManager_reset : frame.

Lemma frame_ObstacleManager_spawn (f : Field) (w0 w : World) :
  ~ In f [F_obstacles; F_drawn] ->
  same_field f w0 w -> same_field f w0 (ObstacleManager.spawn w).
Proof. cbv beta delta [ObstacleManager.spawn]. frame. Qed.

#[export] Hint Resolve frame_ObstacleManager_spawn : frame.

Lemma frame_ObstacleManager_update (f : Field) (speed : Q) (frame : Z) (w0 w : World) :
  ~ In f [F_obstacles; F_drawn] ->
  same_field f w0 w -> same_field f w0 (ObstacleManager.update speed frame w).
Proof. cbv beta delta [ObstacleManager.update]. frame. Qed.

#[export] Hint Resolve frame_ObstacleManager_update : frame.

Lemma frame_removeObstacle (f : Field) (o : Obstacle.t) (w0 w : World) :
  ~ In f [F_obstacles] ->
  same_field f w0 w -> same_field f w0 (ObstacleManager.removeObstacle o w).
Proof. cbv beta delta [ObstacleManager.removeObstacle]. frame. Qed.

#[export] Hint Resolve frame_removeObstacle : frame.

Lemma frame_CollectibleManager_reset (f : Field) (w0 w : World) :
  ~ In f [F_collectibles] ->
  same_field f w0 w -> same_field f w0 (CollectibleManager.reset w).
Proof. cbv beta delta [CollectibleManager.reset]. frame. Qed.

#[export] Hint Resolve frame_CollectibleManager_reset : frame.

Lemma frame_CollectibleManager_spawn (f : Field) (w0 w : World) :
  ~ In f [F_collectibles; F_drawn] ->
  same_field f w0 w -> same_field f w0 (CollectibleManager.spawn w).
Proof. cbv beta delta [CollectibleManager.spawn]. frame. Qed.

#[export] Hint Resolve frame_CollectibleManager_spawn : frame.

Lemma frame_CollectibleManager_update (f : Field) (speed : Q) (frame : Z) (w0 w : World) :
  ~ In f [F_collectibles; F_drawn] ->
  same_field f w0 w -> same_field f w0 (CollectibleManager.update speed frame w).
Proof. cbv beta delta [CollectibleManager.update]. frame. Qed.

#[export] Hint Resolve frame_CollectibleManager_update : frame.

Lemma frame_removeCollectible (f : Field) (c : Collectible.t) (w0 w : World) :
  ~ In f [F_collectibles] ->
  same_field f w0 w -> same_field f w0 (CollectibleManager.removeCollectible c w).
Proof. cbv beta delta [CollectibleManager.removeCollectible]. frame. Qed.

#[export] Hint Resolve frame_removeCollectible : frame.

Lemma frame_PowerupManager_reset (f : Field) (w0 w : World) :
  ~ In f [F_powerups; F_activePowerup; F_powerupTimer] ->
  same_field f w0 w -> same_field f w0 (PowerupManager.reset w).
Proof. cbv beta delta [PowerupManager.reset]. frame. Qed.

#[export] Hint Resolve frame_PowerupManager_reset : frame.

Lemma frame_PowerupManager_spawn (f : Field) (w0 w : World) :
  ~ In f [F_powerups; F_drawn] ->
  same_field f w0 w -> same_field f w0 (PowerupManager.spawn w).
Proof. cbv beta delta [PowerupManager.spawn]. frame. Qed.

#[export] Hint Resolve frame_PowerupManager_spawn : frame.

Lemma frame_PowerupManager_update (f : Field) (speed : Q) (frame : Z) (w0 w : World) :
  ~ In f [F_powerups; F_drawn] ->
  same_field f w0 w -> same_field f w0 (PowerupManager.update speed frame w).
Proof. cbv beta delta [PowerupManager.update]. frame. Qed.

#[export] Hint Resolve frame_PowerupManager_update : frame.

Lemma frame_removePowerup (f : Field) (pu : Powerup.t) (w0 w : World) :
  ~ In f [F_powerups] ->
  same_field f w0 w -> same_field f w0 (PowerupManager.removePowerup pu w).
Proof. cbv beta delta [PowerupManager.removePowerup]. frame. Qed.

#[export] Hint Resolve frame_removePowerup : frame.

Lemma frame_activatePowerup (f : Field) (type : PowerupKind) (w0 w : World) :
  ~ In f [F_activePowerup; F_timers] ->
  same_field f w0 w -> same_field f w0 (PowerupManager.activatePowerup type w).
Proof. cbv beta delta [PowerupManager.activatePowerup]. frame. Qed.

#[export] Hint Resolve frame_activatePowerup : frame.

Lemma frame_updateEffects (f : Field) (w0 w : World) :
  ~ In f [F_player; F_invincible; F_speedMultiplier] ->
  same_field f w0 w -> same_field f w0 (PowerupManager.updateEffects w).
Proof. cbv beta delta [PowerupManager.updateEffects]. frame. Qed.

#[export] Hint Resolve frame_updateEffects : frame.

Lemma frame_ParticleSystem_reset (f : Field) (w0 w : World) :
  ~ In f [F_particles] ->
  same_field f w0 w -> same_field f w0 (ParticleSystem.reset w).
Proof. cbv beta delta [ParticleSystem.reset]. frame. Qed.

#[export] Hint Resolve frame_ParticleSystem_reset : frame.

Lemma frame_ParticleSystem_update (f : Field) (w0 w : World) :
  ~ In f [F_particles] ->
  same_field f w0 w -> same_field f w0 (ParticleSystem.update w).
Proof. cbv beta delta [ParticleSystem.update]. frame. Qed.

#[export] Hint Resolve frame_ParticleSystem_update : frame.

Lemma frame_push (f : Field) (p : Particle.t) (w0 w : World) :
  ~ In f [F_particles] ->
  same_field f w0 w -> same_field f w0 (ParticleSystem.push p w).
Proof. cbv beta delta [ParticleSystem.push]. frame. Qed.

#[export] Hint Resolve frame_push : frame.

Lemma frame_createBurst (f : Field) (x y : Q) (color : string) (count : nat) (w0 w : World) :
  ~ In f [F_particles; F_drawn] ->
  same_field f w0 w -> same_field f w0 (ParticleSystem.createBurst x y color count w).
Proof. cbv beta delta [ParticleSystem.createBurst]. frame. Qed.

#[export] Hint Resolve frame_createBurst : frame.

Lemma frame_createExplosion (f : Field) (x y : Q) (color : string) (count : nat) (w0 w : World) :
  ~ In f [F_particles; F_drawn] ->
  same_field f w0 w -> same_field f w0 (ParticleSystem.createExplosion x y color count w).
Proof. cbv beta delta [ParticleSystem.createExplosion]. frame. Qed.

#[export] Hint Resolve frame_createExplosion : frame.

Lemma frame_createTrail (f : Field) (x y : Q) (color : string) (w0 w : World) :
  ~ In f [F_particles; F_drawn] ->
  same_field f w0 w -> same_field f w0 (ParticleSystem.createTrail x y color w).
Proof. cbv beta delta [ParticleSystem.createTrail]. frame. Qed.

#[export] Hint Resolve frame_createTrail : frame.

Lemma frame_createSparkle (f : Field) (x y : Q) (color : string) (w0 w : World) :
  ~ In f [F_particles; F_drawn] ->
  same_field f w0 w -> same_field f w0 (ParticleSystem.createSparkle x y color w).
Proof. cbv beta delta [ParticleSystem.createSparkle]. frame. Qed.

#[export] Hint Resolve frame_createSparkle : frame.

Lemma frame_saveUnlocked (f : Field) (w0 w : World) :
  ~ In f [F_commitStreakAchievements] ->
  same_field f w0 w -> same_field f w0 (AchievementManager.saveUnlocked w).
Proof. cbv beta delta [AchievementManager.saveUnlocked]. frame. Qed.

#[export] Hint Resolve frame_saveUnlocked : frame.

Lemma frame_checkAchievements (f : Field) (stats : Stats.t) (w0 w : World) :
  ~ In f [F_unlocked; F_commitStreakAchievements] ->
  same_field f w0 w ->
  same_field f w0 (snd (AchievementManager.checkAchievements stats w)).
Proof. unfold AchievementManager.checkAchievements. cbn [snd]. frame. Qed.

#[export] Hint Resolve frame_checkAchievements : frame.

Lemma frame_playSound (f : Field) (type : string) (w0 w : World) :
  ~ In f [F_effects; F_timers] ->
  same_field f w0 w -> same_field f w0 (GameEngine.playSound type w).
Proof. cbv beta delta [GameEngine.playSound]. frame. Qed.

#[export] Hint Resolve frame_playSound : frame.

Lemma frame_updateUI (f : Field) (w0 w : World) :
  ~ In f [F_effects] ->
  same_field f w0 w -> same_field f w0 (GameEngine.updateUI w).
Proof. cbv beta delta [GameEngine.updateUI]. frame. Qed.

#[export] Hint Resolve frame_updateUI : frame.

Lemma frame_updateLives (f : Field) (w0 w : World) :
  ~ In f [F_effects] ->
  same_field f w0 w -> same_field f w0 (GameEngine.updateLives w).
Proof. cbv beta delta [GameEngine.updateLives]. frame. Qed.

#[export] Hint Resolve frame_updateLives : frame.

Lemma frame_updateCombo (f : Field) (w0 w : World) :
  ~ In f [F_effects] ->
  same_field f w0 w -> same_field f w0 (GameEngine.updateCombo w).
Proof. cbv beta delta [GameEngine.updateCombo]. frame. Qed.

#[export] Hint Resolve frame_updateCombo : frame.

Lemma frame_hideAllScreens (f : Field) (w0 w : World) :
  ~ In f [F_effects] ->
  same_field f w0 w -> same_field f w0 (GameEngine.hideAllScreens w).
Proof. cbv beta delta [GameEngine.hideAllScreens]. frame. Qed.

#[export] Hint Resolve frame_hideAllScreens : frame.

Lemma frame_showMobileControls (f : Field) (w0 w : World) :
  ~ In f [F_effects] ->
  same_field f w0 w -> same_field f w0 (GameEngine.showMobileControls w).
Proof. cbv beta delta [GameEngine.showMobileControls]. frame. Qed.

#[export] Hint Resolve frame_showMobileControls : frame.

Lemma frame_hideMobileControls (f : Field) (w0 w : World) :
  ~ In f [F_effects] ->
  same_field f w0 w -> same_field f w0 (GameEngine.hideMobileControls w).
Proof. cbv beta delta [GameEngine.hideMobileControls]. frame. Qed.

#[export] Hint Resolve frame_hideMobileControls : frame.

Lemma frame_triggerVibration (f : Field) (duration : Z) (w0 w : World) :
  ~ In f [F_effects] ->
  same_field f w0 w -> same_field f w0 (GameEngine.triggerVibration duration w).
Proof. cbv beta delta [GameEngine.triggerVibration]. frame. Qed.

#[export] Hint Resolve frame_triggerVibration : frame.

Lemma frame_pauseGame (f : Field) (w0 w : World) :
  ~ In f [F_isPaused; F_effects] ->
  same_field f w0 w -> same_field f w0 (GameEngine.pauseGame w).
Proof. cbv beta delta [GameEngine.pauseGame]. frame. Qed.

#[export] Hint Resolve frame_pauseGame : frame.

Lemma frame_resumeGame (f : Field) (w0 w : World) :
  ~ In f [F_isPaused; F_effects] ->
  same_field f w0 w -> same_field f w0 (GameEngine.resumeGame w).
Proof. cbv beta delta [GameEngine.resumeGame]. frame. Qed.

#[export] Hint Resolve frame_resumeGame : frame.

Lemma frame_gameOver (f : Field) (w0 w : World) :
  ~ In f 
    [ F_state; F_effects; F_timers; F_highScore; F_commitStreakHigh;
      F_unlocked; F_commitStreakAchievements ] ->
  same_field f w0 w -> same_field f w0 (GameEngine.gameOver w).
Proof. cbv beta delta [GameEngine.gameOver]. frame. Qed.

#[export] Hint Resolve frame_gameOver : frame.

Lemma frame_handleDamage (f : Field) (w0 w : World) :
  ~ In f 
    [ F_lives; F_combo; F_camera; F_player; F_invincible; F_damageTimeouts;
      F_particles; F_drawn; F_state; F_effects; F_timers; F_highScore;
      F_commitStreakHigh; F_unlocked; F_commitStreakAchievements ] ->
  same_field f w0 w -> same_field f w0 (GameEngine.handleDamage w).
Proof. cbv beta delta [GameEngine.handleDamage]. frame. Qed.

#[export] Hint Resolve frame_handleDamage : frame.

Lemma frame_handleCollectible (f : Field) (w0 w : World) :
  ~ In f 
    [ F_score; F_streak; F_commits; F_combo; F_maxCombo; F_effects; F_timers;
      F_particles; F_drawn ] ->
  same_field f w0 w -> same_field f w0 (GameEngine.handleCollectible w).
Proof. cbv beta delta [GameEngine.handleCollectible]. frame. Qed.

#[export] Hint Resolve frame_handleCollectible : frame.

Lemma frame_showPowerupIndicator (f : Field) (type : PowerupKind) (w0 w : World) :
  ~ In f [F_effects; F_timers] ->
  same_field f w0 w -> same_field f w0 (GameEngine.showPowerupIndicator type w).
Proof. cbv beta delta [GameEngine.showPowerupIndicator]. frame. Qed.

#[export] Hint Resolve frame_showPowerupIndicator : frame.

Lemma frame_handlePowerup (f : Field) (pu : Powerup.t) (w0 w : World) :
  ~ In f [F_activePowerup; F_timers; F_effects; F_particles; F_drawn] ->
  same_field f w0 w -> same_field f w0 (GameEngine.handlePowerup pu w).
Proof. cbv beta delta [GameEngine.handlePowerup]. frame. Qed.

#[export] Hint Resolve frame_handlePowerup : frame.

Lemma frame_checkObstacle (f : Field) (w0 w : World) :
  ~ In f 
    [ F_obstacles; F_lives; F_combo; F_camera; F_player; F_invincible;
      F_damageTimeouts; F_particles; F_drawn; F_state; F_effects; F_timers;
      F_highScore; F_commitStreakHigh; F_unlocked;
      F_commitStreakAchievements ] ->
  same_field f w0 w -> same_field f w0 (GameEngine.checkObstacle w).
Proof. cbv beta delta [GameEngine.checkObstacle]. frame. Qed.

#[export] Hint Resolve frame_checkObstacle : frame.

Lemma frame_checkCollectible (f : Field) (w0 w : World) :
  ~ In f 
    [ F_collectibles; F_score; F_streak; F_commits; F_combo; F_maxCombo;
      F_effects; F_timers; F_particles; F_drawn ] ->
  same_field f w0 w -> same_field f w0 (GameEngine.checkCollectible w).
Proof. cbv beta delta [GameEngine.checkCollectible]. frame. Qed.

#[export] Hint Resolve frame_checkCollectible : frame.

Lemma frame_checkPowerup (f : Field) (w0 w : World) :
  ~ In f 
    [ F_powerups; F_activePowerup; F_timers; F_effects; F_particles; F_drawn ] ->
  same_field f w0 w -> same_field f w0 (GameEngine.checkPowerup w).
Proof. cbv beta delta [GameEngine.checkPowerup]. frame. Qed.

#[export] Hint Resolve frame_checkPowerup : frame.

Lemma frame_checkCollisions (f : Field) (w0 w : World) :
  ~ In f 
    [ F_obstacles; F_lives; F_combo; F_camera; F_player; F_invincible;
      F_damageTimeouts; F_particles; F_drawn; F_state; F_effects; F_timers;
      F_highScore; F_commitStreakHigh; F_unlocked;
      F_commitStreakAchievements; F_collectibles; F_score; F_streak;
      F_commits; F_maxCombo; F_powerups; F_activePowerup ] ->
  same_field f w0 w -> same_field f w0 (GameEngine.checkCollisions w).
Proof. cbv beta delta [GameEngine.checkCollisions]. frame. Qed.

#[export] Hint Resolve frame_checkCollisions : frame.

Lemma frame_advanceFrame (f : Field) (w0 w : World) :
  ~ In f [F_frameCount] ->
  same_field f w0 w -> same_field f w0 (GameEngine.advanceFrame w).
Proof. cbv beta delta [GameEngine.advanceFrame]. frame. Qed.

#[export] Hint Resolve frame_advanceFrame : frame.

Lemma frame_updatePlayer (f : Field) (w0 w : World) :
  ~ In f [F_player] ->
  same_field f w0 w -> same_field f w0 (GameEngine.updatePlayer w).
Proof. cbv beta delta [GameEngine.updatePlayer]. frame. Qed.

#[export] Hint Resolve frame_updatePlayer : frame.

Lemma frame_emitTrail (f : Field) (w0 w : World) :
  ~ In f [F_particles; F_drawn] ->
  same_field f w0 w -> same_field f w0 (GameEngine.emitTrail w).
Proof. cbv beta delta [GameEngine.emitTrail]. frame. Qed.

#[export] Hint Resolve frame_emitTrail : frame.

Lemma frame_updateGameSpeed (f : Field) (w0 w : World) :
  ~ In f [F_gameSpeed] ->
  same_field f w0 w -> same_field f w0 (GameEngine.updateGameSpeed w).
Proof. cbv beta delta [GameEngine.updateGameSpeed]. frame. Qed.

#[export] Hint Resolve frame_updateGameSpeed : frame.

Lemma frame_updateScore (f : Field) (speed : Q) (w0 w : World) :
  ~ In f [F_score] ->
  same_field f w0 w -> same_field f w0 (GameEngine.updateScore speed w).
Proof. cbv beta delta [GameEngine.updateScore]. frame. Qed.

#[export] Hint Resolve frame_updateScore : frame.

Lemma frame_refreshUI (f : Field) (w0 w : World) :
  ~ In f [F_effects] ->
  same_field f w0 w -> same_field f w0 (GameEngine.refreshUI w).
Proof. cbv beta delta [GameEngine.refreshUI]. frame. Qed.

#[export] Hint Resolve frame_refreshUI : frame.

Lemma frame_keydown (f : Field) (key : string) (w0 w : World) :
  ~ In f [F_player; F_effects; F_timers; F_isPaused] ->
  same_field f w0 w -> same_field f w0 (Input.keydown key w).
Proof. cbv beta delta [Input.keydown]. frame. Qed.

#[export] Hint Resolve frame_keydown : frame.

Lemma frame_jumpBtn_touchstart (f : Field) (w0 w : World) :
  ~ In f [F_player; F_effects; F_timers] ->
  same_field f w0 w -> same_field f w0 (Input.jumpBtn_touchstart w).
Proof. cbv beta delta [Input.jumpBtn_touchstart]. frame. Qed.

#[export] Hint Resolve frame_jumpBtn_touchstart : frame.

Lemma frame_slideBtn_touchstart (f : Field) (w0 w : World) :
  ~ In f [F_player; F_effects; F_timers] ->
  same_field f w0 w -> same_field f w0 (Input.slideBtn_touchstart w).
Proof. cbv beta delta [Input.slideBtn_touchstart]. frame. Qed.

#[export] Hint Resolve frame_slideBtn_touchstart : frame.

Lemma frame_handleSwipeGesture (f : Field) (w0 w : World) :
  ~ In f [F_player; F_effects; F_timers] ->
  same_field f w0 w -> same_field f w0 (Input.handleSwipeGesture w).
Proof. cbv beta delta [Input.handleSwipeGesture]. frame. Qed.

#[export] Hint Resolve frame_handleSwipeGesture : frame.

Lemma frame_canvas_touchstart (f : Field) (x y : Q) (w0 w : World) :
  ~ In f [F_touchControls; F_effects] ->
  same_field f w0 w -> same_field f w0 (Input.canvas_touchstart x y w).
Proof. cbv beta delta [Input.canvas_touchstart]. frame. Qed.

#[export] Hint Resolve frame_canvas_touchstart : frame.

Lemma frame_canvas_touchmove (f : Field) (w0 w : World) :
  ~ In f [F_effects] ->
  same_field f w0 w -> same_field f w0 (Input.canvas_touchmove w).
Proof. cbv beta delta [Input.canvas_touchmove]. frame. Qed.

#[export] Hint Resolve frame_canvas_touchmove : frame.

Lemma frame_canvas_touchend (f : Field) (x y : Q) (w0 w : World) :
  ~ In f [F_touchControls; F_player; F_effects; F_timers] ->
  same_field f w0 w -> same_field f w0 (Input.canvas_touchend x y w).
Proof. cbv beta delta [Input.canvas_touchend]. frame. Qed.

#[export] Hint Resolve frame_canvas_touchend : frame.

Lemma frame_deliver (f : Field) (c : Input.Command) (w0 w : World) :
  ~ In f [F_touchControls; F_player; F_effects; F_timers; F_isPaused] ->
  same_field f w0 w -> same_field f w0 (Input.deliver c w).
Proof. cbv beta delta [Input.deliver]. frame. Qed.

#[export] Hint Resolve frame_deliver : frame.

(** ** Collision detection *)

Lemma andb4_true (a b c d : bool) :
  a && b && c && d = true <-> a = true /\ b = true /\ c = true /\ d = true.
Proof. rewrite !andb_true_iff. tauto. Qed.

(** The two inline copies of the test, in the collectible and the power-up
    manager, are [isColliding] applied to the entity's box. *)
Lemma collectible_hits_isColliding (p : Player.t) (col : Collectible.t) :
  CollectibleManager.hits p col =
  ObstacleManager.isColliding (Player.getBounds p)
    (Rect.mk (Collectible.x col) (Collectible.y col)
             (Collectible.width col) (Collectible.height col)).
Proof. reflexivity. Qed.

Lemma powerup_hits_isColliding (p : Player.t) (pu : Powerup.t) :
  PowerupManager.hits p pu =
  ObstacleManager.isColliding (Player.getBounds p)
    (Rect.mk (Powerup.x pu) (Powerup.y pu) (Powerup.width pu) (Powerup.height pu)).
Proof. reflexivity. Qed.

(** C2.  [isColliding(A, B)] is true exactly when the four strict
    inequalities of AABB overlap hold; the boxes 10 by 10 at x = 0 and
    x = 10, which share an edge, do not collide, and the boxes at x = 0 and
    x = 5 do. *)
Theorem isColliding_strict_overlap :
  (forall A B : Rect.t,
     ObstacleManager.isColliding A B = true <->
     Rect.x A < Rect.x B + Rect.width B /\
     Rect.x A + Rect.width A > Rect.x B /\
     Rect.y A < Rect.y B + Rect.height B /\
     Rect.y A + Rect.height A > Rect.y B) /\
  ObstacleManager.isColliding (Rect.mk 0 0 10 10) (Rect.mk 10 0 10 10) = false /\
  ObstacleManager.isColliding (Rect.mk 0 0 10 10) (Rect.mk 5 0 10 10) = true.
Proof.
  split; [| split; reflexivity].
  intros A B. unfold ObstacleManager.isColliding.
  rewrite andb4_true, !Qltb_lt, !Qgtb_gt. tauto.
Qed.

(** ** Obstacle spawning *)

Lemma obstacle_spawn_appends (w : World) :
  exists ty, In ty ObstacleManager.types /\
    obstacles (ObstacleManager.spawn w) = obstacles w ++ [obstacle_of_type ty].
Proof.
  exists (pick (Math_random 0 w) ObstacleManager.types
               (ObstacleType.mk bug 32 32 380 "#f85149")).
  split; [| reflexivity].
  destruct (Math_random_range 0 w) as [Hlo Hhi].
  apply pick_In; auto. discriminate.
Qed.

(** C3.  One call to [ObstacleManager.update(speed, f)] moves and culls the
    list and then appends exactly one obstacle when [f % 120 == 0] and none
    otherwise; the new obstacle sits at x = 900 and takes its y, width,
    height, type and colour from one row of the type table.  The world, and
    with it the random oracle, is arbitrary: the oracle chooses the row and
    has no say in whether an obstacle is spawned. *)
Theorem obstacle_spawn_every_120_frames (speed : Q) (f : Z) (w : World) :
  (exists ty, In ty ObstacleManager.types /\
     obstacles (ObstacleManager.update speed f w) =
     obstacles_after_move speed w ++
     (if (js_rem f 120 =? 0)%Z then [obstacle_of_type ty] else [])) /\
  List.length (obstacles (ObstacleManager.update speed f w)) =
  (List.length (obstacles_after_move speed w) +
   (if (js_rem f 120 =? 0)%Z then 1 else 0))%nat.
Proof.
  unfold ObstacleManager.update, obstacles_after_move.
  set (w' := set_obstacles _ w).
  destruct (js_rem f 120 =? 0)%Z.
  - destruct (obstacle_spawn_appends w') as [ty [Hin Heq]].
    split.
    + exists ty. split; auto.
    + rewrite Heq, !length_app. reflexivity.
  - split.
    + exists (ObstacleType.mk bug 32 32 380 "#f85149"). split; [simpl; auto|].
      rewrite app_nil_r. reflexivity.
    + simpl. lia.
Qed.

(** ** Combo and best combo *)

Lemma handleDamage_combo (w : World) :
  Stats.combo (stats (GameEngine.handleDamage w)) = 0%Z.
Proof.
  unfold GameEngine.handleDamage.
  match goal with
  | |- context [set_stats (Stats.set_combo 0 ?s) ?w1] =>
      set (w2 := set_stats (Stats.set_combo 0 s) w1)
  end.
  match goal with
  | |- Stats.combo (stats ?w') = _ =>
      assert (H : same_field F_combo w2 w') by framed
  end.
  unfold same_field in H. rewrite <- H. reflexivity.
Qed.

Lemma handleCollectible_combo (w : World) :
  Stats.combo (stats (GameEngine.handleCollectible w)) =
  (Stats.combo (stats w) + 1)%Z /\
  Stats.maxCombo (stats (GameEngine.handleCollectible w)) =
  Z.max (Stats.maxCombo (stats w)) (Stats.combo (stats w) + 1).
Proof.
  unfold GameEngine.handleCollectible.
  match goal with
  | |- context [set_stats (Stats.set_maxCombo ?m ?s) ?w4] =>
      set (w5 := set_stats (Stats.set_maxCombo m s) w4)
  end.
  match goal with
  | |- Stats.combo (stats ?w') = _ /\ _ =>
      assert (Hc : same_field F_combo w5 w') by framed;
      assert (Hm : same_field F_maxCombo w5 w') by framed
  end.
  unfold same_field in Hc, Hm. rewrite <- Hc, <- Hm. split; reflexivity.
Qed.

Lemma checkCollectible_maxCombo (w : World) :
  (Stats.maxCombo (stats w) <=
   Stats.maxCombo (stats (GameEngine.checkCollectible w)))%Z.
Proof.
  unfold GameEngine.checkCollectible.
  destruct (CollectibleManager.checkCollision (player w) w) as [c |]; [| lia].
  assert (H : same_field F_maxCombo (GameEngine.handleCollectible w)
                (CollectibleManager.removeCollectible c (GameEngine.handleCollectible w)))
    by framed.
  unfold same_field in H. rewrite <- H.
  rewrite (proj2 (handleCollectible_combo w)). lia.
Qed.

Lemma checkCollisions_maxCombo (w : World) :
  (Stats.maxCombo (stats w) <=
   Stats.maxCombo (stats (GameEngine.checkCollisions w)))%Z.
Proof.
  unfold GameEngine.checkCollisions.
  assert (H1 : same_field F_maxCombo w (GameEngine.checkObstacle w)) by framed.
  set (w1 := GameEngine.checkObstacle w) in *.
  assert (H2 : same_field F_maxCombo (GameEngine.checkCollectible w1)
                 (GameEngine.checkPowerup (GameEngine.checkCollectible w1)))
    by framed.
  pose proof (checkCollectible_maxCombo w1) as H3.
  unfold same_field in H1, H2. lia.
Qed.

Lemma update_maxCombo (w : World) :
  (Stats.maxCombo (stats w) <= Stats.maxCombo (stats (GameEngine.update w)))%Z.
Proof.
  unfold GameEngine.update.
  destruct (negb (GameEngine.is_playing w) || isPaused w); [lia |].
  match goal with
  | |- (_ <= Stats.maxCombo
               (stats (GameEngine.refreshUI
                         (GameEngine.updateScore ?sp (GameEngine.checkCollisions ?pre)))))%Z =>
      assert (H1 : same_field F_maxCombo w pre) by framed;
      pose proof (checkCollisions_maxCombo pre) as H2;
      set (w' := GameEngine.checkCollisions pre) in *;
      assert (H3 : same_field F_maxCombo w'
                     (GameEngine.refreshUI (GameEngine.updateScore sp w'))) by framed
  end.
  unfold same_field in H1, H3. lia.
Qed.

(** C1.  [handleDamage] sets [combo] to 0 and leaves [maxCombo] as it was;
    [handleCollectible] increments [combo] and sets [maxCombo] to the larger
    of its old value and the new [combo]; and no call to [update] lowers
    [maxCombo].  This holds in every state, the playing ones included. *)
Theorem combo_reset_and_maxCombo_monotone (w : World) :
  (Stats.combo (stats (GameEngine.handleDamage w)) = 0%Z /\
   Stats.maxCombo (stats (GameEngine.handleDamage w)) = Stats.maxCombo (stats w)) /\
  (Stats.combo (stats (GameEngine.handleCollectible w)) =
     (Stats.combo (stats w) + 1)%Z /\
   Stats.maxCombo (stats (GameEngine.handleCollectible w)) =
     Z.max (Stats.maxCombo (stats w))
           (Stats.combo (stats (GameEngine.handleCollectible w)))) /\
  (Stats.maxCombo (stats w) <= Stats.maxCombo (stats (GameEngine.update w)))%Z.
Proof.
  split; [| split].
  - split; [apply handleDamage_combo |].
    assert (H : same_field F_maxCombo w (GameEngine.handleDamage w)) by framed.
    unfold same_field in H. congruence.
  - destruct (handleCollectible_combo w) as [Hc Hm]. rewrite Hc. auto.
  - apply update_maxCombo.
Qed.

(** ** Commands *)

Lemma busy_not_running (w : World) : busy w = true -> Input.running w = false.
Proof.
  unfold busy, Input.running.
  destruct (Player.jumping (player w)), (Player.sliding (player w));
    simpl; congruence.
Qed.

Lemma player_of_frame (w w' : World) : same_field F_player w w' -> player w' = player w.
Proof. unfold same_field. congruence. Qed.

Lemma keydown_busy_dropped (key : string) (w : World) :
  busy w = true -> is_move_key key = true -> Input.keydown key w = w.
Proof.
  intros Hbusy Hkey. unfold Input.keydown.
  repeat (rewrite (busy_not_running w Hbusy), andb_false_r; cbv iota).
  assert (Hp : Input.is_pause_key key = false).
  { unfold is_move_key, Input.is_jump_key, Input.is_slide_key in Hkey.
    unfold Input.is_pause_key.
    repeat match goal with
           | |- context [String.eqb key ?s] => destruct (String.eqb_spec key s)
           | H : context [String.eqb key ?s] |- _ => destruct (String.eqb_spec key s)
           end; subst; try discriminate; reflexivity. }
  rewrite Hp. destruct (negb (GameEngine.is_playing w) || isPaused w); reflexivity.
Qed.

Lemma deliver_busy_player (c : Input.Command) (w : World) :
  busy w = true -> player (Input.deliver c w) = player w.
Proof.
  intros Hbusy. pose proof (busy_not_running w Hbusy) as Hrun.
  apply player_of_frame.
  destruct c as [key | | | x y | | x y]; cbn [Input.deliver].
  - unfold Input.keydown.
    repeat (rewrite Hrun, andb_false_r; cbv iota). framed.
  - unfold Input.jumpBtn_touchstart.
    destruct (Input.touch_enabled w); [| framed].
    change (Input.running (emit PreventDefault (emit PreventDefault w)))
      with (Input.running w).
    rewrite Hrun, !andb_false_r. framed.
  - unfold Input.slideBtn_touchstart.
    destruct (Input.touch_enabled w); [| framed].
    change (Input.running (emit PreventDefault (emit PreventDefault w)))
      with (Input.running w).
    rewrite Hrun, !andb_false_r. framed.
  - unfold Input.canvas_touchstart. framed.
  - unfold Input.canvas_touchmove. framed.
  - unfold Input.canvas_touchend, Input.handleSwipeGesture.
    match goal with
    | |- context [Input.running ?w'] => change (Input.running w') with (Input.running w)
    end.
    rewrite Hrun. framed.
Qed.

Lemma jump_key_only (key : string) :
  Input.is_jump_key key = true ->
  Input.is_slide_key key = false /\ Input.is_pause_key key = false.
Proof.
  unfold Input.is_jump_key, Input.is_slide_key, Input.is_pause_key.
  intros H.
  repeat match goal with
         | |- context [String.eqb key ?s] => destruct (String.eqb_spec key s)
         | H : context [String.eqb key ?s] |- _ => destruct (String.eqb_spec key s)
         end; subst; try discriminate; auto.
Qed.

Lemma not_busy_running (w : World) : busy w = false -> Input.running w = true.
Proof.
  unfold busy, Input.running.
  destruct (Player.jumping (player w)), (Player.sliding (player w));
    simpl; congruence.
Qed.

Lemma jump_accepted (c : Input.Command) (w : World) :
  GameEngine.is_playing w = true -> isPaused w = false -> busy w = false ->
  asks_jump c w = true ->
  player (Input.deliver c w) = Player.jump (player w).
Proof.
  intros Hplay Hpause Hbusy Hask.
  pose proof (not_busy_running w Hbusy) as Hrun.
  destruct c as [key | | | x y | | x y]; cbn [Input.deliver asks_jump] in *;
    try discriminate.
  - destruct (jump_key_only key Hask) as [Hs Hp].
    unfold Input.keydown. rewrite Hplay, Hpause, Hask, Hrun, Hs, Hp. cbn [negb orb andb].
    set (w1 := set_player _ _).
    change (Player.jump (player w)) with (player w1).
    apply player_of_frame. framed.
  - unfold Input.jumpBtn_touchstart. rewrite Hask.
    change (Input.running (emit PreventDefault (emit PreventDefault w)))
      with (Input.running w).
    change (GameEngine.is_playing (emit PreventDefault (emit PreventDefault w)))
      with (GameEngine.is_playing w).
    change (isPaused (emit PreventDefault (emit PreventDefault w)))
      with (isPaused w).
    rewrite Hplay, Hpause, Hrun. cbn [negb andb].
    set (w1 := set_player _ _).
    change (Player.jump (player w)) with (player w1).
    apply player_of_frame. framed.
  - apply andb_true_iff in Hask as [Hask Hup].
    apply andb_true_iff in Hask as [Hask Hfar].
    apply andb_true_iff in Hask as [Hen Hvert].
    unfold Input.canvas_touchend. rewrite Hen, Hplay, Hpause. cbn [negb orb].
    unfold Input.handleSwipeGesture. cbn [touchControls set_touchControls
      TouchControls.touchEndX TouchControls.touchEndY TouchControls.touchStartX
      TouchControls.touchStartY TouchControls.minSwipeDistance].
    rewrite Hvert, Hfar, Hup.
    match goal with
    | |- context [Input.running ?w'] => change (Input.running w') with (Input.running w)
    end.
    rewrite Hrun.
    set (w1 := set_player _ _).
    change (Player.jump (player w)) with (player w1).
    apply player_of_frame. framed.
Qed.

(** C4.  While the player is jumping or sliding, no command changes the
    player (position, velocity, flags, slide timer and box), and a jump or
    slide key changes nothing at all, not even the page or the speaker.
    A command changes the player only when neither flag is set.  In a running,
    unpaused game with neither flag set, a command that asks for a jump sets
    [velocityY] to -13 and [jumping] to true. *)
Theorem jump_and_slide_only_when_running (c : Input.Command) (w : World) :
  (busy w = true ->
   player (Input.deliver c w) = player w /\
   forall key, c = Input.KeyDown key -> is_move_key key = true ->
               Input.deliver c w = w) /\
  (player (Input.deliver c w) <> player w ->
   Player.jumping (player w) = false /\ Player.sliding (player w) = false) /\
  (GameEngine.is_playing w = true -> isPaused w = false -> busy w = false ->
   asks_jump c w = true ->
   Player.velocityY (player (Input.deliver c w)) = -13 /\
   Player.jumping (player (Input.deliver c w)) = true).
Proof.
  split; [| split].
  - intros Hbusy. split; [apply deliver_busy_player; assumption |].
    intros key -> Hkey. apply keydown_busy_dropped; assumption.
  - intros Hchanged.
    destruct (busy w) eqn:Hbusy.
    + elim Hchanged. apply deliver_busy_player; assumption.
    + unfold busy in Hbusy. apply orb_false_iff in Hbusy. assumption.
  - intros Hplay Hpause Hbusy Hask.
    rewrite (jump_accepted c w Hplay Hpause Hbusy Hask). split; reflexivity.
Qed.

Lemma jump_and_slide_only_when_running_witness :
  player (Input.deliver (Input.KeyDown "ArrowDown") (airborne Original)) =
  player (airborne Original) /\
  Player.velocityY
    (player (Input.deliver (Input.KeyDown " ") (Sample.started Enhanced))) = -13.
Proof.
  split.
  - apply (jump_and_slide_only_when_running
             (Input.KeyDown "ArrowDown") (airborne Original)).
    reflexivity.
  - apply (jump_and_slide_only_when_running
             (Input.KeyDown " ") (Sample.started Enhanced)); reflexivity.
Defined.

(** ** Achievements *)

Lemma includes_app (ids ids' : list string) (id : string) :
  AchievementManager.includes (ids ++ ids') id =
  AchievementManager.includes ids id || AchievementManager.includes ids' id.
Proof. unfold AchievementManager.includes. apply existsb_app. Qed.

Lemma includes_In (ids : list string) (id : string) :
  AchievementManager.includes ids id = true <-> In id ids.
Proof.
  unfold AchievementManager.includes. rewrite existsb_exists. split.
  - intros [x [Hin Heq]]. apply String.eqb_eq in Heq. subst. assumption.
  - intros Hin. exists id. split; [assumption | apply String.eqb_refl].
Qed.

(** The loop over a catalog without repeated ids: the ids pushed on the way
    do not disturb the test for the later entries. *)
Lemma check_loop (stats : Stats.t) (catalog : list Achievement.t) :
  NoDup (map Achievement.id catalog) ->
  forall unlocked newUnlocked,
    fold_left (AchievementManager.visit stats) catalog (unlocked, newUnlocked) =
    (unlocked ++ map Achievement.id (newly_earned stats unlocked catalog),
     newUnlocked ++ newly_earned stats unlocked catalog).
Proof.
  induction catalog as [| a catalog IH]; intros Hnd unlocked newUnlocked.
  - simpl. rewrite !app_nil_r. reflexivity.
  - simpl in Hnd. inversion Hnd as [| ? ? Hnotin Hnd']; subst.
    cbn [fold_left AchievementManager.visit].
    unfold newly_earned. cbn [filter]. fold (newly_earned stats unlocked catalog).
    destruct (negb (AchievementManager.includes unlocked (Achievement.id a))
              && Achievement.requirement a stats) eqn:Hcond.
    + rewrite IH by assumption.
      assert (Hsame : newly_earned stats (unlocked ++ [Achievement.id a]) catalog =
                      newly_earned stats unlocked catalog).
      { unfold newly_earned. apply filter_ext_in. intros b Hb.
        rewrite includes_app.
        assert (Hne : AchievementManager.includes [Achievement.id a] (Achievement.id b) = false).
        { apply not_true_iff_false. rewrite includes_In. simpl.
          intros [Heq | []]. apply Hnotin. rewrite Heq. apply in_map. assumption. }
        rewrite Hne, orb_false_r. reflexivity. }
      rewrite Hsame. cbn [map]. rewrite <- !app_assoc. reflexivity.
    + apply IH. assumption.
Qed.

Lemma newly_earned_again (stats : Stats.t) (unlocked : list string)
    (catalog : list Achievement.t) :
  newly_earned stats
    (unlocked ++ map Achievement.id (newly_earned stats unlocked catalog)) catalog = [].
Proof.
  unfold newly_earned at 1.
  rewrite <- (filter_false catalog). apply filter_ext_in. intros a Ha.
  rewrite includes_app.
  destruct (AchievementManager.includes unlocked (Achievement.id a)) eqn:Hinc;
    [reflexivity |].
  destruct (Achievement.requirement a stats) eqn:Hreq; [| apply andb_false_r].
  rewrite andb_true_r. cbn [orb]. apply negb_false_iff.
  apply includes_In. apply in_map.
  unfold newly_earned. apply filter_In. split; [assumption |].
  rewrite Hinc, Hreq. reflexivity.
Qed.

Lemma catalog_ids_distinct (rev : Revision) :
  NoDup (map Achievement.id (AchievementManager.achievements rev)).
Proof.
  destruct rev; cbn;
    repeat (constructor; [cbn; intuition discriminate |]); constructor.
Qed.

(** C8.  [checkAchievements(stats)] returns the catalog entries that are not
    unlocked yet and whose requirement holds, and records their ids; called
    again with the same stats on the world it has left, it returns the empty
    list. *)
Theorem checkAchievements_idempotent (stats : Stats.t) (w : World) :
  let first := AchievementManager.checkAchievements stats w in
  fst first =
    newly_earned stats (unlocked w) (AchievementManager.achievements (revision w)) /\
  unlocked (snd first) = unlocked w ++ map Achievement.id (fst first) /\
  fst (AchievementManager.checkAchievements stats (snd first)) = [].
Proof.
  cbv zeta.
  assert (Hrev : revision (snd (AchievementManager.checkAchievements stats w)) = revision w).
  { assert (H : same_field F_revision w (snd (AchievementManager.checkAchievements stats w)))
      by framed.
    unfold same_field in H. congruence. }
  assert (Hfst : forall w',
             fst (AchievementManager.checkAchievements stats w') =
             newly_earned stats (unlocked w') (AchievementManager.achievements (revision w'))).
  { intros w'. unfold AchievementManager.checkAchievements, AchievementManager.check.
    rewrite check_loop by apply catalog_ids_distinct. reflexivity. }
  assert (Hunl : unlocked (snd (AchievementManager.checkAchievements stats w)) =
                 unlocked w ++ map Achievement.id
                   (newly_earned stats (unlocked w)
                      (AchievementManager.achievements (revision w)))).
  { unfold AchievementManager.checkAchievements, AchievementManager.check.
    rewrite check_loop by apply catalog_ids_distinct.
    cbn [fst snd app]. 
    destruct (0 <? _)%Z; reflexivity. }
  split; [apply Hfst |]. split; [rewrite Hfst; apply Hunl |].
  rewrite Hfst, Hrev, Hunl. apply newly_earned_again.
Qed.

(** ** The update step *)

Lemma update_playing (w : World) :
  GameEngine.is_playing w = true -> isPaused w = false ->
  GameEngine.update w =
  let w5 := before_managers w in
  let speed := GameEngine.currentSpeed w5 in
  GameEngine.refreshUI
    (GameEngine.updateScore speed
       (GameEngine.checkCollisions
          (ParticleSystem.update
             (managers speed (frameCount w + 1)%Z w5)))).
Proof.
  intros Hplay Hpause. unfold GameEngine.update. rewrite Hplay, Hpause.
  cbn [negb orb]. cbv zeta. unfold managers, before_managers.
  set (w5 := GameEngine.updateGameSpeed _).
  assert (Hf : frameCount w5 = (frameCount w + 1)%Z).
  { assert (H : same_field F_frameCount (GameEngine.advanceFrame w) w5)
      by (subst w5; framed).
    unfold same_field in H. rewrite <- H. reflexivity. }
  assert (Hf1 : forall speed f w',
             frameCount (ObstacleManager.update speed f w') = frameCount w').
  { intros speed f w'.
    assert (H : same_field F_frameCount w' (ObstacleManager.update speed f w')) by framed.
    unfold same_field in H. congruence. }
  assert (Hf2 : forall speed f w',
             frameCount (CollectibleManager.update speed f w') = frameCount w').
  { intros speed f w'.
    assert (H : same_field F_frameCount w' (CollectibleManager.update speed f w')) by framed.
    unfold same_field in H. congruence. }
  rewrite Hf2, !Hf1, Hf. reflexivity.
Qed.

(** ** Collisions while invincible *)

Lemma checkCollisions_after_obstacle (f : Field) (w : World) :
  ~ In f [ F_collectibles; F_powerups; F_activePowerup; F_score; F_streak;
           F_commits; F_combo; F_maxCombo; F_effects; F_timers; F_particles;
           F_drawn ] ->
  same_field f (GameEngine.checkObstacle w) (GameEngine.checkCollisions w).
Proof. intros Hn. unfold GameEngine.checkCollisions. frame. Qed.

(** C9.  When the player overlaps an obstacle and is invincible, the obstacle
    block of the collision pass changes nothing, and after the whole pass the
    lives, the obstacle list and the player are as before, so that the same
    obstacle is found again; if the pass does change the obstacle list, the
    player was not invincible. *)
Theorem invincible_contact_keeps_obstacle (w : World) :
  (forall obstacleHit,
     Player.invincible (player w) = true ->
     ObstacleManager.checkCollision (player w) w = Some obstacleHit ->
     GameEngine.checkObstacle w = w /\
     Stats.lives (stats (GameEngine.checkCollisions w)) = Stats.lives (stats w) /\
     obstacles (GameEngine.checkCollisions w) = obstacles w /\
     ObstacleManager.checkCollision
       (player (GameEngine.checkCollisions w)) (GameEngine.checkCollisions w) =
     Some obstacleHit) /\
  (obstacles (GameEngine.checkCollisions w) <> obstacles w ->
   Player.invincible (player w) = false).
Proof.
  assert (Hinv : Player.invincible (player w) = true -> GameEngine.checkObstacle w = w).
  { intros H. unfold GameEngine.checkObstacle. rewrite H. cbn [negb].
    destruct (ObstacleManager.checkCollision (player w) w); reflexivity. }
  assert (Hl : Stats.lives (stats (GameEngine.checkCollisions w)) =
               Stats.lives (stats (GameEngine.checkObstacle w))).
  { pose proof (checkCollisions_after_obstacle F_lives w) as H.
    unfold same_field in H. symmetry. apply H. notin. }
  assert (Ho : obstacles (GameEngine.checkCollisions w) =
               obstacles (GameEngine.checkObstacle w)).
  { pose proof (checkCollisions_after_obstacle F_obstacles w) as H.
    unfold same_field in H. symmetry. apply H. notin. }
  assert (Hp : player (GameEngine.checkCollisions w) =
               player (GameEngine.checkObstacle w)).
  { pose proof (checkCollisions_after_obstacle F_player w) as H.
    unfold same_field in H. symmetry. apply H. notin. }
  split.
  - intros obstacleHit Hi Hhit. specialize (Hinv Hi).
    rewrite Hinv in Hl, Ho, Hp.
    repeat split; try assumption.
    unfold ObstacleManager.checkCollision in *. rewrite Hp, Ho. assumption.
  - intros Hchanged. destruct (Player.invincible (player w)); [| reflexivity].
    elim Hchanged. rewrite Ho, Hinv; reflexivity.
Qed.

Lemma invincible_contact_keeps_obstacle_witness :
  GameEngine.checkObstacle (shielded Enhanced) = shielded Enhanced /\
  obstacles (GameEngine.checkCollisions (shielded Original)) =
  obstacles (shielded Original).
Proof.
  split.
  - apply (invincible_contact_keeps_obstacle (shielded Enhanced))
      with (obstacleHit := Obstacle.mk 100 380 32 32 bug "#f85149");
      reflexivity.
  - apply (invincible_contact_keeps_obstacle (shielded Original))
      with (obstacleHit := Obstacle.mk 100 380 32 32 bug "#f85149");
      reflexivity.
Defined.

(** Without invincibility the same contact costs a life, resets the combo
    and removes the obstacle. *)
Example vulnerable_contact_removes_obstacle :
  let w := GameEngine.checkCollisions (on_a_bug Original) in
  Stats.lives (stats w) = 2%Z /\ obstacles w = [] /\
  Player.invincible (player w) = true.
Proof. vm_compute. auto. Qed.

(** ** Particles *)

Lemma for_loop_ind_idx {S : Type} (P : nat -> S -> Prop) (body : nat -> S -> S)
    (count : nat) (s : S) :
  P 0%nat s ->
  (forall i s, (i < count)%nat -> P i s -> P (Datatypes.S i) (body i s)) ->
  P count (for_loop count body s).
Proof.
  unfold for_loop. intros H0 Hstep.
  assert (Hgen : forall len start s,
             (start + len <= count)%nat -> P start s ->
             P (start + len)%nat
               (fold_left (fun acc i => body i acc) (seq start len) s)).
  { induction len as [| len IH]; intros start s' Hle Hs; simpl.
    - rewrite Nat.add_0_r. assumption.
    - replace (start + Datatypes.S len)%nat with (Datatypes.S start + len)%nat by lia.
      apply IH; [lia |]. apply Hstep; [lia | assumption]. }
  apply (Hgen count 0%nat s); [lia | assumption].
Qed.

Lemma particles_update (w : World) :
  particles (ParticleSystem.update w) = particles_step (revision w) (particles w) /\
  revision (ParticleSystem.update w) = revision w.
Proof. split; reflexivity. Qed.

Lemma particles_updates (n : nat) (w : World) :
  particles (Nat.iter n ParticleSystem.update w) =
    Nat.iter n (particles_step (revision w)) (particles w) /\
  revision (Nat.iter n ParticleSystem.update w) = revision w.
Proof.
  induction n as [| n [IHp IHr]]; [split; reflexivity |].
  cbn [Nat.iter nat_rect]. 
  destruct (particles_update (Nat.iter n ParticleSystem.update w)) as [Hp Hr].
  unfold Nat.iter in *. rewrite Hp, Hr, IHp, IHr. split; reflexivity.
Qed.

Lemma particles_step_app (rev : Revision) (l1 l2 : list Particle.t) :
  particles_step rev (l1 ++ l2) = particles_step rev l1 ++ particles_step rev l2.
Proof. unfold particles_step. rewrite map_app, filter_app. reflexivity. Qed.

Lemma particles_steps_app (rev : Revision) (n : nat) (l1 l2 : list Particle.t) :
  Nat.iter n (particles_step rev) (l1 ++ l2) =
  Nat.iter n (particles_step rev) l1 ++ Nat.iter n (particles_step rev) l2.
Proof.
  induction n as [| n IH]; [reflexivity |].
  cbn [Nat.iter nat_rect]. unfold Nat.iter in IH. rewrite IH.
  apply particles_step_app.
Qed.

Lemma particles_steps_length (rev : Revision) (n : nat) (l : list Particle.t) :
  (List.length (Nat.iter n (particles_step rev) l) <= List.length l)%nat.
Proof.
  induction n as [| n IH]; [reflexivity |].
  cbn [Nat.iter nat_rect]. unfold Nat.iter in IH. unfold particles_step at 1.
  eapply Nat.le_trans; [apply filter_length_le |]. rewrite length_map. assumption.
Qed.

(** What survives an update has life left, one unit less than before. *)
Lemma particles_step_life (rev : Revision) (l : list Particle.t) (k : Z) :
  (forall p, In p l -> (Particle.life p <= k)%Z) ->
  forall p, In p (particles_step rev l) ->
            (0 < Particle.life p <= k - 1)%Z.
Proof.
  intros Hl p Hp. unfold particles_step in Hp.
  apply filter_In in Hp as [Hin Hkept].
  apply in_map_iff in Hin as [q [Hq Hqin]]. specialize (Hl q Hqin).
  assert (Hlife : Particle.life p = (Particle.life q - 1)%Z)
    by (subst p; destruct rev; reflexivity).
  assert (Hpos : (0 <? Particle.life p)%Z = true).
  { destruct rev; cbn [ParticleSystem.kept] in Hkept;
      [assumption | apply andb_true_iff in Hkept; tauto]. }
  apply Z.ltb_lt in Hpos. lia.
Qed.

Lemma particles_steps_life (rev : Revision) (n : nat) (l : list Particle.t) (k : Z) :
  (forall p, In p l -> (Particle.life p <= k)%Z) ->
  forall p, In p (Nat.iter (Datatypes.S n) (particles_step rev) l) ->
            (0 < Particle.life p <= k - Z.of_nat (Datatypes.S n))%Z.
Proof.
  intros Hl. induction n as [| n IH]; intros p Hp.
  - cbn [Nat.iter nat_rect] in Hp.
    pose proof (particles_step_life rev l k Hl p Hp). lia.
  - change (Nat.iter (Datatypes.S (Datatypes.S n)) (particles_step rev) l)
      with (particles_step rev (Nat.iter (Datatypes.S n) (particles_step rev) l)) in Hp.
    pose proof (particles_step_life rev _ (k - Z.of_nat (Datatypes.S n))%Z
                  (fun q Hq => proj2 (IH q Hq)) p Hp).
    lia.
Qed.

(** Particles with at most [n] units of life are gone after [n] updates. *)
Lemma particles_expire (rev : Revision) (n : nat) (l : list Particle.t) :
  (forall p, In p l -> (Particle.life p <= Z.of_nat (Datatypes.S n))%Z) ->
  Nat.iter (Datatypes.S n) (particles_step rev) l = [].
Proof.
  intros Hl.
  destruct (Nat.iter (Datatypes.S n) (particles_step rev) l) as [| p rest] eqn:Heq;
    [reflexivity |].
  pose proof (particles_steps_life rev n l _ Hl p) as H.
  rewrite Heq in H. specialize (H (or_introl eq_refl)). lia.
Qed.

(** [createBurst] appends [count] particles of life 30 and touches nothing
    else of the list. *)
Lemma createBurst_appends (x y : Q) (color : string) (count : nat) (w : World) :
  exists burst,
    particles (ParticleSystem.createBurst x y color count w) = particles w ++ burst /\
    List.length burst = count /\
    (forall p, In p burst -> Particle.life p = 30%Z) /\
    revision (ParticleSystem.createBurst x y color count w) = revision w.
Proof.
  unfold ParticleSystem.createBurst.
  apply (for_loop_ind_idx
           (fun i w' => exists burst,
                particles w' = particles w ++ burst /\
                List.length burst = i /\
                (forall p, In p burst -> Particle.life p = 30%Z) /\
                revision w' = revision w)).
  - exists []. rewrite app_nil_r. repeat split; auto. intros p [].
  - intros i w' _ [burst [Hp [Hlen [Hlife Hrev]]]].
    destruct (revision w') eqn:Hr;
      match goal with
      | |- exists _, particles (ParticleSystem.push ?p _) = _ /\ _ =>
          exists (burst ++ [p])
      end;
      cbn [ParticleSystem.push particles set_particles consume set_drawn revision];
      rewrite Hp, <- app_assoc, length_app, Hlen; cbn [List.length];
      (repeat split; [lia | | congruence]);
      intros q Hq; apply in_app_iff in Hq as [Hq | [Hq | []]];
      [apply Hlife; assumption | subst q; reflexivity
      | apply Hlife; assumption | subst q; reflexivity].
Qed.

(** C7, as amended.  [createBurst(x, y, color, 8)] makes the list exactly 8
    longer.  After 30 further calls to [update()] with no emission, every
    particle of the burst is gone: the list is what 30 updates leave of the
    list before the burst.  Its length is therefore at most the length before
    the burst, and equal to it exactly when no earlier particle has been
    removed in the meantime. *)
Theorem burst_adds_eight_and_expires (x y : Q) (color : string) (w : World) :
  List.length (particles (ParticleSystem.createBurst x y color 8 w)) =
    (List.length (particles w) + 8)%nat /\
  particles (Nat.iter 30 ParticleSystem.update
               (ParticleSystem.createBurst x y color 8 w)) =
    particles (Nat.iter 30 ParticleSystem.update w) /\
  (List.length (particles (Nat.iter 30 ParticleSystem.update
                             (ParticleSystem.createBurst x y color 8 w))) <=
   List.length (particles w))%nat.
Proof.
  destruct (createBurst_appends x y color 8 w) as [burst [Hp [Hlen [Hlife Hrev]]]].
  assert (Hafter : particles (Nat.iter 30 ParticleSystem.update
                                (ParticleSystem.createBurst x y color 8 w)) =
                   particles (Nat.iter 30 ParticleSystem.update w)).
  { rewrite (proj1 (particles_updates 30 _)), (proj1 (particles_updates 30 w)).
    rewrite Hrev, Hp, particles_steps_app.
    rewrite (particles_expire (revision w) 29 burst), app_nil_r; [reflexivity |].
    intros p Hin. rewrite (Hlife p Hin). discriminate. }
  split; [rewrite Hp, length_app, Hlen; reflexivity |].
  split; [assumption |].
  rewrite Hafter, (proj1 (particles_updates 30 w)).
  apply particles_steps_length.
Qed.

(** C7 as stated fails: ten updates after a first burst the list holds its
    8 particles; a second burst makes it 16 long, and 30 updates later it is
    empty, not back at 8.  This is so in both revisions. *)
Lemma burst_length_not_restored :
  List.length (particles (ten_after_burst Original)) = 8%nat /\
  List.length
    (particles (Nat.iter 30 ParticleSystem.update
                  (ParticleSystem.createBurst 116 396 "#39d353" 8
                     (ten_after_burst Original)))) <>
  List.length (particles (ten_after_burst Original)) /\
  List.length
    (particles (Nat.iter 30 ParticleSystem.update
                  (ParticleSystem.createBurst 116 396 "#39d353" 8
                     (ten_after_burst Enhanced)))) <>
  List.length (particles (ten_after_burst Enhanced)).
Proof. lazy. repeat split; discriminate. Qed.

(** ** Score and speed *)

Lemma checkCollisions_none (w : World) :
  ObstacleManager.checkCollision (player w) w = None ->
  CollectibleManager.checkCollision (player w) w = None ->
  PowerupManager.checkCollision (player w) w = None ->
  GameEngine.checkCollisions w = w.
Proof.
  intros Ho Hc Hp. unfold GameEngine.checkCollisions.
  assert (H1 : GameEngine.checkObstacle w = w)
    by (unfold GameEngine.checkObstacle; rewrite Ho; reflexivity).
  rewrite H1.
  assert (H2 : GameEngine.checkCollectible w = w)
    by (unfold GameEngine.checkCollectible; rewrite Hc; reflexivity).
  rewrite H2. unfold GameEngine.checkPowerup. rewrite Hp. reflexivity.
Qed.

Lemma is_none_true {A : Type} (o : option A) : is_none o = true -> o = None.
Proof. destruct o; [discriminate | reflexivity]. Qed.

(** A frame without collisions is the pipeline without the collision pass. *)
Lemma update_collision_free (w : World) :
  GameEngine.is_playing w = true -> isPaused w = false ->
  collision_free w = true ->
  GameEngine.update w =
  GameEngine.refreshUI
    (GameEngine.updateScore (GameEngine.currentSpeed (before_managers w))
       (before_collisions w)).
Proof.
  intros Hplay Hpause Hfree. rewrite (update_playing w Hplay Hpause). cbv zeta.
  unfold collision_free in Hfree. cbv zeta in Hfree.
  apply andb_true_iff in Hfree as [Hfree Hp].
  apply andb_true_iff in Hfree as [Ho Hc].
  fold (before_collisions w).
  rewrite (checkCollisions_none (before_collisions w));
    auto using is_none_true.
Qed.

Lemma before_managers_frame (f : Field) (w : World) :
  ~ In f [ F_frameCount; F_player; F_invincible; F_particles; F_drawn;
           F_speedMultiplier; F_gameSpeed ] ->
  same_field f w (before_managers w).
Proof. intros Hn. unfold before_managers. frame. Qed.

Lemma before_collisions_frame (f : Field) (w : World) :
  ~ In f [F_obstacles; F_collectibles; F_powerups; F_particles; F_drawn] ->
  same_field f (before_managers w) (before_collisions w).
Proof. intros Hn. unfold before_collisions, managers. frame. Qed.

Lemma quiet_update_frame (f : Field) (w : World) :
  GameEngine.is_playing w = true -> isPaused w = false ->
  collision_free w = true ->
  ~ In f [ F_frameCount; F_player; F_invincible; F_particles; F_drawn;
           F_speedMultiplier; F_gameSpeed; F_obstacles; F_collectibles;
           F_powerups; F_score; F_effects ] ->
  same_field f w (GameEngine.update w).
Proof.
  intros Hplay Hpause Hfree Hn. rewrite (update_collision_free w Hplay Hpause Hfree).
  apply same_field_trans with (before_managers w);
    [apply before_managers_frame; notin |].
  apply same_field_trans with (before_collisions w);
    [apply before_collisions_frame; notin |].
  generalize (GameEngine.currentSpeed (before_managers w)) (before_collisions w).
  clear Hplay Hpause Hfree. frame.
Qed.

(** The speed and the multiplier with which a frame computes its
    [currentSpeed], when slow motion is off and the speed is at its cap. *)
Lemma before_managers_speed (w : World) :
  slowmo_active w = false -> Stats.gameSpeed (stats w) == 12 ->
  Stats.speedMultiplier (stats (before_managers w)) = 1 /\
  Stats.gameSpeed (stats (before_managers w)) == 12.
Proof.
  intros Hslow Hspeed. unfold before_managers.
  set (w3 := GameEngine.emitTrail _).
  assert (Ha : activePowerup w3 = activePowerup w).
  { assert (H : same_field F_activePowerup w w3) by (subst w3; framed).
    unfold same_field in H. congruence. }
  assert (Hg : Stats.gameSpeed (stats w3) = Stats.gameSpeed (stats w)).
  { assert (H : same_field F_gameSpeed w w3) by (subst w3; framed).
    unfold same_field in H. congruence. }
  clearbody w3.
  assert (Hm4 : Stats.speedMultiplier (stats (PowerupManager.updateEffects w3)) = 1).
  { unfold PowerupManager.updateEffects, slowmo_active in *. rewrite <- Ha in Hslow.
    destruct (activePowerup w3) as [[| |] |] eqn:E; try discriminate;
      cbn [activePowerup set_player]; rewrite ?E; reflexivity. }
  assert (Hg4 : Stats.gameSpeed (stats (PowerupManager.updateEffects w3)) =
                Stats.gameSpeed (stats w3)).
  { unfold PowerupManager.updateEffects.
    destruct (activePowerup w3) as [[| |] |] eqn:E;
      cbn [activePowerup set_player]; rewrite ?E; reflexivity. }
  set (w4 := PowerupManager.updateEffects w3) in *. clearbody w4.
  unfold GameEngine.updateGameSpeed.
  destruct (js_rem (frameCount w4) 500 =? 0)%Z.
  - cbn [stats set_stats Stats.speedMultiplier Stats.gameSpeed Stats.set_gameSpeed].
    split; [assumption |].
    rewrite Hg4, Hg, Hspeed. reflexivity.
  - split; [assumption |]. rewrite Hg4, Hg. assumption.
Qed.

(** One collision-free frame at the cap, without slow motion. *)
Lemma quiet_frame_at_cap (w : World) :
  GameEngine.is_playing w = true -> isPaused w = false ->
  slowmo_active w = false -> Stats.gameSpeed (stats w) == 12 ->
  collision_free w = true ->
  let w' := GameEngine.gameLoop w in
  GameEngine.is_playing w' = true /\ isPaused w' = false /\
  slowmo_active w' = false /\ Stats.gameSpeed (stats w') == 12 /\
  Stats.score (stats w') = (Stats.score (stats w) + 1)%Z.
Proof.
  intros Hplay Hpause Hslow Hspeed Hfree. cbv zeta. unfold GameEngine.gameLoop.
  pose proof (quiet_update_frame F_state w Hplay Hpause Hfree) as Hs.
  pose proof (quiet_update_frame F_isPaused w Hplay Hpause Hfree) as Hp.
  pose proof (quiet_update_frame F_activePowerup w Hplay Hpause Hfree) as Ha.
  unfold same_field in Hs, Hp, Ha.
  destruct (before_managers_speed w Hslow Hspeed) as [Hm5 Hg5].
  assert (Hsc : Stats.score (stats (before_collisions w)) = Stats.score (stats w)).
  { pose proof (before_managers_frame F_score w) as H1.
    pose proof (before_collisions_frame F_score w) as H2.
    unfold same_field in H1, H2. rewrite <- H2, <- H1 by notin. reflexivity. }
  assert (Hgs : Stats.gameSpeed (stats (before_collisions w)) =
                Stats.gameSpeed (stats (before_managers w))).
  { pose proof (before_collisions_frame F_gameSpeed w) as H2.
    unfold same_field in H2. rewrite <- H2 by notin. reflexivity. }
  unfold GameEngine.is_playing, slowmo_active in *.
  rewrite <- Hs, <- Hp, <- Ha by notin.
  repeat (split; [assumption |]).
  rewrite (update_collision_free w) by assumption.
  set (speed := GameEngine.currentSpeed (before_managers w)).
  set (pre := before_collisions w) in *.
  assert (Hst : stats (GameEngine.refreshUI (GameEngine.updateScore speed pre)) =
                Stats.set_score (Stats.score (stats pre) + Math_floor (speed / 10))
                  (stats pre)).
  { unfold GameEngine.refreshUI, GameEngine.updateUI, emit, GameEngine.updateScore.
    destruct (js_rem _ 30 =? 0)%Z; reflexivity. }
  rewrite Hst. cbn [Stats.gameSpeed Stats.score Stats.set_score].
  split.
  - rewrite Hgs. exact Hg5.
  - rewrite Hsc. f_equal.
    unfold speed, GameEngine.currentSpeed, Math_floor. rewrite Hm5.
    transitivity (Qfloor (12 * 1 / 10)); [| reflexivity].
    apply Qfloor_comp. rewrite Hg5. reflexivity.
Qed.

Lemma frames_succ (n : nat) (w : World) :
  Session.frames (S n) w = GameEngine.gameLoop (Session.frames n w).
Proof. reflexivity. Qed.

Lemma frames_shift (n : nat) (w : World) :
  Session.frames (S n) w = Session.frames n (GameEngine.gameLoop w).
Proof.
  induction n as [| n IH]; [reflexivity |].
  rewrite frames_succ, IH. reflexivity.
Qed.

Lemma collision_free_run_frames (n : nat) (w : World) :
  collision_free_run n w = true ->
  forall i, (i < n)%nat -> collision_free (Session.frames i w) = true.
Proof.
  revert w. induction n as [| n IH]; intros w Hrun i Hi; [lia |].
  cbn [collision_free_run] in Hrun. apply andb_true_iff in Hrun as [H0 Hrest].
  destruct i as [| i]; [exact H0 |].
  rewrite frames_shift. apply IH; [assumption | lia].
Qed.

Lemma quiet_frames_at_cap (n : nat) (w : World) :
  GameEngine.is_playing w = true -> isPaused w = false ->
  slowmo_active w = false -> Stats.gameSpeed (stats w) == 12 ->
  (forall i, (i < n)%nat -> collision_free (Session.frames i w) = true) ->
  let w' := Session.frames n w in
  GameEngine.is_playing w' = true /\ isPaused w' = false /\
  slowmo_active w' = false /\ Stats.gameSpeed (stats w') == 12 /\
  Stats.score (stats w') = (Stats.score (stats w) + Z.of_nat n)%Z.
Proof.
  intros Hplay Hpause Hslow Hspeed. cbv zeta.
  induction n as [| n IH]; intros Hfree.
  - cbn [Session.frames Nat.iter nat_rect Z.of_nat]. rewrite Z.add_0_r. auto.
  - destruct IH as [Hp' [Hu' [Hs' [Hg' Hsc']]]]; [intros i Hi; apply Hfree; lia |].
    rewrite frames_succ.
    destruct (quiet_frame_at_cap (Session.frames n w) Hp' Hu' Hs' Hg')
      as [Hp'' [Hu'' [Hs'' [Hg'' Hsc'']]]]; [apply Hfree; lia |].
    repeat (split; [assumption |]). rewrite Hsc'', Hsc'. lia.
Qed.

(** C5, as amended.  From a playing, unpaused state with [gameSpeed] 12 and
    [speedMultiplier] 1 in which the slow-motion power-up is not active, 500
    consecutive frames without any collision add exactly 500 to the score and
    leave [gameSpeed] at 12. *)
Theorem five_hundred_frames_at_cap (w : World) :
  GameEngine.is_playing w = true -> isPaused w = false ->
  Stats.gameSpeed (stats w) == 12 -> Stats.speedMultiplier (stats w) == 1 ->
  slowmo_active w = false ->
  (forall i, (i < 500)%nat -> collision_free (Session.frames i w) = true) ->
  Stats.score (stats (Session.frames 500 w)) = (Stats.score (stats w) + 500)%Z /\
  Stats.gameSpeed (stats (Session.frames 500 w)) == 12.
Proof.
  intros Hplay Hpause Hspeed _ Hslow Hfree.
  destruct (quiet_frames_at_cap 500 w Hplay Hpause Hslow Hspeed Hfree)
    as [_ [_ [_ [Hg Hsc]]]].
  split; assumption.
Qed.

Lemma five_hundred_frames_at_cap_witness :
  Stats.score (stats (Session.frames 500 (top_speed Original))) = 500%Z /\
  Stats.gameSpeed (stats (Session.frames 500 (top_speed Original))) == 12.
Proof.
  apply (five_hundred_frames_at_cap (top_speed Original)); try reflexivity.
  apply collision_free_run_frames. vm_compute. reflexivity.
Defined.

(** C5 as stated fails when slow motion is active: the frame in which the
    power-up is picked up still ends with [speedMultiplier] 1, and from there
    500 collision-free frames at [gameSpeed] 12 add nothing to the score,
    since every one of them runs at speed 6 and [floor(6 / 10)] is 0. *)
Lemma slow_motion_score_stalls :
  let w := slowed Original in
  GameEngine.is_playing w = true /\ isPaused w = false /\
  Stats.gameSpeed (stats w) == 12 /\ Stats.speedMultiplier (stats w) == 1 /\
  collision_free_run 500 w = true /\
  Stats.score (stats (Session.frames 500 w)) = Stats.score (stats w) /\
  Stats.score (stats (Session.frames 500 w)) <> (Stats.score (stats w) + 500)%Z.
Proof. vm_compute. repeat split; try reflexivity; discriminate. Qed.

(** ** Invincibility *)

Lemma updateEffects_invincible (w : World) :
  (activePowerup w = Some invincibility ->
   Player.invincible (player (PowerupManager.updateEffects w)) = true) /\
  (Player.invincible (player w) = true ->
   Player.invincible (player (PowerupManager.updateEffects w)) = true).
Proof.
  unfold PowerupManager.updateEffects.
  split; intros H; destruct (activePowerup w) as [[| |] |] eqn:E;
    try discriminate; cbn [activePowerup set_player]; rewrite ?E;
    cbn [player set_stats set_player Player.set_invincible Player.invincible];
    auto.
Qed.

Lemma before_managers_invincible (w : World) :
  Player.invincible (player w) = true \/ activePowerup w = Some invincibility ->
  Player.invincible (player (before_managers w)) = true.
Proof.
  intros H. unfold before_managers.
  set (w3 := GameEngine.emitTrail _).
  assert (Hi : same_field F_invincible w w3) by (subst w3; framed).
  assert (Ha : same_field F_activePowerup w w3) by (subst w3; framed).
  unfold same_field in Hi, Ha. clearbody w3.
  assert (H4 : Player.invincible (player (PowerupManager.updateEffects w3)) = true).
  { destruct (updateEffects_invincible w3) as [H1 H2].
    destruct H as [H | H]; [apply H2 | apply H1]; congruence. }
  assert (H5 : same_field F_invincible (PowerupManager.updateEffects w3)
                 (GameEngine.updateGameSpeed (PowerupManager.updateEffects w3)))
    by framed.
  unfold same_field in H5. congruence.
Qed.

Lemma checkObstacle_invincible (w : World) :
  Player.invincible (player w) = true -> GameEngine.checkObstacle w = w.
Proof.
  intros H. unfold GameEngine.checkObstacle. rewrite H. cbn [negb].
  destruct (ObstacleManager.checkCollision (player w) w); reflexivity.
Qed.

(** A frame that starts with the flag set, or with the power-up active,
    ends with the flag set and adds no damage timeout. *)
Lemma update_shield (w : World) :
  GameEngine.is_playing w = true -> isPaused w = false ->
  Player.invincible (player w) = true \/ activePowerup w = Some invincibility ->
  Player.invincible (player (GameEngine.update w)) = true /\
  damage_timeouts (GameEngine.update w) = damage_timeouts w.
Proof.
  intros Hplay Hpause H.
  rewrite (update_playing w Hplay Hpause). cbv zeta.
  fold (before_collisions w).
  pose proof (before_managers_invincible w H) as H5.
  assert (Hpre : Player.invincible (player (before_collisions w)) = true).
  { pose proof (before_collisions_frame F_invincible w) as Hf.
    unfold same_field in Hf. rewrite <- Hf by notin. assumption. }
  assert (Hdt : damage_timeouts (before_collisions w) = damage_timeouts w).
  { pose proof (before_managers_frame F_damageTimeouts w) as H1.
    pose proof (before_collisions_frame F_damageTimeouts w) as H2.
    unfold same_field in H1, H2. rewrite <- H2, <- H1 by notin. reflexivity. }
  set (pre := before_collisions w) in *. clearbody pre.
  pose proof (checkCollisions_after_obstacle F_invincible pre) as Hi.
  pose proof (checkCollisions_after_obstacle F_damageTimeouts pre) as Hd.
  rewrite (checkObstacle_invincible pre Hpre) in Hi, Hd.
  unfold same_field in Hi, Hd.
  set (post := GameEngine.checkCollisions pre) in *. clearbody post.
  generalize (GameEngine.currentSpeed (before_managers w)). intros speed.
  assert (Hi' : same_field F_invincible post
                  (GameEngine.refreshUI (GameEngine.updateScore speed post)))
    by framed.
  assert (Hd' : same_field F_damageTimeouts post
                  (GameEngine.refreshUI (GameEngine.updateScore speed post)))
    by framed.
  unfold same_field in Hi', Hd'.
  rewrite <- Hi', <- Hd', <- Hi, <- Hd by notin. auto.
Qed.

Lemma gameLoop_stuck (w : World) : shield_stuck w -> shield_stuck (GameEngine.gameLoop w).
Proof.
  intros [Hi Hd]. unfold GameEngine.gameLoop.
  destruct (GameEngine.is_playing w) eqn:Hplay;
    [destruct (isPaused w) eqn:Hpause |].
  - unfold GameEngine.update. rewrite Hplay, Hpause. split; assumption.
  - destruct (update_shield w Hplay Hpause (or_introl Hi)) as [Hi' Hd'].
    split; congruence.
  - unfold GameEngine.update. rewrite Hplay. split; assumption.
Qed.

Lemma earliest_In (pending : list (Z * Callback)) (t : Z * Callback) :
  Session.earliest pending = Some t -> In t pending.
Proof.
  revert t. induction pending as [| a rest IH]; intros t H; [discriminate |].
  cbn [Session.earliest] in H.
  destruct (Session.earliest rest) as [t' |].
  - destruct (fst t' <? fst a)%Z; inversion H; subst;
      [right; apply IH; reflexivity | left; reflexivity].
  - inversion H; subst. left. reflexivity.
Qed.

Lemma drop_earliest_incl (pending : list (Z * Callback)) :
  incl (Session.drop_earliest pending) pending.
Proof.
  induction pending as [| a rest IH]; [apply incl_refl |].
  cbn [Session.drop_earliest].
  destruct (Session.earliest rest) as [t' |]; [destruct (fst t' <? fst a)%Z |].
  - apply incl_cons; [left; reflexivity | apply incl_tl; assumption].
  - apply incl_tl, incl_refl.
  - apply incl_tl, incl_refl.
Qed.

Lemma filter_nil_incl {A : Type} (f : A -> bool) (l l' : list A) :
  incl l' l -> filter f l = [] -> filter f l' = [].
Proof.
  intros Hincl Hnil.
  destruct (filter f l') as [| a rest] eqn:E; [reflexivity |].
  assert (Ha : In a (filter f l')) by (rewrite E; left; reflexivity).
  apply filter_In in Ha as [Hin Hf].
  assert (Hl : In a (filter f l)) by (apply filter_In; auto).
  rewrite Hnil in Hl. destruct Hl.
Qed.

Lemma fire_stuck (w : World) : shield_stuck w -> shield_stuck (Session.fire w).
Proof.
  intros [Hi Hd]. unfold Session.fire.
  destruct (Session.earliest (timers w)) as [[deadline cb] |] eqn:E;
    [| split; assumption].
  destruct (deadline <=? Date_now w)%Z; [| split; assumption].
  assert (Hcb : cb <> ClearInvincible).
  { intros ->. apply earliest_In in E.
    assert (Hin : In (deadline, ClearInvincible) (damage_timeouts w))
      by (apply filter_In; split; [assumption | reflexivity]).
    rewrite Hd in Hin. destruct Hin. }
  assert (Hd' : damage_timeouts (set_timers (Session.drop_earliest (timers w)) w) = []).
  { unfold damage_timeouts. cbn [timers set_timers].
    apply (filter_nil_incl _ (timers w)); [apply drop_earliest_incl | exact Hd]. }
  unfold shield_stuck.
  destruct cb; try congruence; cbn [Session.run_callback]; 
    unfold damage_timeouts in *; cbn in *; auto.
Qed.

Lemma step_stuck (e : Session.Event) (w : World) :
  ordinary e = true -> shield_stuck w -> shield_stuck (Session.step e w).
Proof.
  intros He [Hi Hd].
  destruct e as [| ms | | c | |]; try discriminate; cbn [Session.step].
  - apply gameLoop_stuck. split; assumption.
  - split; assumption.
  - apply fire_stuck. split; assumption.
  - assert (H1 : same_field F_invincible w (Input.deliver c w)) by framed.
    assert (H2 : same_field F_damageTimeouts w (Input.deliver c w)) by framed.
    unfold same_field in H1, H2. split; congruence.
  - assert (H1 : same_field F_invincible w (GameEngine.resumeGame w)) by framed.
    assert (H2 : same_field F_damageTimeouts w (GameEngine.resumeGame w)) by framed.
    unfold same_field in H1, H2. split; congruence.
Qed.

Lemma run_stuck (events : list Session.Event) (w : World) :
  forallb ordinary events = true -> shield_stuck w ->
  shield_stuck (Session.run events w).
Proof.
  revert w. induction events as [| e events IH]; intros w Hord Hw; [assumption |].
  cbn [forallb] in Hord. apply andb_true_iff in Hord as [He Hrest].
  unfold Session.run. cbn [fold_left]. apply IH; [assumption |].
  apply step_stuck; assumption.
Qed.

(** C10, as amended.  [updateEffects] sets [invincible] while the power-up
    is active and never clears it, and the expiry of the power-up clears only
    [activePowerup].  A frame of a running game that starts with the power-up
    active and no damage timeout pending leaves the player invincible with
    still no damage timeout pending; and from such a state [invincible] stays
    true through every later frame, lapse of time, timer, command and resume,
    in any order, until the start button resets the player. *)
Theorem invincibility_sticks_without_damage_timeout
    (w : World) (events : list Session.Event) :
  (activePowerup w = Some invincibility ->
   Player.invincible (player (PowerupManager.updateEffects w)) = true) /\
  (Player.invincible (player w) = true ->
   Player.invincible (player (PowerupManager.updateEffects w)) = true) /\
  (player (Session.run_callback ClearActivePowerup w) = player w /\
   activePowerup (Session.run_callback ClearActivePowerup w) = None) /\
  (GameEngine.is_playing w = true -> isPaused w = false ->
   activePowerup w = Some invincibility -> damage_timeouts w = [] ->
   shield_stuck (GameEngine.gameLoop w)) /\
  (shield_stuck w -> forallb ordinary events = true ->
   shield_stuck (Session.run events w) /\
   Player.invincible (player (Session.run events w)) = true).
Proof.
  split; [apply updateEffects_invincible |].
  split; [apply updateEffects_invincible |].
  split; [split; reflexivity |].
  split.
  - intros Hplay Hpause Hactive Hd.
    destruct (update_shield w Hplay Hpause (or_intror Hactive)) as [Hi' Hd'].
    split; [exact Hi' | unfold GameEngine.gameLoop; congruence].
  - intros Hw Hord. pose proof (run_stuck events w Hord Hw) as H.
    split; [exact H | exact (proj1 H)].
Qed.

Lemma invincibility_sticks_without_damage_timeout_witness :
  (activePowerup (shield_picked Original) = Some invincibility /\
   timers (shield_picked Original) =
     [ (5000%Z, ClearActivePowerup); (5000%Z, HidePowerupIndicator) ]) /\
  activePowerup
    (Session.run [ Session.Elapse 5000; Session.TimerDue ]
       (GameEngine.gameLoop (shield_picked Original))) = None /\
  Player.invincible
    (player
       (Session.run
          [ Session.Elapse 5000; Session.TimerDue; Session.TimerDue;
            Session.Frame; Session.Act (Input.KeyDown "ArrowUp");
            Session.Frame ]
          (GameEngine.gameLoop (shield_picked Original)))) = true.
Proof.
  split; [vm_compute; split; reflexivity |].
  split; [vm_compute; reflexivity |].
  refine (proj2 (proj2 (proj2 (proj2 (proj2
            (invincibility_sticks_without_damage_timeout
               (GameEngine.gameLoop (shield_picked Original))
               [ Session.Elapse 5000; Session.TimerDue; Session.TimerDue;
                 Session.Frame; Session.Act (Input.KeyDown "ArrowUp");
                 Session.Frame ])))) _ eq_refl)).
  refine (proj1 (proj2 (proj2 (proj2
            (invincibility_sticks_without_damage_timeout
               (shield_picked Original) []))))
          _ _ _ _); vm_compute; reflexivity.
Defined.

(** C10 as stated fails when a damage timeout is already pending.  The
    player runs into a bug and an invincibility power-up in the same frame;
    the next frame applies the power-up.  The player pauses; the damage
    timeout clears the flag after 1.5 s, the power-up expires after 5 s, and
    the first frame after resuming ends with the player vulnerable. *)
Lemma invincibility_lost_after_pause :
  let w1 := Session.run [Session.Frame] (bug_and_shield Original) in
  let w2 := Session.run [Session.Elapse 16; Session.Frame] w1 in
  let w3 := Session.run pause_through_expiry w2 in
  (activePowerup w1 = Some invincibility /\
   timers w1 = [ (1500%Z, ClearInvincible); (5000%Z, ClearActivePowerup);
                 (5000%Z, HidePowerupIndicator) ]) /\
  (activePowerup w2 = Some invincibility /\
   Player.invincible (player w2) = true) /\
  (state w3 = playing /\ isPaused w3 = false /\ frameCount w3 = 3%Z /\
   activePowerup w3 = None /\ Player.invincible (player w3) = false).
Proof. vm_compute. repeat split; reflexivity. Qed.

(** ** The model at work *)

(** Starting a session resets the statistics to their defaults. *)
Example startGame_resets_stats :
  stats (GameEngine.startGame (slowed Enhanced)) = Stats.mk 0 0 0 3 0 0 0 5 1 /\
  state (GameEngine.startGame (slowed Enhanced)) = playing /\
  frameCount (GameEngine.startGame (slowed Enhanced)) = 0%Z.
Proof. vm_compute. auto. Qed.

(** A jump leaves the ground at 13 a frame, loses 0.6 a frame, and lands on
    the 43rd frame. *)
Example jump_takes_43_frames :
  let p := Player.jump (Player.new 100 380) in
  Player.y (Player.update p) == 367.6 /\
  Player.jumping (Nat.iter 42 Player.update p) = true /\
  Player.jumping (Nat.iter 43 Player.update p) = false /\
  Player.y (Nat.iter 43 Player.update p) == 380.
Proof. vm_compute. repeat split; congruence. Qed.

(** A slide halves the box for 20 frames. *)
Example slide_takes_20_frames :
  let p := Player.slide (Player.new 100 380) in
  Player.height p == 16 /\
  Player.sliding (Nat.iter 19 Player.update p) = true /\
  Player.sliding (Nat.iter 20 Player.update p) = false /\
  Player.height (Nat.iter 20 Player.update p) == 32.
Proof. vm_compute. repeat split; congruence. Qed.

(** The first obstacle of a game appears on frame 120, the first collectible
    on frame 80. *)
Example first_spawns :
  obstacles (Session.frames 119 (top_speed Original)) = [] /\
  List.length (obstacles (Session.frames 120 (top_speed Original))) = 1%nat /\
  collectibles (Session.frames 79 (top_speed Original)) = [] /\
  List.length (collectibles (Session.frames 80 (top_speed Original))) = 1%nat.
Proof. vm_compute. auto. Qed.

(** Three hits end the game; the achievements earned are recorded then. *)
Example three_hits_end_the_game :
  let hit w := GameEngine.handleDamage w in
  let w := hit (hit (hit (GameEngine.handleCollectible (Sample.started Original)))) in
  state w = gameOver_state /\ Stats.lives (stats w) = 0%Z /\
  unlocked w = ["first_commit"] /\ Stats.highScore (stats w) = 100%Z /\
  GameEngine.update w = w.
Proof. lazy. auto. Qed.

(** * Further properties of the engine *)

(** ** The player *)

(** X1.  After [Player.update()] the player is never below the ground line
    ([y <= 380]); if the [jumping] flag is still set, the player is strictly
    above the ground and was jumping before; a player that touches the
    ground has zero vertical velocity. *)
Theorem player_stays_on_or_above_ground (p : Player.t) :
  Player.y (Player.update p) <= 380 /\
  (Player.jumping (Player.update p) = true ->
   Player.y (Player.update p) < 380 /\ Player.jumping p = true) /\
  (Player.y (Player.update p) == 380 -> Player.velocityY (Player.update p) == 0).
Proof.
  unfold Player.update, Player.update_physics.
  set (q := Player.update_slide p).
  assert (Hj : Player.jumping q = Player.jumping p).
  { unfold q, Player.update_slide.
    destruct (Player.sliding p); [destruct (_ <=? _)%Z |]; reflexivity. }
  cbv zeta. unfold Player.groundY.
  destruct (Qgeb (Player.y q + (Player.velocityY q + Player.gravity)) 380) eqn:Hg;
    cbn [Player.y Player.jumping Player.velocityY].
  - split; [apply Qle_refl |]. split; [discriminate | reflexivity].
  - assert (Hlt : Player.y q + (Player.velocityY q + Player.gravity) < 380).
    { apply Qnot_le_lt. intros Hle. apply Qgeb_ge in Hle. congruence. }
    split; [apply Qlt_le_weak; assumption |]. split.
    + intros H. split; [assumption | congruence].
    + intros Heq. rewrite Heq in Hlt. exfalso. apply (Qlt_irrefl 380). assumption.
Qed.

Lemma player_stays_on_or_above_ground_witness :
  Player.y (Player.update (Player.jump (Player.new 100 380))) < 380 /\
  Player.velocityY (Player.update (Player.new 100 380)) == 0.
Proof.
  split.
  - apply (player_stays_on_or_above_ground (Player.jump (Player.new 100 380))).
    reflexivity.
  - apply (player_stays_on_or_above_ground (Player.new 100 380)). reflexivity.
Defined.

(** The two outcomes of the physics of [Player.update()]: landing, or one
    more frame in the air. *)
Lemma Player_update_cases (p : Player.t) :
  let y' := Player.y p + (Player.velocityY p + 0.6) in
  (y' >= 380 /\ Player.y (Player.update p) = 380 /\
   Player.velocityY (Player.update p) = 0 /\
   Player.jumping (Player.update p) = false) \/
  (y' < 380 /\ Player.y (Player.update p) = y' /\
   Player.velocityY (Player.update p) = Player.velocityY p + 0.6 /\
   Player.jumping (Player.update p) = Player.jumping p).
Proof.
  cbv zeta. unfold Player.update, Player.update_physics.
  set (q := Player.update_slide p).
  assert (Hq : Player.y q = Player.y p /\ Player.velocityY q = Player.velocityY p /\
               Player.jumping q = Player.jumping p).
  { unfold q, Player.update_slide.
    destruct (Player.sliding p); [destruct (_ <=? _)%Z |]; auto. }
  destruct Hq as [Hy [Hv Hj]]. cbv zeta. rewrite Hy, Hv, Hj.
  unfold Player.groundY, Player.gravity.
  destruct (Qgeb (Player.y p + (Player.velocityY p + 0.6)) 380) eqn:Hg;
    cbn [Player.y Player.jumping Player.velocityY].
  - left. apply Qgeb_ge in Hg. auto.
  - right. split; [| auto].
    apply Qnot_le_lt. intros Hle. apply Qgeb_ge in Hle. congruence.
Qed.

Lemma Player_update_keeps_x (p : Player.t) (k : nat) :
  Player.x (Nat.iter k Player.update p) = Player.x p /\
  Player.width (Nat.iter k Player.update p) = Player.width p.
Proof.
  induction k as [| k [IHx IHw]]; [split; reflexivity |].
  cbn [Nat.iter nat_rect]. unfold Nat.iter in IHx, IHw. rewrite <- IHx, <- IHw.
  generalize (nat_rect (fun _ => Player.t) p (fun _ => Player.update) k). intros q.
  unfold Player.update, Player.update_physics, Player.update_slide.
  destruct (Player.sliding q); [destruct (_ <=? _)%Z |];
    cbv zeta; cbn [Player.y Player.velocityY]; destruct (Qgeb _ _); split; reflexivity.
Qed.

(** The slide timer: a sliding player with [t + 1] frames left keeps sliding,
    with the same height, for [t] updates, and stands up on the next. *)
Lemma slide_countdown (t : nat) (p : Player.t) :
  Player.sliding p = true -> Player.slideTimer p = Z.of_nat (S t) ->
  (forall k, (k <= t)%nat ->
     Player.sliding (Nat.iter k Player.update p) = true /\
     Player.height (Nat.iter k Player.update p) = Player.height p /\
     Player.slideTimer (Nat.iter k Player.update p) = Z.of_nat (S t - k)) /\
  Player.sliding (Nat.iter (S t) Player.update p) = false /\
  Player.height (Nat.iter (S t) Player.update p) = 32.
Proof.
  intros Hs Ht.
  assert (Hstep : forall q,
             Player.sliding (Player.update q) = Player.sliding (Player.update_slide q) /\
             Player.height (Player.update q) = Player.height (Player.update_slide q) /\
             Player.slideTimer (Player.update q) = Player.slideTimer (Player.update_slide q)).
  { intros q. unfold Player.update, Player.update_physics. cbv zeta.
    destruct (Qgeb _ _); auto. }
  assert (Hrun : forall k, (k <= t)%nat ->
             Player.sliding (Nat.iter k Player.update p) = true /\
             Player.height (Nat.iter k Player.update p) = Player.height p /\
             Player.slideTimer (Nat.iter k Player.update p) = Z.of_nat (S t - k)).
  { induction k as [| k IH]; intros Hk.
    - cbn [Nat.iter nat_rect]. rewrite Nat.sub_0_r. auto.
    - destruct IH as [IHs [IHh IHt]]; [lia |].
      cbn [Nat.iter nat_rect]. unfold Nat.iter in IHs, IHh, IHt.
      set (q := nat_rect (fun _ => Player.t) p (fun _ => Player.update) k) in *.
      destruct (Hstep q) as [H1 [H2 H3]]. rewrite H1, H2, H3.
      unfold Player.update_slide. rewrite IHs, IHt.
      destruct (Z.of_nat (S t - k) - 1 <=? 0)%Z eqn:Hle.
      + apply Z.leb_le in Hle. lia.
      + cbn [Player.sliding Player.height Player.slideTimer].
        repeat split; auto. lia. }
  split; [exact Hrun |].
  destruct (Hrun t (Nat.le_refl t)) as [IHs [IHh IHt]].
  cbn [Nat.iter nat_rect]. unfold Nat.iter in IHs, IHh, IHt.
  set (q := nat_rect (fun _ => Player.t) p (fun _ => Player.update) t) in *.
  destruct (Hstep q) as [H1 [H2 _]]. rewrite H1, H2.
  unfold Player.update_slide. rewrite IHs, IHt.
  destruct (Z.of_nat (S t - t) - 1 <=? 0)%Z eqn:Hle; [split; reflexivity |].
  apply Z.leb_gt in Hle. lia.
Qed.

(** X2.  [Player.slide()] halves the box for exactly 20 updates: during the
    first 19 the player is still sliding with height 16, after the 20th the
    player is upright with height 32 again; the slide never moves the player
    sideways. *)
Theorem slide_lasts_20_updates (p : Player.t) :
  (forall k, (k < 20)%nat ->
     Player.sliding (Nat.iter k Player.update (Player.slide p)) = true /\
     Player.height (Nat.iter k Player.update (Player.slide p)) = 16) /\
  Player.sliding (Nat.iter 20 Player.update (Player.slide p)) = false /\
  Player.height (Nat.iter 20 Player.update (Player.slide p)) = 32 /\
  (forall k, Player.x (Nat.iter k Player.update (Player.slide p)) = Player.x p).
Proof.
  destruct (slide_countdown 19 (Player.slide p) eq_refl eq_refl) as [Hrun [Hs Hh]].
  split; [| split; [exact Hs | split; [exact Hh |]]].
  - intros k Hk. destruct (Hrun k) as [H1 [H2 _]]; [lia |]. auto.
  - intros k. rewrite (proj1 (Player_update_keeps_x (Player.slide p) k)). reflexivity.
Qed.

Lemma slide_lasts_20_updates_witness :
  Player.sliding (Nat.iter 19 Player.update (Player.slide (Player.new 100 380))) = true.
Proof.
  apply (slide_lasts_20_updates (Player.new 100 380)). lia.
Defined.

Lemma jump_height_bounds (k : nat) :
  (1 <= k <= 42)%nat -> 245.6 <= jump_height k /\ jump_height k < 380.
Proof.
  intros Hk. unfold jump_height. cbv zeta.
  set (K := inject_Z (Z.of_nat k)).
  assert (Hlo : inject_Z 1 <= K) by (unfold K; rewrite <- Zle_Qle; lia).
  assert (Hhi : K <= inject_Z 42) by (unfold K; rewrite <- Zle_Qle; lia).
  (* (k - 21) (3 k - 64) >= 0 on the integers *)
  assert (Hz : (0 <= 3 * (Z.of_nat k * Z.of_nat k) - 127 * Z.of_nat k + 1344)%Z).
  { replace (3 * (Z.of_nat k * Z.of_nat k) - 127 * Z.of_nat k + 1344)%Z
      with ((Z.of_nat k - 21) * (3 * Z.of_nat k - 64))%Z by ring.
    destruct (Z_le_gt_dec (Z.of_nat k) 21).
    - apply Z.mul_nonpos_nonpos; lia.
    - apply Z.mul_nonneg_nonneg; lia. }
  assert (Hz' : (127 * Z.of_nat k <= 3 * (Z.of_nat k * Z.of_nat k) + 1344)%Z) by lia.
  rewrite Zle_Qle in Hz'. rewrite inject_Z_plus, !inject_Z_mult in Hz'. fold K in Hz'.
  change (inject_Z 127) with 127 in Hz'. change (inject_Z 3) with 3 in Hz'.
  change (inject_Z 1344) with 1344 in Hz'.
  change (inject_Z 1) with 1 in Hlo. change (inject_Z 42) with 42 in Hhi.
  split; nra.
Qed.

Lemma jump_trajectory (p : Player.t) :
  Player.y p == 380 ->
  forall k, (k <= 42)%nat ->
    let q := Nat.iter k Player.update (Player.jump p) in
    Player.jumping q = true /\
    Player.velocityY q == -13 + 0.6 * inject_Z (Z.of_nat k) /\
    Player.y q == jump_height k.
Proof.
  intros Hy. induction k as [| k IH]; intros Hk; cbv zeta.
  - cbn [Nat.iter nat_rect Player.jump Player.jumping Player.velocityY Player.y].
    unfold jump_height, Player.jumpForce. cbn [Z.of_nat]. split; [reflexivity |].
    split; [reflexivity | rewrite Hy; reflexivity].
  - destruct IH as [Hj [Hv Hh]]; [lia |].
    cbn [Nat.iter nat_rect]. unfold Nat.iter in Hj, Hv, Hh.
    set (q := nat_rect (fun _ => Player.t) (Player.jump p) (fun _ => Player.update) k) in *.
    assert (HK : inject_Z (Z.of_nat (S k)) == inject_Z (Z.of_nat k) + 1).
    { rewrite Nat2Z.inj_succ, <- Z.add_1_r, inject_Z_plus. reflexivity. }
    assert (Hnext : Player.y q + (Player.velocityY q + 0.6) == jump_height (S k)).
    { rewrite Hv, Hh. unfold jump_height. cbv zeta. rewrite HK. ring. }
    destruct (jump_height_bounds (S k)) as [_ Hlt]; [lia |].
    destruct (Player_update_cases q) as [[Hge _] | [_ [Hy' [Hv' Hj']]]].
    + cbv zeta in Hge. rewrite Hnext in Hge. exfalso. lra.
    + rewrite Hy', Hv', Hj'. split; [assumption |].
      split; [rewrite Hv, HK; ring | exact Hnext].
Qed.

(** X3.  A jump from the ground ([y = 380]) keeps the player in the air for
    42 updates, above the ground line and never as high as [y = 245], that
    is, with [245 < y < 380]; by the 21st update it has risen past
    [y = 246]; the 43rd update puts the player back on the ground with zero
    velocity and clears [jumping]. *)
Theorem jump_from_ground_lands_after_43_updates (p : Player.t) :
  Player.y p == 380 ->
  (forall k, (1 <= k <= 42)%nat ->
     Player.jumping (Nat.iter k Player.update (Player.jump p)) = true /\
     245 < Player.y (Nat.iter k Player.update (Player.jump p)) /\
     Player.y (Nat.iter k Player.update (Player.jump p)) < 380) /\
  Player.y (Nat.iter 21 Player.update (Player.jump p)) < 246 /\
  Player.jumping (Nat.iter 43 Player.update (Player.jump p)) = false /\
  Player.y (Nat.iter 43 Player.update (Player.jump p)) = 380 /\
  Player.velocityY (Nat.iter 43 Player.update (Player.jump p)) = 0.
Proof.
  intros Hy. split; [| split].
  - intros k Hk. destruct (jump_trajectory p Hy k) as [Hj [_ Hh]]; [lia |].
    destruct (jump_height_bounds k Hk) as [Hlo Hhi].
    cbv zeta in Hh. rewrite Hh.
    split; [assumption |]. split; [lra | assumption].
  - destruct (jump_trajectory p Hy 21) as [_ [_ Hh]]; [lia |].
    cbv zeta in Hh. rewrite Hh. reflexivity.
  - destruct (jump_trajectory p Hy 42) as [Hj [Hv Hh]]; [lia |].
    cbv zeta in Hj, Hv, Hh.
    rewrite (Nat.iter_succ 42 _ Player.update (Player.jump p)).
    set (q := Nat.iter 42 Player.update (Player.jump p)) in *.
    destruct (Player_update_cases q) as [[_ [Hy' [Hv' Hj']]] | [Hlt _]]; [auto |].
    cbv zeta in Hlt. rewrite Hv, Hh in Hlt. exfalso.
    vm_compute in Hlt. discriminate.
Qed.

Lemma jump_from_ground_lands_after_43_updates_witness :
  Player.y (Nat.iter 21 Player.update (Player.jump (Player.new 100 380))) < 246 /\
  Player.jumping (Nat.iter 43 Player.update (Player.jump (Player.new 100 380))) = false.
Proof.
  destruct (jump_from_ground_lands_after_43_updates (Player.new 100 380))
    as [_ [Hpeak [Hland _]]]; [reflexivity |].
  split; [exact Hpeak | exact Hland].
Defined.

(** ** Collisions and removal *)

Lemma isColliding_spec (A B : Rect.t) :
  ObstacleManager.isColliding A B = true <->
  Rect.x A < Rect.x B + Rect.width B /\ Rect.x A + Rect.width A > Rect.x B /\
  Rect.y A < Rect.y B + Rect.height B /\ Rect.y A + Rect.height A > Rect.y B.
Proof.
  unfold ObstacleManager.isColliding.
  rewrite andb4_true, !Qltb_lt, !Qgtb_gt. tauto.
Qed.

Lemma bool_eq_iff (a b : bool) : (a = true <-> b = true) -> a = b.
Proof. destruct a, b; intuition congruence. Qed.

(** X4.  The collision test is symmetric in its two boxes: whether the
    player is tested against an entity or the entity against the player, the
    answer is the same. *)
Theorem isColliding_symmetric (A B : Rect.t) :
  ObstacleManager.isColliding A B = ObstacleManager.isColliding B A.
Proof.
  apply bool_eq_iff. rewrite !isColliding_spec. intuition lra.
Qed.

Lemma same_number_eq (a b : Q) : same_number a b = true <-> a = b.
Proof.
  unfold same_number. destruct a as [n d], b as [n' d']. cbn [Qnum Qden].
  rewrite andb_true_iff, Z.eqb_eq, Pos.eqb_eq. split.
  - intros [-> ->]. reflexivity.
  - intros H. inversion H. auto.
Qed.

Lemma ObstacleKind_eqb_eq (a b : ObstacleKind) : ObstacleKind_eqb a b = true <-> a = b.
Proof. destruct a, b; cbn; split; congruence. Qed.

Lemma PowerupKind_eqb_eq (a b : PowerupKind) : PowerupKind_eqb a b = true <-> a = b.
Proof. destruct a, b; cbn; split; congruence. Qed.

Lemma Obstacle_same_eq (a b : Obstacle.t) : Obstacle.same a b = true <-> a = b.
Proof.
  unfold Obstacle.same. destruct a, b. cbn [Obstacle.x Obstacle.y Obstacle.width
    Obstacle.height Obstacle.type Obstacle.color].
  rewrite !andb_true_iff, !same_number_eq, ObstacleKind_eqb_eq, String.eqb_eq.
  split.
  - intros [[[[[-> ->] ->] ->] ->] ->]. reflexivity.
  - intros H. inversion H. auto 10.
Qed.

Lemma Collectible_same_eq (a b : Collectible.t) : Collectible.same a b = true <-> a = b.
Proof.
  unfold Collectible.same. destruct a, b. cbn [Collectible.x Collectible.y
    Collectible.width Collectible.height Collectible.floatOffset Collectible.floatPhase].
  rewrite !andb_true_iff, !same_number_eq. split.
  - intros [[[[[-> ->] ->] ->] ->] ->]. reflexivity.
  - intros H. inversion H. auto 10.
Qed.

Lemma Powerup_same_eq (a b : Powerup.t) : Powerup.same a b = true <-> a = b.
Proof.
  unfold Powerup.same. destruct a, b. cbn [Powerup.x Powerup.y Powerup.width
    Powerup.height Powerup.type Powerup.color Powerup.duration Powerup.floatOffset
    Powerup.floatPhase].
  rewrite !andb_true_iff, !same_number_eq, PowerupKind_eqb_eq, String.eqb_eq, Z.eqb_eq.
  split.
  - intros [[[[[[[[-> ->] ->] ->] ->] ->] ->] ->] ->]. reflexivity.
  - intros H. inversion H. auto 15.
Qed.

(** [find] then [indexOf] and [splice]: the object found is the first one
    accepted, and it is the one removed. *)
Lemma find_then_remove {A : Type} (same : A -> A -> bool) (pred : A -> bool)
    (l : list A) (hit : A) :
  (forall a b, same a b = true <-> a = b) ->
  array_find pred l = Some hit ->
  exists before after,
    l = before ++ hit :: after /\
    (forall o, In o before -> pred o = false) /\
    pred hit = true /\
    remove_object same hit l = before ++ after.
Proof.
  intros Hsame. unfold array_find, remove_object.
  induction l as [| a l IH]; intros Hfind; [discriminate |].
  cbn [find] in Hfind. destruct (pred a) eqn:Hpa.
  - inversion Hfind; subst a. exists [], l. cbn [app indexOf].
    rewrite (proj2 (Hsame hit hit) eq_refl). cbn [splice1].
    repeat split; auto. intros o [].
  - destruct (IH Hfind) as [before [after [Hl [Hbefore [Hhit Hrem]]]]].
    exists (a :: before), after. cbn [app indexOf].
    assert (Hne : same hit a = false).
    { destruct (same hit a) eqn:E; [| reflexivity].
      apply Hsame in E. subst a. congruence. }
    rewrite Hne. repeat split.
    + rewrite Hl. reflexivity.
    + intros o [<- | Ho]; auto.
    + assumption.
    + destruct (indexOf same hit l) as [index |]; cbn [option_map splice1].
      * rewrite Hrem. reflexivity.
      * rewrite Hrem. reflexivity.
Qed.

Lemma find_none_iff {A : Type} (pred : A -> bool) (l : list A) :
  array_find pred l = None <-> forall o, In o l -> pred o = false.
Proof.
  unfold array_find. split.
  - intros H o Ho. exact (find_none pred l H o Ho).
  - intros H. induction l as [| a l IH]; [reflexivity |].
    cbn [find]. rewrite (H a (or_introl eq_refl)). apply IH.
    intros o Ho. apply H. right. assumption.
Qed.

(** X5.  [checkCollision(player)] returns the first entity of the list that
    overlaps the player, and nothing exactly when none overlaps; removing the
    entity it returned deletes that one entry and nothing else, so that later
    overlapping entities stay in the list.  This holds for the obstacle, the
    collectible and the power-up manager alike. *)
Theorem collision_finds_and_removes_first_match (p : Player.t) (w : World) :
  ((forall hit, ObstacleManager.checkCollision p w = Some hit ->
      exists before after,
        obstacles w = before ++ hit :: after /\
        (forall o, In o before -> ObstacleManager.hits p o = false) /\
        ObstacleManager.hits p hit = true /\
        obstacles (ObstacleManager.removeObstacle hit w) = before ++ after) /\
   (ObstacleManager.checkCollision p w = None <->
    forall o, In o (obstacles w) -> ObstacleManager.hits p o = false)) /\
  ((forall hit, CollectibleManager.checkCollision p w = Some hit ->
      exists before after,
        collectibles w = before ++ hit :: after /\
        (forall o, In o before -> CollectibleManager.hits p o = false) /\
        CollectibleManager.hits p hit = true /\
        collectibles (CollectibleManager.removeCollectible hit w) = before ++ after) /\
   (CollectibleManager.checkCollision p w = None <->
    forall o, In o (collectibles w) -> CollectibleManager.hits p o = false)) /\
  ((forall hit, PowerupManager.checkCollision p w = Some hit ->
      exists before after,
        powerups w = before ++ hit :: after /\
        (forall o, In o before -> PowerupManager.hits p o = false) /\
        PowerupManager.hits p hit = true /\
        powerups (PowerupManager.removePowerup hit w) = before ++ after) /\
   (PowerupManager.checkCollision p w = None <->
    forall o, In o (powerups w) -> PowerupManager.hits p o = false)).
Proof.
  split; [| split]; split.
  - intros hit H. apply (find_then_remove _ _ _ _ Obstacle_same_eq H).
  - apply find_none_iff.
  - intros hit H. apply (find_then_remove _ _ _ _ Collectible_same_eq H).
  - apply find_none_iff.
  - intros hit H. apply (find_then_remove _ _ _ _ Powerup_same_eq H).
  - apply find_none_iff.
Qed.

Lemma collision_finds_and_removes_first_match_witness :
  ObstacleManager.checkCollision (player (among_obstacles Original))
    (among_obstacles Original) = Some (Obstacle.mk 100 380 32 32 bug "#f85149") /\
  obstacles
    (ObstacleManager.removeObstacle (Obstacle.mk 100 380 32 32 bug "#f85149")
       (among_obstacles Original)) =
  [ Obstacle.mk 500 380 32 32 bug "#f85149";
    Obstacle.mk 110 364 24 48 spike "#ff6b6b" ].
Proof.
  split; [reflexivity |].
  destruct (collision_finds_and_removes_first_match
              (player (among_obstacles Original)) (among_obstacles Original))
    as [[H _] _].
  destruct (H (Obstacle.mk 100 380 32 32 bug "#f85149") eq_refl)
    as [before [after [H1 [_ [_ H2]]]]].
  rewrite H2. clear H2 H.
  change (obstacles (among_obstacles Original)) with
    [ Obstacle.mk 500 380 32 32 bug "#f85149";
      Obstacle.mk 100 380 32 32 bug "#f85149";
      Obstacle.mk 110 364 24 48 spike "#ff6b6b" ] in H1.
  destruct before as [| b1 [| b2 [| b3 before]]]; cbn [app] in H1.
  - discriminate H1.
  - injection H1 as <- <-. reflexivity.
  - discriminate H1.
  - destruct before; discriminate H1.
Defined.

(** ** Culling and spawning *)

Lemma obstacle_type_width_positive (ty : ObstacleType.t) :
  In ty ObstacleManager.types -> 0 < ObstacleType.width ty.
Proof. intros [<- | [<- | [<- | []]]]; reflexivity. Qed.

(** X6.  After the [update] of a manager every entity of its list still has
    its right edge on the screen ([x + width > 0]), the freshly spawned one
    included, and the list has grown by at most one entry. *)
Theorem managers_keep_only_entities_on_screen (speed : Q) (f : Z) (w : World) :
  (forall o, In o (obstacles (ObstacleManager.update speed f w)) ->
             Obstacle.x o + Obstacle.width o > 0) /\
  (forall c, In c (collectibles (CollectibleManager.update speed f w)) ->
             Collectible.x c + Collectible.width c > 0) /\
  (forall pu, In pu (powerups (PowerupManager.update speed f w)) ->
              Powerup.x pu + Powerup.width pu > 0) /\
  (List.length (obstacles (ObstacleManager.update speed f w)) <=
     List.length (obstacles w) + 1)%nat /\
  (List.length (collectibles (CollectibleManager.update speed f w)) <=
     List.length (collectibles w) + 1)%nat /\
  (List.length (powerups (PowerupManager.update speed f w)) <=
     List.length (powerups w) + 1)%nat.
Proof.
  assert (Hfl : forall (A : Type) (g : A -> bool) (h : A -> A) (l : list A),
             (List.length (filter g (map h l)) <= List.length l)%nat).
  { intros A g h l. eapply Nat.le_trans; [apply filter_length_le |].
    rewrite length_map. apply Nat.le_refl. }
  repeat split.
  - intros o Ho. unfold ObstacleManager.update in Ho.
    set (w' := set_obstacles _ w) in Ho.
    assert (Hold : forall o', In o' (obstacles w') -> Obstacle.x o' + Obstacle.width o' > 0).
    { intros o' Ho'. apply filter_In in Ho' as [_ Hon]. apply Qgtb_gt in Hon. exact Hon. }
    destruct (js_rem f 120 =? 0)%Z; [| auto].
    destruct (obstacle_spawn_appends w') as [ty [Hty Heq]]. rewrite Heq in Ho.
    apply in_app_iff in Ho as [Ho | [<- | []]]; [auto |].
    cbn [obstacle_of_type Obstacle.x Obstacle.width].
    pose proof (obstacle_type_width_positive ty Hty). lra.
  - intros c Hc. unfold CollectibleManager.update in Hc.
    set (w' := set_collectibles _ w) in Hc.
    assert (Hold : forall c', In c' (collectibles w') ->
                              Collectible.x c' + Collectible.width c' > 0).
    { intros c' Hc'. apply filter_In in Hc' as [_ Hon]. apply Qgtb_gt in Hon. exact Hon. }
    destruct (js_rem f 80 =? 0)%Z; [| auto].
    unfold CollectibleManager.spawn in Hc.
    cbn [collectibles set_collectibles consume set_drawn] in Hc.
    apply in_app_iff in Hc as [Hc | [<- | []]]; [apply Hold; exact Hc | reflexivity].
  - intros pu Hpu. unfold PowerupManager.update in Hpu.
    set (w' := set_powerups _ w) in Hpu.
    assert (Hold : forall pu', In pu' (powerups w') -> Powerup.x pu' + Powerup.width pu' > 0).
    { intros pu' Hpu'. apply filter_In in Hpu' as [_ Hon]. apply Qgtb_gt in Hon. exact Hon. }
    destruct (js_rem f 400 =? 0)%Z; [| auto].
    destruct (Qltb (Math_random 0 w') 0.5); [| apply Hold; exact Hpu].
    unfold PowerupManager.spawn in Hpu.
    cbn [powerups set_powerups consume set_drawn] in Hpu.
    apply in_app_iff in Hpu as [Hpu | [<- | []]]; [apply Hold; exact Hpu | reflexivity].
  - unfold ObstacleManager.update, ObstacleManager.spawn.
    destruct (js_rem f 120 =? 0)%Z;
      cbn [obstacles set_obstacles consume set_drawn]; rewrite ?length_app;
      cbn [List.length]; specialize (Hfl _ ObstacleManager.on_screen
        (ObstacleManager.moved speed) (obstacles w)); lia.
  - unfold CollectibleManager.update, CollectibleManager.spawn.
    destruct (js_rem f 80 =? 0)%Z;
      cbn [collectibles set_collectibles consume set_drawn Math_sin]; rewrite ?length_app;
      cbn [List.length]; specialize (Hfl _ CollectibleManager.on_screen
        (CollectibleManager.moved (Math_sin w) speed f) (collectibles w)); lia.
  - unfold PowerupManager.update, PowerupManager.spawn.
    destruct (js_rem f 400 =? 0)%Z; [destruct (Qltb _ 0.5) |];
      cbn [powerups set_powerups consume set_drawn Math_sin]; rewrite ?length_app;
      cbn [List.length]; specialize (Hfl _ PowerupManager.on_screen
        (PowerupManager.moved (Math_sin w) speed f) (powerups w)); lia.
Qed.

Lemma managers_keep_only_entities_on_screen_witness :
  Obstacle.x (Obstacle.mk 88 380 32 32 bug "#f85149") +
  Obstacle.width (Obstacle.mk 88 380 32 32 bug "#f85149") > 0.
Proof.
  apply (managers_keep_only_entities_on_screen 12 1%Z (on_a_bug Original)).
  left. reflexivity.
Defined.

(** X7.  [CollectibleManager.update(speed, f)] appends exactly one
    collectible when [f % 80 == 0] and none otherwise; it is 24 by 24, sits
    at x = 900 with a zero float offset, and its height is one of 300, 340 and
    380. *)
Theorem collectible_spawn_every_80_frames (speed : Q) (f : Z) (w : World) :
  exists y phase,
    In y CollectibleManager.yPositions /\
    collectibles (CollectibleManager.update speed f w) =
    collectibles_after_move speed f w ++
    (if (js_rem f 80 =? 0)%Z then [Collectible.mk 900 y 24 24 0 phase] else []).
Proof.
  unfold CollectibleManager.update, collectibles_after_move.
  set (w' := set_collectibles _ w).
  exists (pick (Math_random 0 w') CollectibleManager.yPositions 300),
         (Math_random 1 w' * Math_PI w' * 2).
  split.
  - destruct (Math_random_range 0 w') as [Hlo Hhi].
    apply pick_In; auto. discriminate.
  - destruct (js_rem f 80 =? 0)%Z; [reflexivity |].
    rewrite app_nil_r. reflexivity.
Qed.

(** X8.  [PowerupManager.update(speed, f)] appends a power-up exactly when
    [f % 400 == 0] and the draw made on that frame is below 0.5, and then only
    one: a 32 by 32 box at (900, 320) whose kind and colour come from one row
    of the type table, with a duration of 5000 ms whatever the kind. *)
Theorem powerup_spawn_gated_every_400_frames (speed : Q) (f : Z) (w : World) :
  exists ty phase,
    In ty PowerupManager.types /\ PowerupType.duration ty = 5000%Z /\
    powerups (PowerupManager.update speed f w) =
    powerups_after_move speed f w ++
    (if (js_rem f 400 =? 0)%Z && Qltb (Math_random 0 w) 0.5
     then [powerup_of_type ty phase] else []).
Proof.
  unfold PowerupManager.update, powerups_after_move.
  set (w' := set_powerups _ w).
  change (Math_random 0 w) with (Math_random 0 w').
  set (w'' := consume 1 w').
  exists (pick (Math_random 0 w'') PowerupManager.types
               (PowerupType.mk invincibility "#bc8cff" 5000)),
         (Math_random 1 w'' * Math_PI w'' * 2).
  assert (Hin : In (pick (Math_random 0 w'') PowerupManager.types
                         (PowerupType.mk invincibility "#bc8cff" 5000))
                   PowerupManager.types).
  { destruct (Math_random_range 0 w'') as [Hlo Hhi].
    apply pick_In; auto. discriminate. }
  split; [exact Hin |]. split.
  - destruct Hin as [<- | [<- | [<- | []]]]; reflexivity.
  - destruct (js_rem f 400 =? 0)%Z; cbn [andb]; [| rewrite app_nil_r; reflexivity].
    destruct (Qltb (Math_random 0 w') 0.5); [reflexivity |].
    rewrite app_nil_r. reflexivity.
Qed.

(** ** Damage, pickups and the end of a game *)

Lemma stats_ext (a b : Stats.t) :
  Stats.score a = Stats.score b -> Stats.streak a = Stats.streak b ->
  Stats.highScore a = Stats.highScore b -> Stats.lives a = Stats.lives b ->
  Stats.combo a = Stats.combo b -> Stats.maxCombo a = Stats.maxCombo b ->
  Stats.commits a = Stats.commits b -> Stats.gameSpeed a = Stats.gameSpeed b ->
  Stats.speedMultiplier a = Stats.speedMultiplier b -> a = b.
Proof. destruct a, b. cbn. intros. subst. reflexivity. Qed.

(** One field of two worlds linked by operations that leave it alone, in
    either direction. *)
Ltac field_by_frame F a b :=
  let H := fresh "H" in
  first
    [ assert (H : same_field F a b) by framed; exact H
    | assert (H : same_field F b a) by framed; exact (eq_sym H) ].

(** [stats a = stats b] for two worlds linked by operations that touch no
    statistic. *)
Ltac same_stats :=
  lazymatch goal with
  | |- stats ?a = stats ?b =>
      apply stats_ext;
      [ field_by_frame F_score a b | field_by_frame F_streak a b
      | field_by_frame F_highScore a b | field_by_frame F_lives a b
      | field_by_frame F_combo a b | field_by_frame F_maxCombo a b
      | field_by_frame F_commits a b | field_by_frame F_gameSpeed a b
      | field_by_frame F_speedMultiplier a b ]
  end.

Lemma gameOver_facts (w : World) :
  state (GameEngine.gameOver w) = gameOver_state /\
  stats (GameEngine.gameOver w) =
    Stats.set_highScore (Z.max (Stats.highScore (stats w)) (Stats.score (stats w)))
      (stats w) /\
  commitStreakHigh (GameEngine.gameOver w) =
    (if (Stats.score (stats w) >? Stats.highScore (stats w))%Z
     then Some (Stats.score (stats w)) else commitStreakHigh w).
Proof.
  unfold GameEngine.gameOver.
  set (w1 := set_state gameOver_state w).
  match goal with
  | |- context [AchievementManager.checkAchievements (stats ?x) ?x] =>
      set (w3 := x) in *
  end.
  assert (Hst3 : state w3 = gameOver_state).
  { assert (H : same_field F_state w1 w3) by (subst w3; framed).
    unfold same_field in H. rewrite <- H. reflexivity. }
  assert (Hs3 : stats w3 =
                Stats.set_highScore
                  (Z.max (Stats.highScore (stats w)) (Stats.score (stats w))) (stats w)).
  { subst w3.
    match goal with
    | |- stats (if ?c then _ else ?w2) = _ =>
        assert (Hs2 : stats w2 = stats w) by same_stats;
        destruct c eqn:Hc; cbn [stats set_stats set_commitStreakHigh];
        rewrite Hs2; rewrite Hs2 in Hc
    end.
    - apply Z.gtb_lt in Hc. rewrite Z.max_r by lia. reflexivity.
    - assert (Hle : (Stats.score (stats w) <= Stats.highScore (stats w))%Z).
      { destruct (Z.gtb_spec (Stats.score (stats w)) (Stats.highScore (stats w)));
          [discriminate | assumption]. }
      rewrite Z.max_l by lia. destruct (stats w); reflexivity. }
  assert (Hc3 : commitStreakHigh w3 =
                (if (Stats.score (stats w) >? Stats.highScore (stats w))%Z
                 then Some (Stats.score (stats w)) else commitStreakHigh w)).
  { subst w3.
    match goal with
    | |- commitStreakHigh (if ?c then _ else ?w2) = _ =>
        assert (Hs2 : stats w2 = stats w) by same_stats;
        assert (Hh2 : same_field F_commitStreakHigh w w2) by framed;
        unfold same_field in Hh2;
        rewrite Hs2;
        destruct (Stats.score (stats w) >? Stats.highScore (stats w))%Z;
        cbn [commitStreakHigh set_commitStreakHigh]; congruence
    end. }
  clearbody w3.
  match goal with
  | |- state ?w' = _ /\ _ =>
      assert (H1 : same_field F_state w3 w') by framed;
      assert (H2 : stats w' = stats w3) by same_stats;
      assert (H3 : same_field F_commitStreakHigh w3 w') by framed
  end.
  unfold same_field in H1, H3. rewrite <- H1, H2, <- H3. auto.
Qed.

Lemma handleDamage_facts (w : World) :
  stats (GameEngine.handleDamage w) = damaged (stats w) /\
  state (GameEngine.handleDamage w) =
    (if (Stats.lives (stats w) - 1 <=? 0)%Z then gameOver_state else state w) /\
  Player.invincible (player (GameEngine.handleDamage w)) =
    (if (Stats.lives (stats w) - 1 <=? 0)%Z
     then Player.invincible (player w) else true) /\
  damage_timeouts (GameEngine.handleDamage w) =
    damage_timeouts w ++
    (if (Stats.lives (stats w) - 1 <=? 0)%Z then []
     else [((Date_now w + 1500)%Z, ClearInvincible)]).
Proof.
  unfold GameEngine.handleDamage.
  match goal with
  | |- context [set_stats (Stats.set_combo 0 ?s) ?w1] =>
      set (w2 := set_stats (Stats.set_combo 0 s) w1)
  end.
  match goal with
  | |- context [GameEngine.gameOver ?x] => set (w7 := x) in *
  end.
  assert (Hs : stats w7 = stats w2) by (subst w7; same_stats).
  assert (Hst : same_field F_state w2 w7) by (subst w7; framed).
  assert (Hi : same_field F_invincible w2 w7) by (subst w7; framed).
  assert (Hd : same_field F_damageTimeouts w2 w7) by (subst w7; framed).
  assert (Hn : same_field F_Date_now w2 w7) by (subst w7; framed).
  unfold same_field in Hst, Hi, Hd, Hn.
  assert (Hs' : stats w7 =
                Stats.set_combo 0
                  (Stats.set_lives (Stats.lives (stats w) - 1) (stats w)))
    by (rewrite Hs; reflexivity).
  change (state w2) with (state w) in Hst.
  change (Player.invincible (player w2)) with (Player.invincible (player w)) in Hi.
  change (damage_timeouts w2) with (damage_timeouts w) in Hd.
  change (Date_now w2) with (Date_now w) in Hn.
  clearbody w7. clear Hs. clear w2.
  assert (Hl : Stats.lives (stats w7) = (Stats.lives (stats w) - 1)%Z)
    by (rewrite Hs'; reflexivity).
  rewrite Hl.
  destruct (Stats.lives (stats w) - 1 <=? 0)%Z eqn:Hlast.
  - destruct (gameOver_facts w7) as [Gst [Gs _]].
    assert (Gi : same_field F_invincible w7 (GameEngine.gameOver w7)) by framed.
    assert (Gd : same_field F_damageTimeouts w7 (GameEngine.gameOver w7)) by framed.
    unfold same_field in Gi, Gd.
    rewrite Gst, Gs, <- Gi, <- Gd, <- Hi, <- Hd, Hs', app_nil_r.
    repeat split; try reflexivity.
    unfold damaged. rewrite Hlast. destruct (stats w); reflexivity.
  - cbn [stats state player setTimeout set_timers set_player Player.invincible
         Player.set_invincible].
    rewrite <- Hst, Hs'. repeat split; try reflexivity.
    + unfold damaged. rewrite Hlast. destruct (stats w); reflexivity.
    + unfold damage_timeouts in *. unfold setTimeout.
      cbn [timers set_timers set_player Date_now].
      rewrite filter_app, <- Hd, <- Hn. reflexivity.
Qed.

Lemma handleCollectible_stats (w : World) :
  stats (GameEngine.handleCollectible w) = collected (stats w) /\
  state (GameEngine.handleCollectible w) = state w.
Proof.
  split.
  - unfold GameEngine.handleCollectible.
    match goal with
    | |- context [set_stats (Stats.set_maxCombo ?m ?s) ?w4] =>
        set (w5 := set_stats (Stats.set_maxCombo m s) w4)
    end.
    match goal with
    | |- stats ?w' = _ => assert (H : stats w' = stats w5) by same_stats
    end.
    rewrite H. unfold collected. destruct (stats w); reflexivity.
  - assert (H : same_field F_state w (GameEngine.handleCollectible w)) by framed.
    unfold same_field in H. congruence.
Qed.

Lemma damage_timeouts_In (x : Z * Callback) (w : World) :
  In x (damage_timeouts w) -> In x (timers w).
Proof. unfold damage_timeouts. intros H. apply filter_In in H. tauto. Qed.

(** X9.  A hit costs exactly one life and resets the combo, and leaves the
    score, streak, commits and best combo alone.  With a life to spare the
    state is unchanged, the player turns invincible and the timeout that
    ends the invincibility is queued for 1500 ms later; on the last life the
    state becomes ['gameOver'], the high score becomes the larger of itself
    and the score, and no timeout is queued. *)
Theorem hit_costs_a_life_or_ends_the_game (w : World) :
  (Stats.lives (stats (GameEngine.handleDamage w)) = (Stats.lives (stats w) - 1)%Z /\
   Stats.combo (stats (GameEngine.handleDamage w)) = 0%Z /\
   Stats.score (stats (GameEngine.handleDamage w)) = Stats.score (stats w) /\
   Stats.streak (stats (GameEngine.handleDamage w)) = Stats.streak (stats w) /\
   Stats.commits (stats (GameEngine.handleDamage w)) = Stats.commits (stats w) /\
   Stats.maxCombo (stats (GameEngine.handleDamage w)) = Stats.maxCombo (stats w)) /\
  ((1 < Stats.lives (stats w))%Z ->
   state (GameEngine.handleDamage w) = state w /\
   Player.invincible (player (GameEngine.handleDamage w)) = true /\
   Stats.highScore (stats (GameEngine.handleDamage w)) = Stats.highScore (stats w) /\
   In ((Date_now w + 1500)%Z, ClearInvincible) (timers (GameEngine.handleDamage w))) /\
  ((Stats.lives (stats w) <= 1)%Z ->
   state (GameEngine.handleDamage w) = gameOver_state /\
   Stats.highScore (stats (GameEngine.handleDamage w)) =
     Z.max (Stats.highScore (stats w)) (Stats.score (stats w)) /\
   Player.invincible (player (GameEngine.handleDamage w)) =
     Player.invincible (player w) /\
   damage_timeouts (GameEngine.handleDamage w) = damage_timeouts w).
Proof.
  destruct (handleDamage_facts w) as [Hs [Hst [Hi Hd]]].
  split; [rewrite Hs; repeat split; reflexivity |]. split.
  - intros Hl. assert (Hc : (Stats.lives (stats w) - 1 <=? 0)%Z = false)
      by (apply Z.leb_gt; lia).
    rewrite Hc in Hst, Hi, Hd. rewrite Hs. unfold damaged. rewrite Hc.
    repeat split; try assumption.
    apply damage_timeouts_In. rewrite Hd. apply in_app_iff. right. left.
    reflexivity.
  - intros Hl. assert (Hc : (Stats.lives (stats w) - 1 <=? 0)%Z = true)
      by (apply Z.leb_le; lia).
    rewrite Hc in Hst, Hi, Hd. rewrite Hs. unfold damaged. rewrite Hc.
    rewrite app_nil_r in Hd. repeat split; assumption.
Qed.

Lemma hit_costs_a_life_or_ends_the_game_witness :
  (1 < Stats.lives (stats (Sample.started Original)))%Z /\
  Player.invincible
    (player (GameEngine.handleDamage (Sample.started Original))) = true.
Proof.
  split; [reflexivity |].
  exact (proj1 (proj2 (proj1 (proj2
    (hit_costs_a_life_or_ends_the_game (Sample.started Original)))
    eq_refl))).
Defined.

(** X10.  [gameOver()] makes the state ['gameOver'], raises the high score to
    the score if the score is higher and writes it to the store only then,
    and touches no other statistic; after it [update()] does nothing. *)
Theorem gameOver_records_the_high_score (w : World) :
  state (GameEngine.gameOver w) = gameOver_state /\
  stats (GameEngine.gameOver w) =
    Stats.set_highScore
      (Z.max (Stats.highScore (stats w)) (Stats.score (stats w))) (stats w) /\
  ((Stats.highScore (stats w) < Stats.score (stats w))%Z ->
   commitStreakHigh (GameEngine.gameOver w) = Some (Stats.score (stats w))) /\
  ((Stats.score (stats w) <= Stats.highScore (stats w))%Z ->
   commitStreakHigh (GameEngine.gameOver w) = commitStreakHigh w) /\
  GameEngine.update (GameEngine.gameOver w) = GameEngine.gameOver w.
Proof.
  destruct (gameOver_facts w) as [Hst [Hs Hc]].
  split; [assumption |]. split; [assumption |].
  split; [| split].
  - intros H. rewrite Hc. rewrite (proj2 (Z.gtb_lt _ _) H). reflexivity.
  - intros H. rewrite Hc.
    destruct (Z.gtb_spec (Stats.score (stats w)) (Stats.highScore (stats w)));
      [lia | reflexivity].
  - generalize dependent (GameEngine.gameOver w). intros g Hst _ _.
    unfold GameEngine.update, GameEngine.is_playing. rewrite Hst. reflexivity.
Qed.

Lemma gameOver_records_the_high_score_witness :
  (Stats.highScore (stats (GameEngine.handleCollectible (Sample.started Original))) <
   Stats.score (stats (GameEngine.handleCollectible (Sample.started Original))))%Z /\
  commitStreakHigh
    (GameEngine.gameOver (GameEngine.handleCollectible (Sample.started Original))) =
  Some (Stats.score (stats (GameEngine.handleCollectible (Sample.started Original)))).
Proof.
  split; [reflexivity |].
  exact (proj1 (proj2 (proj2
    (gameOver_records_the_high_score
       (GameEngine.handleCollectible (Sample.started Original))))) eq_refl).
Defined.

(** ** The statistics across a frame *)

Lemma before_managers_stats (w : World) :
  stats (before_managers w) =
  speed_step (frameCount w + 1) (slowmo_active w) (stats w).
Proof.
  unfold before_managers, GameEngine.updateGameSpeed.
  set (w3 := GameEngine.emitTrail (GameEngine.updatePlayer (GameEngine.advanceFrame w))).
  assert (Hs : stats w3 = stats w) by (subst w3; same_stats).
  assert (Ha : same_field F_activePowerup w w3) by (subst w3; framed).
  assert (Hf : frameCount w3 = (frameCount w + 1)%Z).
  { assert (H : same_field F_frameCount (GameEngine.advanceFrame w) w3)
      by (subst w3; framed).
    unfold same_field in H. rewrite <- H. reflexivity. }
  unfold same_field in Ha. clearbody w3.
  assert (Hs4 : stats (PowerupManager.updateEffects w3) =
                Stats.set_speedMultiplier (if slowmo_active w then 0.5 else 1)
                  (stats w)).
  { unfold PowerupManager.updateEffects, slowmo_active. rewrite Ha.
    destruct (activePowerup w3) as [[] |] eqn:E; cbn [activePowerup set_player];
      rewrite ?E; cbn [stats set_stats set_player]; rewrite Hs; reflexivity. }
  assert (Hf4 : frameCount (PowerupManager.updateEffects w3) = (frameCount w + 1)%Z).
  { assert (H : same_field F_frameCount w3 (PowerupManager.updateEffects w3))
      by framed.
    unfold same_field in H. congruence. }
  generalize dependent (PowerupManager.updateEffects w3). intros w4 Hs4 Hf4.
  rewrite Hf4. unfold speed_step.
  destruct (js_rem (frameCount w + 1) 500 =? 0)%Z; cbn [stats set_stats];
    rewrite Hs4; destruct (stats w); reflexivity.
Qed.

Lemma before_collisions_stats (w : World) :
  stats (before_collisions w) = stats (before_managers w) /\
  state (before_collisions w) = state w.
Proof.
  split.
  - apply stats_ext.
    + exact (eq_sym (before_collisions_frame F_score w ltac:(notin))).
    + exact (eq_sym (before_collisions_frame F_streak w ltac:(notin))).
    + exact (eq_sym (before_collisions_frame F_highScore w ltac:(notin))).
    + exact (eq_sym (before_collisions_frame F_lives w ltac:(notin))).
    + exact (eq_sym (before_collisions_frame F_combo w ltac:(notin))).
    + exact (eq_sym (before_collisions_frame F_maxCombo w ltac:(notin))).
    + exact (eq_sym (before_collisions_frame F_commits w ltac:(notin))).
    + exact (eq_sym (before_collisions_frame F_gameSpeed w ltac:(notin))).
    + exact (eq_sym (before_collisions_frame F_speedMultiplier w ltac:(notin))).
  - pose proof (before_collisions_frame F_state w ltac:(notin)) as H1.
    pose proof (before_managers_frame F_state w ltac:(notin)) as H2.
    unfold same_field in H1, H2. congruence.
Qed.

Lemma checkObstacle_stats (w : World) :
  stats (GameEngine.checkObstacle w) =
    (if hits_obstacle w then damaged (stats w) else stats w) /\
  state (GameEngine.checkObstacle w) =
    (if hits_obstacle w && (Stats.lives (stats w) - 1 <=? 0)%Z
     then gameOver_state else state w).
Proof.
  unfold GameEngine.checkObstacle, hits_obstacle.
  destruct (ObstacleManager.checkCollision (player w) w) as [h |];
    cbn [is_none negb andb]; [| split; reflexivity].
  destruct (Player.invincible (player w)); cbn [negb andb]; [split; reflexivity |].
  destruct (handleDamage_facts w) as [Hs [Hst _]].
  generalize dependent (GameEngine.handleDamage w). intros hd Hs Hst.
  unfold ObstacleManager.removeObstacle.
  cbn [stats state set_obstacles]. rewrite Hs, Hst. split; reflexivity.
Qed.

Lemma checkCollectible_stats (w : World) :
  stats (GameEngine.checkCollectible w) =
    (if hits_collectible w then collected (stats w) else stats w) /\
  state (GameEngine.checkCollectible w) = state w.
Proof.
  unfold GameEngine.checkCollectible, hits_collectible.
  destruct (CollectibleManager.checkCollision (player w) w) as [c |];
    cbn [is_none negb]; [| split; reflexivity].
  destruct (handleCollectible_stats w) as [Hs Hst].
  generalize dependent (GameEngine.handleCollectible w). intros hc Hs Hst.
  unfold CollectibleManager.removeCollectible.
  cbn [stats state set_collectibles]. rewrite Hs, Hst. split; reflexivity.
Qed.

Lemma checkPowerup_stats (w : World) :
  stats (GameEngine.checkPowerup w) = stats w /\
  state (GameEngine.checkPowerup w) = state w.
Proof.
  split; [same_stats |].
  assert (H : same_field F_state w (GameEngine.checkPowerup w)) by framed.
  unfold same_field in H. congruence.
Qed.

(** The statistics and the state after one frame of a running game. *)
Lemma update_stats (w : World) :
  GameEngine.is_playing w = true -> isPaused w = false ->
  let pre := before_collisions w in
  let hit := hits_obstacle pre in
  let pick := hits_collectible (GameEngine.checkObstacle pre) in
  stats (GameEngine.update w) =
    stats_after_frame (frameCount w + 1) (slowmo_active w) hit pick (stats w) /\
  state (GameEngine.update w) =
    (if hit && (Stats.lives (stats w) - 1 <=? 0)%Z then gameOver_state else playing).
Proof.
  intros Hplay Hpause. rewrite (update_playing w Hplay Hpause). cbv zeta.
  assert (Hstate : state w = playing).
  { unfold GameEngine.is_playing in Hplay. destruct (state w); congruence. }
  clear Hplay Hpause.
  pose proof (before_managers_stats w) as H0.
  destruct (before_collisions_stats w) as [Hpre Hpst].
  rewrite H0 in Hpre. unfold GameEngine.currentSpeed. rewrite H0.
  unfold before_collisions, managers in Hpre, Hpst |- *.
  unfold GameEngine.currentSpeed in Hpre, Hpst |- *. rewrite H0 in Hpre, Hpst |- *.
  match goal with
  | |- context [GameEngine.checkCollisions ?p] => generalize dependent p
  end.
  intros pre Hpre Hpst. clear H0.
  destruct (checkObstacle_stats pre) as [Ho Host].
  destruct (checkCollectible_stats (GameEngine.checkObstacle pre)) as [Hc Hcst].
  destruct (checkPowerup_stats
              (GameEngine.checkCollectible (GameEngine.checkObstacle pre)))
    as [Hp Hpst'].
  unfold GameEngine.checkCollisions.
  generalize dependent (GameEngine.checkPowerup
    (GameEngine.checkCollectible (GameEngine.checkObstacle pre))).
  intros w3 Hp Hp'.
  generalize dependent (GameEngine.checkCollectible (GameEngine.checkObstacle pre)).
  intros w2 Hc Hcst Hp Hp'.
  set (pick := hits_collectible (GameEngine.checkObstacle pre)) in *.
  generalize dependent (GameEngine.checkObstacle pre).
  intros w1 Ho Host pick Hc Hcst.
  set (hit := hits_obstacle pre) in *. clearbody hit pick.
  split.
  - unfold GameEngine.refreshUI, GameEngine.updateScore, GameEngine.updateUI, emit.
    match goal with
    | |- stats (if ?c then _ else _) = _ => destruct c
    end; cbn [stats set_stats set_effects];
      rewrite Hp, Hc, Ho, Hpre; unfold stats_after_frame; reflexivity.
  - unfold GameEngine.refreshUI, GameEngine.updateScore, GameEngine.updateUI, emit.
    match goal with
    | |- state (if ?c then _ else _) = _ => destruct c
    end; cbn [state set_stats set_effects];
      rewrite Hp', Hcst, Host, Hpre, Hpst, Hstate;
      destruct hit; reflexivity.
Qed.

(** ** Invariants of a session *)

Lemma frame_fire (f : Field) (w0 w : World) :
  ~ In f [ F_timers; F_damageTimeouts; F_player; F_invincible;
           F_activePowerup; F_effects ] ->
  same_field f w0 w -> same_field f w0 (Session.fire w).
Proof.
  unfold Session.fire. intros Hn H.
  destruct (Session.earliest (timers w)) as [[deadline cb] |]; [| assumption].
  destruct (deadline <=? Date_now w)%Z; [| assumption].
  destruct cb; cbn [Session.run_callback]; frame.
Qed.

#[export] Hint Resolve frame_fire : frame.

Lemma startGame_stats (w : World) :
  stats (GameEngine.startGame w) = initial_stats (Stats.highScore (stats w)) /\
  state (GameEngine.startGame w) = playing.
Proof.
  unfold GameEngine.startGame, GameEngine.resetGame. split.
  - set (w1 := set_stats (Stats.mk 0 0 (Stats.highScore (stats w)) 3 0 0 0 5 1) w).
    match goal with
    | |- stats ?w' = _ => assert (H : stats w' = stats w1) by same_stats
    end.
    rewrite H. reflexivity.
  - match goal with
    | |- context [set_state playing ?x] => set (w2 := set_state playing x)
    end.
    match goal with
    | |- state ?w' = _ => assert (H : same_field F_state w2 w') by framed
    end.
    unfold same_field in H. rewrite <- H. reflexivity.
Qed.

Lemma update_frameCount (w : World) :
  GameEngine.is_playing w = true -> isPaused w = false ->
  frameCount (GameEngine.update w) = (frameCount w + 1)%Z.
Proof.
  intros Hplay Hpause.
  assert (H : same_field F_frameCount (GameEngine.advanceFrame w)
                (GameEngine.update w)).
  { cbv beta delta [GameEngine.update]. rewrite Hplay, Hpause.
    cbn [negb orb]. cbv iota. framed. }
  unfold same_field in H. rewrite <- H. reflexivity.
Qed.

(** What an event does to the frame count, the statistics and the state. *)
Lemma step_stats (e : Session.Event) (w : World) :
  match e with
  | Session.Frame =>
      (GameEngine.is_playing w = true /\ isPaused w = false /\
       frameCount (Session.step e w) = (frameCount w + 1)%Z /\
       exists hit pick,
         stats (Session.step e w) =
           stats_after_frame (frameCount w + 1) (slowmo_active w) hit pick (stats w) /\
         state (Session.step e w) =
           (if hit && (Stats.lives (stats w) - 1 <=? 0)%Z
            then gameOver_state else playing)) \/
      ((GameEngine.is_playing w = false \/ isPaused w = true) /\
       Session.step e w = w)
  | Session.ClickStart =>
      frameCount (Session.step e w) = 0%Z /\
      stats (Session.step e w) = initial_stats (Stats.highScore (stats w)) /\
      state (Session.step e w) = playing
  | _ =>
      frameCount (Session.step e w) = frameCount w /\
      stats (Session.step e w) = stats w /\ state (Session.step e w) = state w
  end.
Proof.
  destruct e as [| ms | | c | |]; cbn [Session.step].
  - unfold GameEngine.gameLoop.
    destruct (GameEngine.is_playing w) eqn:Hplay.
    + destruct (isPaused w) eqn:Hpause.
      * right. split; [right; reflexivity |].
        unfold GameEngine.update. rewrite Hplay, Hpause. reflexivity.
      * left. split; [reflexivity |]. split; [reflexivity |].
        split; [apply update_frameCount; assumption |].
        destruct (update_stats w Hplay Hpause) as [Hs Hst].
        eexists. eexists. split; [exact Hs | exact Hst].
    + right. split; [left; reflexivity |].
      unfold GameEngine.update. rewrite Hplay. reflexivity.
  - repeat split; reflexivity.
  - split; [| split; [same_stats |]].
    + assert (H : same_field F_frameCount w (Session.fire w)) by framed.
      exact (eq_sym H).
    + assert (H : same_field F_state w (Session.fire w)) by framed.
      exact (eq_sym H).
  - split; [| split; [same_stats |]].
    + assert (H : same_field F_frameCount w (Input.deliver c w)) by framed.
      exact (eq_sym H).
    + assert (H : same_field F_state w (Input.deliver c w)) by framed.
      exact (eq_sym H).
  - split; [| apply startGame_stats].
    unfold GameEngine.startGame, GameEngine.resetGame.
    match goal with
    | |- context [set_frameCount 0 ?x] => set (w2 := set_frameCount 0 x)
    end.
    match goal with
    | |- frameCount ?w' = _ => assert (H : same_field F_frameCount w2 w') by framed
    end.
    unfold same_field in H. rewrite <- H. reflexivity.
  - split; [| split; [same_stats |]].
    + assert (H : same_field F_frameCount w (GameEngine.resumeGame w)) by framed.
      exact (eq_sym H).
    + assert (H : same_field F_state w (GameEngine.resumeGame w)) by framed.
      exact (eq_sym H).
Qed.

(** A property of the frame count, the statistics and the state that the
    start of a game establishes and a frame of a running game keeps holds
    throughout a session; without the start button in the session, the first
    condition is not needed. *)
Lemma session_invariant (P : Z -> Stats.t -> GameState -> Prop)
    (events : list Session.Event) :
  (forallb ordinary events = true \/
   forall f s st, P f s st -> P 0%Z (initial_stats (Stats.highScore s)) playing) ->
  (forall f s slow hit pick,
     P f s playing ->
     P (f + 1)%Z (stats_after_frame (f + 1) slow hit pick s)
       (if hit && (Stats.lives s - 1 <=? 0)%Z then gameOver_state else playing)) ->
  forall w, P (frameCount w) (stats w) (state w) ->
  P (frameCount (Session.run events w)) (stats (Session.run events w))
    (state (Session.run events w)).
Proof.
  intros Hstart Hframe.
  induction events as [| e events IH]; intros w Hw; [exact Hw |].
  unfold Session.run. cbn [fold_left].
  apply IH.
  { destruct Hstart as [Hord | Hstart]; [left | right; exact Hstart].
    cbn [forallb] in Hord. apply andb_true_iff in Hord. tauto. }
  pose proof (step_stats e w) as He.
  destruct e as [| ms | | c | |].
  - destruct He as [[Hplay [_ [Hf [hit [pick [Hs Hst]]]]]] | [_ Hsame]].
    + rewrite Hf, Hs, Hst. apply Hframe.
      unfold GameEngine.is_playing in Hplay.
      destruct (state w); try discriminate. exact Hw.
    + rewrite Hsame. exact Hw.
  - destruct He as [Hf [Hs Hst]]. rewrite Hf, Hs, Hst. exact Hw.
  - destruct He as [Hf [Hs Hst]]. rewrite Hf, Hs, Hst. exact Hw.
  - destruct He as [Hf [Hs Hst]]. rewrite Hf, Hs, Hst. exact Hw.
  - destruct He as [Hf [Hs Hst]]. rewrite Hf, Hs, Hst.
    destruct Hstart as [Hord | Hstart]; [discriminate | eauto].
  - destruct He as [Hf [Hs Hst]]. rewrite Hf, Hs, Hst. exact Hw.
Qed.

Lemma Qfloor_unique (x : Q) (k : Z) :
  inject_Z k <= x -> x < inject_Z (k + 1) -> Qfloor x = k.
Proof.
  intros Hlo Hhi.
  pose proof (Qfloor_le x) as H1. pose proof (Qlt_floor x) as H2.
  assert (A : inject_Z (Qfloor x) < inject_Z (k + 1)) by (eapply Qle_lt_trans; eauto).
  assert (B : inject_Z k < inject_Z (Qfloor x + 1)) by (eapply Qle_lt_trans; eauto).
  rewrite <- Zlt_Qlt in A, B. lia.
Qed.

(** The fields of the statistics at the end of a frame. *)
Lemma stats_after_frame_counters (frame : Z) (slow hit pick : bool) (s : Stats.t) :
  let s' := stats_after_frame frame slow hit pick s in
  Stats.lives s' = (if hit then Stats.lives s - 1 else Stats.lives s)%Z /\
  Stats.combo s' =
    (if pick then (if hit then 0 else Stats.combo s) + 1
     else if hit then 0 else Stats.combo s)%Z /\
  Stats.maxCombo s' =
    (if pick then Z.max (Stats.maxCombo s) ((if hit then 0 else Stats.combo s) + 1)
     else Stats.maxCombo s)%Z /\
  Stats.commits s' = (if pick then Stats.commits s + 1 else Stats.commits s)%Z /\
  Stats.streak s' = (if pick then Stats.streak s + 1 else Stats.streak s)%Z /\
  Stats.highScore s' =
    (if hit && (Stats.lives s - 1 <=? 0)%Z
     then Z.max (Stats.highScore s) (Stats.score s) else Stats.highScore s) /\
  Stats.gameSpeed s' =
    (if (js_rem frame 500 =? 0)%Z
     then Qmin (Stats.gameSpeed s + 0.3) 12 else Stats.gameSpeed s) /\
  Stats.speedMultiplier s' = (if slow then 0.5 else 1) /\
  Stats.score s' =
    (Stats.score s + (if pick then 100 else 0) +
     Math_floor (Stats.gameSpeed s' * Stats.speedMultiplier s' / 10))%Z.
Proof.
  destruct s as [sc st hs li co mc cm gs sm].
  unfold stats_after_frame, speed_step, damaged, collected.
  destruct hit, pick;
    cbn [Stats.score Stats.streak Stats.highScore Stats.lives Stats.combo
         Stats.maxCombo Stats.commits Stats.gameSpeed Stats.speedMultiplier
         Stats.set_score Stats.set_gameSpeed Stats.set_speedMultiplier andb];
    repeat split; try reflexivity; try lia.
Qed.

Lemma raised_speed_range (g : Q) (raise : bool) :
  5 <= g -> g <= 12 ->
  5 <= (if raise then Qmin (g + 0.3) 12 else g) /\
  (if raise then Qmin (g + 0.3) 12 else g) <= 12.
Proof.
  intros Hlo Hhi. destruct raise; [| split; assumption].
  destruct (Q.min_spec (g + 0.3) 12) as [[L E] | [L E]]; rewrite E; split; lra.
Qed.

Lemma distance_points_floor (g : Q) (slow : bool) :
  5 <= g -> g <= 12 ->
  Math_floor (g * (if slow then 0.5 else 1) / 10) = distance_points g slow.
Proof.
  intros Hlo Hhi. unfold Math_floor, distance_points. destruct slow.
  - apply Qfloor_unique.
    + change (inject_Z 0) with 0. apply Qle_shift_div_l; lra.
    + change (inject_Z (0 + 1)) with 1. apply Qlt_shift_div_r; lra.
  - destruct (Qle_bool 10 g) eqn:E.
    + apply Qle_bool_iff in E. apply Qfloor_unique.
      * change (inject_Z 1) with 1. apply Qle_shift_div_l; lra.
      * change (inject_Z (1 + 1)) with 2. apply Qlt_shift_div_r; lra.
    + assert (Hlt : g < 10).
      { apply Qnot_le_lt. intros H. apply Qle_bool_iff in H. congruence. }
      apply Qfloor_unique.
      * change (inject_Z 0) with 0. apply Qle_shift_div_l; lra.
      * change (inject_Z (0 + 1)) with 1. apply Qlt_shift_div_r; lra.
Qed.

(** X11.  Throughout a session, whatever the player does and however often
    the game is restarted, the lives stay between 0 and 3, a running game has
    at least one life left, and a game that is over has none. *)
Theorem lives_stay_in_range (events : list Session.Event) (w : World) :
  lives_in_range (stats w) (state w) ->
  lives_in_range (stats (Session.run events w)) (state (Session.run events w)).
Proof.
  intros Hw.
  apply (session_invariant (fun _ s st => lives_in_range s st) events);
    [right | | exact Hw].
  - intros _ s st _. unfold lives_in_range, initial_stats.
    cbn [Stats.lives]. repeat split; try lia. discriminate.
  - intros f s slow hit pick [Hr [Hp _]].
    specialize (Hp eq_refl).
    destruct (stats_after_frame_counters (f + 1) slow hit pick s) as [Hl _].
    unfold lives_in_range. rewrite Hl.
    destruct hit; cbn [andb].
    + destruct (Z.leb_spec (Stats.lives s - 1) 0); repeat split;
        try lia; try discriminate.
    + repeat split; try lia; discriminate.
Qed.

Lemma lives_stay_in_range_witness :
  lives_in_range
    (stats (Session.run [Session.ClickStart; Session.Frame] (Sample.fresh Original)))
    (state (Session.run [Session.ClickStart; Session.Frame] (Sample.fresh Original))).
Proof.
  apply (lives_stay_in_range [Session.ClickStart; Session.Frame]
           (Sample.fresh Original)).
  unfold lives_in_range. cbn. repeat split; try lia; discriminate.
Defined.

(** X12.  Throughout a session the pickup counters agree: the combo is never
    negative and never above the best combo, the best combo is never above
    the number of commits, and the streak equals the number of commits. *)
Theorem pickup_counters_agree (events : list Session.Event) (w : World) :
  counters_agree (stats w) ->
  counters_agree (stats (Session.run events w)).
Proof.
  intros Hw.
  apply (session_invariant (fun _ s _ => counters_agree s) events);
    [right | | exact Hw].
  - intros _ s st _. unfold counters_agree, initial_stats.
    cbn [Stats.combo Stats.maxCombo Stats.commits Stats.streak]. lia.
  - intros f s slow hit pick [Hc [Hm Hs]].
    destruct (stats_after_frame_counters (f + 1) slow hit pick s)
      as [_ [Hco [Hmc [Hcm [Hst _]]]]].
    unfold counters_agree. rewrite Hco, Hmc, Hcm, Hst.
    destruct hit, pick; lia.
Qed.

Lemma pickup_counters_agree_witness :
  counters_agree
    (stats (Session.run [Session.ClickStart; Session.Frame] (Sample.fresh Enhanced))).
Proof.
  apply (pickup_counters_agree [Session.ClickStart; Session.Frame]
           (Sample.fresh Enhanced)).
  unfold counters_agree. cbn. lia.
Defined.

Lemma scheduled_speed_step (f : Z) (g : Q) :
  (0 <= f)%Z -> g == scheduled_speed f ->
  (if (js_rem (f + 1) 500 =? 0)%Z then Qmin (g + 0.3) 12 else g) ==
  scheduled_speed (f + 1).
Proof.
  intros Hf Hg. unfold js_rem. rewrite Z.rem_mod_nonneg by lia.
  pose proof (Z.div_mod f 500 ltac:(lia)) as D1.
  pose proof (Z.mod_pos_bound f 500 ltac:(lia)) as B1.
  pose proof (Z.div_mod (f + 1) 500 ltac:(lia)) as D2.
  pose proof (Z.mod_pos_bound (f + 1) 500 ltac:(lia)) as B2.
  unfold scheduled_speed in *.
  destruct (Z.eqb_spec ((f + 1) mod 500) 0) as [E | E].
  - assert (Hq : ((f + 1) / 500 = f / 500 + 1)%Z) by lia.
    rewrite Hq, inject_Z_plus. change (inject_Z 1) with 1.
    destruct (Q.min_spec (g + 0.3) 12) as [[L1 E1] | [L1 E1]];
      destruct (Q.min_spec 12 (5 + 0.3 * inject_Z (f / 500))) as [[L2 E2] | [L2 E2]];
      destruct (Q.min_spec 12 (5 + 0.3 * (inject_Z (f / 500) + 1)))
        as [[L3 E3] | [L3 E3]];
      rewrite E1, E3; rewrite E2 in Hg; lra.
  - assert (Hq : ((f + 1) / 500 = f / 500)%Z) by lia.
    rewrite Hq. exact Hg.
Qed.

Lemma scheduled_speed_range (f : Z) :
  (0 <= f)%Z -> 5 <= scheduled_speed f /\ scheduled_speed f <= 12.
Proof.
  intros Hf. unfold scheduled_speed.
  assert (Hq : 0 <= inject_Z (f / 500)).
  { change 0 with (inject_Z 0). rewrite <- Zle_Qle.
    apply Z.div_pos; lia. }
  destruct (Q.min_spec 12 (5 + 0.3 * inject_Z (f / 500))) as [[L E] | [L E]];
    rewrite E; split; lra.
Qed.

(** In exact arithmetic the base speed is a function of the frame count: in
    a session that begins where
    [gameSpeed = min(12, 5 + 0.3 * floor(frameCount / 500))], the equation
    holds after every event. *)
Lemma speed_schedule (events : list Session.Event) (w : World) :
  (0 <= frameCount w)%Z ->
  Stats.gameSpeed (stats w) == scheduled_speed (frameCount w) ->
  Stats.speedMultiplier (stats w) = 1 \/ Stats.speedMultiplier (stats w) = 0.5 ->
  (0 <= frameCount (Session.run events w))%Z /\
  Stats.gameSpeed (stats (Session.run events w)) ==
    scheduled_speed (frameCount (Session.run events w)) /\
  sane_speed (stats (Session.run events w)).
Proof.
  intros Hf Hg Hm.
  assert (H : (0 <= frameCount (Session.run events w))%Z /\
              Stats.gameSpeed (stats (Session.run events w)) ==
                scheduled_speed (frameCount (Session.run events w)) /\
              (Stats.speedMultiplier (stats (Session.run events w)) = 1 \/
               Stats.speedMultiplier (stats (Session.run events w)) = 0.5)).
  { apply (session_invariant
             (fun f s _ => (0 <= f)%Z /\ Stats.gameSpeed s == scheduled_speed f /\
                           (Stats.speedMultiplier s = 1 \/
                            Stats.speedMultiplier s = 0.5)) events);
      [right | | auto].
    - intros _ s _ _. split; [lia |]. split; [reflexivity | left; reflexivity].
    - intros f s slow hit pick [Hf' [Hg' _]].
      destruct (stats_after_frame_counters (f + 1) slow hit pick s)
        as [_ [_ [_ [_ [_ [_ [Hgs [Hsm _]]]]]]]].
      rewrite Hgs, Hsm. split; [lia |]. split.
      + apply scheduled_speed_step; assumption.
      + destruct slow; auto. }
  destruct H as [H1 [H2 H3]]. split; [exact H1 |]. split; [exact H2 |].
  destruct (scheduled_speed_range _ H1) as [Hlo Hhi].
  unfold sane_speed. rewrite H2. auto.
Qed.

(** X14.  Frames, the clock, timers, key presses, touches and the start and
    resume buttons never lower the high score, in whatever order they come
    (the button that resets the progress, which is not among them, sets it
    to 0).  Without the start button among them they never lower the score
    either, provided the base speed is in its range from 5 to 12. *)
Theorem score_and_high_score_never_drop (events : list Session.Event) (w : World) :
  (Stats.highScore (stats w) <= Stats.highScore (stats (Session.run events w)))%Z /\
  (forallb ordinary events = true ->
   5 <= Stats.gameSpeed (stats w) /\ Stats.gameSpeed (stats w) <= 12 ->
   (Stats.score (stats w) <= Stats.score (stats (Session.run events w)))%Z).
Proof.
  split.
  - apply (session_invariant
             (fun _ s _ => (Stats.highScore (stats w) <= Stats.highScore s)%Z)
             events); [right | | lia].
    + intros _ s _ H. exact H.
    + intros f s slow hit pick H.
      destruct (stats_after_frame_counters (f + 1) slow hit pick s)
        as [_ [_ [_ [_ [_ [Hhs _]]]]]].
      rewrite Hhs. destruct (hit && _); lia.
  - intros Hord Hg.
    assert (H : (5 <= Stats.gameSpeed (stats (Session.run events w)) /\
                 Stats.gameSpeed (stats (Session.run events w)) <= 12) /\
                (Stats.score (stats w) <= Stats.score (stats (Session.run events w)))%Z).
    { apply (session_invariant
               (fun _ s _ => (5 <= Stats.gameSpeed s /\ Stats.gameSpeed s <= 12) /\
                             (Stats.score (stats w) <= Stats.score s)%Z)
               events); [left; exact Hord | | split; [exact Hg | lia]].
      intros f s slow hit pick [[Hlo Hhi] Hsc].
      destruct (stats_after_frame_counters (f + 1) slow hit pick s)
        as [_ [_ [_ [_ [_ [_ [Hgs [Hsm Hscore]]]]]]]].
      pose proof (raised_speed_range (Stats.gameSpeed s)
                    (js_rem (f + 1) 500 =? 0)%Z Hlo Hhi) as Hr.
      rewrite <- Hgs in Hr. split; [exact Hr |].
      rewrite Hscore, Hsm.
      rewrite (distance_points_floor _ slow (proj1 Hr) (proj2 Hr)).
      unfold distance_points.
      destruct pick, slow; try destruct (Qle_bool 10 _); lia. }
    exact (proj2 H).
Qed.

Lemma score_and_high_score_never_drop_witness :
  (Stats.score (stats (Sample.started Original)) <=
   Stats.score
     (stats (Session.run [Session.Frame; Session.Frame] (Sample.started Original))))%Z.
Proof.
  apply (score_and_high_score_never_drop [Session.Frame; Session.Frame]
           (Sample.started Original)).
  - reflexivity.
  - split; discriminate.
Defined.

(** X15.  The score of one frame of a running game: 100 for a collectible
    picked up in the frame, plus the points for the distance, which are
    [floor(speed / 10)] at the speed the frame has just set: one point when
    the base speed has reached 10 and slow motion is off, nothing otherwise.
    Below speed 10 only pickups score. *)
Theorem frame_scores_pickup_and_distance (w : World) :
  GameEngine.is_playing w = true -> isPaused w = false ->
  5 <= Stats.gameSpeed (stats w) /\ Stats.gameSpeed (stats w) <= 12 ->
  Stats.score (stats (GameEngine.update w)) =
  (Stats.score (stats w) +
   (if hits_collectible (GameEngine.checkObstacle (before_collisions w))
    then 100 else 0) +
   distance_points (Stats.gameSpeed (stats (GameEngine.update w)))
     (slowmo_active w))%Z.
Proof.
  intros Hplay Hpause [Hlo Hhi].
  destruct (update_stats w Hplay Hpause) as [Hs _].
  generalize dependent (GameEngine.update w). intros w' Hs. rewrite Hs.
  destruct (stats_after_frame_counters (frameCount w + 1) (slowmo_active w)
              (hits_obstacle (before_collisions w))
              (hits_collectible (GameEngine.checkObstacle (before_collisions w)))
              (stats w))
    as [_ [_ [_ [_ [_ [_ [Hgs [Hsm Hscore]]]]]]]].
  pose proof (raised_speed_range (Stats.gameSpeed (stats w))
                (js_rem (frameCount w + 1) 500 =? 0)%Z Hlo Hhi) as Hr.
  rewrite <- Hgs in Hr.
  rewrite Hscore, Hsm.
  rewrite (distance_points_floor _ _ (proj1 Hr) (proj2 Hr)). reflexivity.
Qed.

Lemma frame_scores_pickup_and_distance_witness :
  Stats.score (stats (GameEngine.update (Sample.started Original))) =
  (Stats.score (stats (Sample.started Original)) +
   (if hits_collectible
         (GameEngine.checkObstacle (before_collisions (Sample.started Original)))
    then 100 else 0) +
   distance_points
     (Stats.gameSpeed (stats (GameEngine.update (Sample.started Original))))
     (slowmo_active (Sample.started Original)))%Z.
Proof.
  apply (frame_scores_pickup_and_distance (Sample.started Original)).
  - reflexivity.
  - reflexivity.
  - split; discriminate.
Defined.

(** ** The last frame of a game, and the time between games *)

(** X16.  The hit that takes the last life ends the game in the middle of a
    frame, and the frame goes on: the state is ['gameOver'] and no life is
    left, the high score was fixed at the moment of the hit, as the larger of
    the old high score and the score before this frame, and a collectible
    touched in the same frame and the points for the distance are still added
    to the score afterwards.  So the final score exceeds the recorded high
    score whenever the old high score was not above the score and the frame
    picked up a collectible. *)
Theorem final_frame_scores_after_the_high_score (w : World) :
  GameEngine.is_playing w = true -> isPaused w = false ->
  Stats.lives (stats w) = 1%Z ->
  hits_obstacle (before_collisions w) = true ->
  5 <= Stats.gameSpeed (stats w) /\ Stats.gameSpeed (stats w) <= 12 ->
  state (GameEngine.update w) = gameOver_state /\
  Stats.lives (stats (GameEngine.update w)) = 0%Z /\
  Stats.highScore (stats (GameEngine.update w)) =
    Z.max (Stats.highScore (stats w)) (Stats.score (stats w)) /\
  Stats.score (stats (GameEngine.update w)) =
    (Stats.score (stats w) +
     (if hits_collectible (GameEngine.checkObstacle (before_collisions w))
      then 100 else 0) +
     distance_points (Stats.gameSpeed (stats (GameEngine.update w)))
       (slowmo_active w))%Z /\
  ((Stats.highScore (stats w) <= Stats.score (stats w))%Z ->
   hits_collectible (GameEngine.checkObstacle (before_collisions w)) = true ->
   (Stats.highScore (stats (GameEngine.update w)) <
    Stats.score (stats (GameEngine.update w)))%Z).
Proof.
  intros Hplay Hpause Hlives Hhit [Hlo Hhi].
  destruct (update_stats w Hplay Hpause) as [Hs Hst].
  rewrite Hhit in Hs, Hst. rewrite Hlives in Hst.
  generalize dependent (GameEngine.update w). intros w' Hs Hst.
  destruct (stats_after_frame_counters (frameCount w + 1) (slowmo_active w) true
              (hits_collectible (GameEngine.checkObstacle (before_collisions w)))
              (stats w))
    as [Hl [_ [_ [_ [_ [Hhs [Hgs [Hsm Hscore]]]]]]]].
  rewrite <- Hs in Hl, Hhs, Hgs, Hsm, Hscore. clear Hs.
  pose proof (raised_speed_range (Stats.gameSpeed (stats w))
                (js_rem (frameCount w + 1) 500 =? 0)%Z Hlo Hhi) as Hr.
  rewrite <- Hgs in Hr.
  rewrite Hsm, (distance_points_floor _ _ (proj1 Hr) (proj2 Hr)) in Hscore.
  rewrite Hlives in Hl, Hhs. cbn [andb Z.sub Z.leb Z.compare Z.add Z.opp Z.pos_sub]
    in Hl, Hhs.
  split; [exact Hst |]. split; [exact Hl |]. split; [exact Hhs |].
  split; [exact Hscore |].
  intros Hle Hpick. rewrite Hhs, Hscore, Hpick.
  unfold distance_points.
  destruct (slowmo_active w); try destruct (Qle_bool 10 _); lia.
Qed.

Lemma final_frame_scores_after_the_high_score_witness :
  (Stats.highScore (stats (GameEngine.update (last_life Original))) <
   Stats.score (stats (GameEngine.update (last_life Original))))%Z.
Proof.
  refine (proj2 (proj2 (proj2 (proj2
    (final_frame_scores_after_the_high_score (last_life Original)
       eq_refl eq_refl eq_refl _ _)))) _ _).
  - lazy. reflexivity.
  - split; discriminate.
  - discriminate.
  - lazy. reflexivity.
Defined.

Lemma fire_stance (w : World) :
  stance (player (Session.fire w)) = stance (player w).
Proof.
  unfold Session.fire.
  destruct (Session.earliest (timers w)) as [[deadline cb] |]; [| reflexivity].
  destruct (deadline <=? Date_now w)%Z; [| reflexivity].
  destruct cb; reflexivity.
Qed.

(** While no game is running, or the game is paused, input does nothing but
    log effects and, for the pause key, clear the pause flag. *)
Lemma deliver_stopped (f : Field) (c : Input.Command) (w : World) :
  negb (GameEngine.is_playing w) || isPaused w = true ->
  ~ In f [F_effects; F_isPaused] -> same_field f w (Input.deliver c w).
Proof.
  intros Hstop Hn.
  assert (Hst : forall e1 e2,
             GameEngine.is_playing (emit e1 (emit e2 w)) &&
             negb (isPaused (emit e1 (emit e2 w))) = false).
  { intros. change (GameEngine.is_playing w && negb (isPaused w) = false).
    destruct (GameEngine.is_playing w), (isPaused w); try reflexivity.
    discriminate. }
  destruct c; cbn [Input.deliver].
  - unfold Input.keydown. rewrite Hstop.
    destruct (Input.is_pause_key key); [| apply same_field_refl].
    destruct (isPaused w); [| apply same_field_refl]. frame.
  - cbv beta delta [Input.jumpBtn_touchstart].
    destruct (Input.touch_enabled w); [| apply same_field_refl].
    cbv zeta. rewrite Hst. cbn [andb]. frame.
  - cbv beta delta [Input.slideBtn_touchstart].
    destruct (Input.touch_enabled w); [| apply same_field_refl].
    cbv zeta. rewrite Hst. cbn [andb]. frame.
  - unfold Input.canvas_touchstart. rewrite Hstop.
    destruct (Input.touch_enabled w); apply same_field_refl.
  - unfold Input.canvas_touchmove. rewrite Hstop.
    destruct (Input.touch_enabled w); apply same_field_refl.
  - unfold Input.canvas_touchend. rewrite Hstop.
    destruct (Input.touch_enabled w); apply same_field_refl.
Qed.

Lemma deliver_not_playing (f : Field) (c : Input.Command) (w : World) :
  GameEngine.is_playing w = false ->
  ~ In f [F_effects; F_isPaused] -> same_field f w (Input.deliver c w).
Proof.
  intros Hplay. apply deliver_stopped. rewrite Hplay. reflexivity.
Qed.

Lemma step_idle (e : Session.Event) (w : World) :
  GameEngine.is_playing w = false -> ordinary e = true ->
  (forall f, ~ In f idle_footprint -> same_field f w (Session.step e w)) /\
  stance (player (Session.step e w)) = stance (player w).
Proof.
  intros Hplay He. unfold idle_footprint.
  destruct e as [| ms | | c | |]; try discriminate; cbn [Session.step].
  - unfold GameEngine.gameLoop, GameEngine.update. rewrite Hplay. cbn [negb orb].
    split; [intros; apply same_field_refl | reflexivity].
  - split; [intros; frame | reflexivity].
  - split; [intros; frame | apply fire_stance].
  - split.
    + intros f Hf. apply deliver_not_playing; [assumption | notin].
    + assert (H : same_field F_player w (Input.deliver c w))
        by (apply deliver_not_playing; [assumption | notin]).
      unfold same_field in H. rewrite <- H. reflexivity.
  - split; [intros; frame |].
    assert (H : same_field F_player w (GameEngine.resumeGame w)) by framed.
    unfold same_field in H. rewrite <- H. reflexivity.
Qed.

(** X17.  Before the first game and after a game is over, frames, the
    clock, timers, key presses, touches and the resume button do not change
    the game: whatever of these arrive, and in whatever order, the state, the
    frame count, every statistic, the obstacles, collectibles, power-ups and
    particles stay as they are, and so does the player except for its
    invincibility flag; these events write nothing but the clock, the timer
    queue, the active power-up, the log of effects and the pause flag.  (The
    start button, the settings toggles and the button that resets the
    progress are not among these events.) *)
Theorem stopped_game_ignores_frames_input_and_timers
    (events : list Session.Event) (w : World) :
  GameEngine.is_playing w = false ->
  forallb ordinary events = true ->
  (forall f, ~ In f idle_footprint -> same_field f w (Session.run events w)) /\
  stance (player (Session.run events w)) = stance (player w).
Proof.
  revert w. induction events as [| e events IH]; intros w Hplay Hord.
  - split; [intros; apply same_field_refl | reflexivity].
  - cbn [forallb] in Hord. apply andb_true_iff in Hord as [He Hrest].
    destruct (step_idle e w Hplay He) as [Hf Hp].
    assert (Hplay' : GameEngine.is_playing (Session.step e w) = false).
    { pose proof (Hf F_state ltac:(unfold idle_footprint; notin)) as Hst.
      unfold same_field in Hst. unfold GameEngine.is_playing in *.
      rewrite <- Hst. exact Hplay. }
    unfold Session.run. cbn [fold_left].
    destruct (IH (Session.step e w) Hplay' Hrest) as [Hf' Hp'].
    split.
    + intros f Hn. eapply same_field_trans; [apply Hf | apply Hf']; exact Hn.
    + unfold Session.run in Hp'. rewrite Hp'. exact Hp.
Qed.

Lemma stopped_game_ignores_frames_input_and_timers_witness :
  same_field F_score (Sample.fresh Enhanced)
    (Session.run [Session.Act (Input.KeyDown "ArrowUp"); Session.Frame]
       (Sample.fresh Enhanced)).
Proof.
  refine (proj1 (stopped_game_ignores_frames_input_and_timers
            [Session.Act (Input.KeyDown "ArrowUp"); Session.Frame]
            (Sample.fresh Enhanced) eq_refl eq_refl) F_score _).
  unfold idle_footprint. notin.
Defined.

Lemma playSound_timers (t : Z * Callback) (type : string) (w : World) :
  In t (timers w) -> In t (timers (GameEngine.playSound type w)).
Proof.
  intros H. unfold GameEngine.playSound.
  destruct (negb (Settings.sound (settings w))); [exact H |].
  destruct (revision w); [exact H |].
  unfold setTimeout, emit. cbn [timers set_timers set_effects].
  apply in_app_iff. left. exact H.
Qed.

Lemma startGame_frameCount (w : World) :
  frameCount (GameEngine.startGame w) = 0%Z.
Proof.
  unfold GameEngine.startGame, GameEngine.resetGame.
  match goal with
  | |- context [set_frameCount 0 ?x] => set (w2 := set_frameCount 0 x)
  end.
  match goal with
  | |- frameCount ?w' = _ => assert (H : same_field F_frameCount w2 w') by framed
  end.
  unfold same_field in H. rewrite <- H. reflexivity.
Qed.

(** The value of a part [F] at the end of a chain of calls is the one it has
    at the intermediate world [t], when the calls after [t] leave it alone. *)
Ltac settled_at F t :=
  let H := fresh "H" in
  let x := fresh "mid" in
  set (x := t);
  lazymatch goal with
  | |- _ ?w' = _ =>
      assert (H : same_field F x w') by framed;
      unfold same_field in H; rewrite <- H; reflexivity
  end.

(** X18.  The start and restart buttons reset the game and nothing else:
    [startGame()] puts every statistic but the high score back to its
    initial value, sets the state to ['playing'] and the frame count to 0,
    empties the obstacles, collectibles, power-ups and particles, drops the
    active power-up, and puts the player back on its initial spot, at rest
    and vulnerable.  It keeps the player's height (a restart in the middle
    of a slide leaves the player 16 high), the pause flag, every pending
    timer, the camera, the settings, the unlocked achievements and the
    stored high score. *)
Theorem startGame_resets_the_game_and_nothing_else (w : World) :
  (stats (GameEngine.startGame w) = initial_stats (Stats.highScore (stats w)) /\
   state (GameEngine.startGame w) = playing /\
   frameCount (GameEngine.startGame w) = 0%Z /\
   obstacles (GameEngine.startGame w) = [] /\
   collectibles (GameEngine.startGame w) = [] /\
   powerups (GameEngine.startGame w) = [] /\
   particles (GameEngine.startGame w) = [] /\
   activePowerup (GameEngine.startGame w) = None /\
   player (GameEngine.startGame w) = Player.reset (player w)) /\
  (Player.height (player (GameEngine.startGame w)) = Player.height (player w) /\
   isPaused (GameEngine.startGame w) = isPaused w /\
   (forall t, In t (timers w) -> In t (timers (GameEngine.startGame w))) /\
   camera (GameEngine.startGame w) = camera w /\
   settings (GameEngine.startGame w) = settings w /\
   unlocked (GameEngine.startGame w) = unlocked w /\
   commitStreakHigh (GameEngine.startGame w) = commitStreakHigh w).
Proof.
  destruct (startGame_stats w) as [Hs Hst].
  assert (Hplayer : player (GameEngine.startGame w) = Player.reset (player w)).
  { unfold GameEngine.startGame, GameEngine.resetGame.
    match goal with
    | |- context [set_player ?p ?x] => settled_at F_player (set_player p x)
    end. }
  split.
  - split; [exact Hs |]. split; [exact Hst |].
    split; [apply startGame_frameCount |].
    repeat split; try exact Hplayer;
      unfold GameEngine.startGame, GameEngine.resetGame.
    + match goal with
      | |- context [ObstacleManager.reset ?x] =>
          settled_at F_obstacles (ObstacleManager.reset x)
      end.
    + match goal with
      | |- context [CollectibleManager.reset ?x] =>
          settled_at F_collectibles (CollectibleManager.reset x)
      end.
    + match goal with
      | |- context [PowerupManager.reset ?x] =>
          settled_at F_powerups (PowerupManager.reset x)
      end.
    + match goal with
      | |- context [ParticleSystem.reset ?x] =>
          settled_at F_particles (ParticleSystem.reset x)
      end.
    + match goal with
      | |- context [PowerupManager.reset ?x] =>
          settled_at F_activePowerup (PowerupManager.reset x)
      end.
  - split; [rewrite Hplayer; reflexivity |].
    clear Hs Hst Hplayer.
    unfold GameEngine.startGame, GameEngine.resetGame.
    set (w1 := set_stats (Stats.mk 0 0 (Stats.highScore (stats w)) 3 0 0 0 5 1) w).
    split.
    { match goal with
      | |- _ ?w' = _ => assert (H : same_field F_isPaused w1 w') by framed
      end.
      exact (eq_sym H). }
    split.
    { intros t Ht. apply playSound_timers.
      match goal with
      | |- In t (timers ?x) =>
          assert (H : same_field F_timers w1 x) by (clear Ht; framed)
      end.
      unfold same_field in H. rewrite <- H. exact Ht. }
    repeat split.
    + match goal with
      | |- _ ?w' = _ => assert (H : same_field F_camera w1 w') by framed
      end.
      exact (eq_sym H).
    + match goal with
      | |- _ ?w' = _ => assert (H : same_field F_settings w1 w') by framed
      end.
      exact (eq_sym H).
    + match goal with
      | |- _ ?w' = _ => assert (H : same_field F_unlocked w1 w') by framed
      end.
      exact (eq_sym H).
    + match goal with
      | |- _ ?w' = _ => assert (H : same_field F_commitStreakHigh w1 w') by framed
      end.
      exact (eq_sym H).
Qed.

(** ** Pausing *)

Lemma pause_key_only (key : string) :
  Input.is_pause_key key = true ->
  Input.is_jump_key key = false /\ Input.is_slide_key key = false.
Proof.
  unfold Input.is_jump_key, Input.is_slide_key, Input.is_pause_key.
  intros H.
  repeat match goal with
         | |- context [String.eqb key ?s] => destruct (String.eqb_spec key s)
         | H : context [String.eqb key ?s] |- _ => destruct (String.eqb_spec key s)
         end; subst; try discriminate; auto.
Qed.

(** The pause key in a running game flips the pause flag and logs the
    overlay; it touches nothing else. *)
Lemma pause_key_toggles (key : string) (w : World) :
  GameEngine.is_playing w = true -> Input.is_pause_key key = true ->
  isPaused (Input.keydown key w) = negb (isPaused w) /\
  forall f, ~ In f [F_isPaused; F_effects] -> same_field f w (Input.keydown key w).
Proof.
  intros Hplay Hkey. destruct (pause_key_only key Hkey) as [Hj Hs].
  unfold Input.keydown. rewrite Hplay, Hkey, Hj, Hs. cbn [negb orb andb].
  destruct (isPaused w) eqn:Hp.
  - split; [reflexivity | intros; frame].
  - unfold GameEngine.pauseGame. rewrite Hplay.
    split; [reflexivity | intros; frame].
Qed.

Lemma step_paused (e : Session.Event) (w : World) :
  isPaused w = true -> keeps_pause e = true ->
  isPaused (Session.step e w) = true /\
  (forall f, ~ In f idle_footprint -> same_field f w (Session.step e w)) /\
  stance (player (Session.step e w)) = stance (player w).
Proof.
  intros Hp He. unfold idle_footprint.
  assert (Hstop : negb (GameEngine.is_playing w) || isPaused w = true)
    by (rewrite Hp; apply orb_true_r).
  destruct e as [| ms | | c | |]; try discriminate; cbn [Session.step].
  - unfold GameEngine.gameLoop, GameEngine.update. rewrite Hstop.
    split; [exact Hp |]. split; [intros; apply same_field_refl | reflexivity].
  - split; [exact Hp |]. split; [intros; frame | reflexivity].
  - split; [| split; [intros; frame | apply fire_stance]].
    assert (H : same_field F_isPaused w (Session.fire w)) by framed.
    unfold same_field in H. congruence.
  - split; [| split].
    + destruct c as [key | | | x y | | x y];
        try (match goal with
             | |- isPaused (Input.deliver ?c w) = true =>
                 assert (H : same_field F_isPaused w (Input.deliver c w))
                   by (clear Hstop He; cbn [Input.deliver]; framed);
                 unfold same_field in H; congruence
             end).
      cbn [keeps_pause] in He. apply negb_true_iff in He.
      cbn [Input.deliver]. unfold Input.keydown. rewrite Hstop, He. exact Hp.
    + intros f Hf. apply deliver_stopped; [assumption | notin].
    + assert (H : same_field F_player w (Input.deliver c w))
        by (apply deliver_stopped; [assumption | notin]).
      unfold same_field in H. rewrite <- H. reflexivity.
Qed.

(** X19.  A pause freezes the game.  When the pause key ([Escape], [p] or
    [P]) is pressed in a running game, the pause flag is set; from then on
    frames, key presses, touches and timers leave the flag set and the game
    as it was when the key was pressed: the state, the frame count, every
    statistic, all obstacles, collectibles, power-ups and particles, and the
    player except for its invincibility flag.  Only the clock, the timers and
    what their callbacks write go on.  The pause key pressed again clears
    the flag. *)
Theorem pause_freezes_the_game
    (key : string) (events : list Session.Event) (w : World) :
  GameEngine.is_playing w = true -> isPaused w = false ->
  Input.is_pause_key key = true ->
  forallb keeps_pause events = true ->
  isPaused (Session.run events (Input.keydown key w)) = true /\
  (forall f, ~ In f idle_footprint ->
             same_field f w (Session.run events (Input.keydown key w))) /\
  stance (player (Session.run events (Input.keydown key w))) = stance (player w) /\
  isPaused (Input.keydown key (Session.run events (Input.keydown key w))) = false.
Proof.
  intros Hplay Hpause Hkey Hev.
  destruct (pause_key_toggles key w Hplay Hkey) as [Hflag Hsame].
  rewrite Hpause in Hflag. cbn [negb] in Hflag.
  assert (Hplayer : stance (player (Input.keydown key w)) = stance (player w)).
  { pose proof (Hsame F_player ltac:(notin)) as H. unfold same_field in H.
    rewrite <- H. reflexivity. }
  assert (Hbase : forall f, ~ In f idle_footprint ->
                            same_field f w (Input.keydown key w)).
  { intros f Hf. apply Hsame. unfold idle_footprint in Hf. notin. }
  clear Hsame.
  generalize dependent (Input.keydown key w). intros p Hflag Hplayer Hbase.
  assert (Hrun : isPaused (Session.run events p) = true /\
                 (forall f, ~ In f idle_footprint ->
                            same_field f w (Session.run events p)) /\
                 stance (player (Session.run events p)) = stance (player w)).
  { clear Hplay Hpause Hkey.
    revert p Hflag Hplayer Hbase.
    induction events as [| e events IH]; intros p Hflag Hplayer Hbase.
    - auto.
    - cbn [forallb] in Hev. apply andb_true_iff in Hev as [He Hrest].
      destruct (step_paused e p Hflag He) as [Hflag' [Hf' Hp']].
      unfold Session.run. cbn [fold_left].
      apply (IH Hrest).
      + exact Hflag'.
      + congruence.
      + intros f Hf. eapply same_field_trans; [apply Hbase | apply Hf']; exact Hf. }
  destruct Hrun as [R1 [R2 R3]].
  split; [exact R1 |]. split; [exact R2 |]. split; [exact R3 |].
  assert (Hplay' : GameEngine.is_playing (Session.run events p) = true).
  { pose proof (R2 F_state ltac:(unfold idle_footprint; notin)) as H.
    unfold same_field in H. unfold GameEngine.is_playing in *.
    rewrite <- H. exact Hplay. }
  destruct (pause_key_toggles key _ Hplay' Hkey) as [Hflag2 _].
  rewrite Hflag2, R1. reflexivity.
Qed.

Lemma pause_freezes_the_game_witness :
  same_field F_frameCount (Sample.started Original)
    (Session.run [Session.Frame; Session.Act (Input.KeyDown "ArrowUp")]
       (Input.keydown "p" (Sample.started Original))).
Proof.
  refine (proj1 (proj2 (pause_freezes_the_game "p"
            [Session.Frame; Session.Act (Input.KeyDown "ArrowUp")]
            (Sample.started Original) eq_refl eq_refl eq_refl eq_refl))
          F_frameCount _).
  unfold idle_footprint. notin.
Defined.

(** ** Power-up timers *)

Lemma earliest_app (l : list (Z * Callback)) (t : Z * Callback) :
  Session.earliest (l ++ [t]) =
  match Session.earliest l with
  | Some e => if (fst t <? fst e)%Z then Some t else Some e
  | None => Some t
  end.
Proof.
  induction l as [| a l IH]; [reflexivity |].
  cbn [app Session.earliest]. rewrite IH.
  destruct (Session.earliest l) as [e |].
  - destruct (Z.ltb_spec (fst t) (fst e)), (Z.ltb_spec (fst e) (fst a));
      repeat match goal with
             | |- context [(?x <? ?y)%Z] => destruct (Z.ltb_spec x y)
             end; try reflexivity; lia.
  - destruct (Z.ltb_spec (fst t) (fst a)); reflexivity.
Qed.

Lemma drop_earliest_app (l : list (Z * Callback)) (t e : Z * Callback) :
  Session.earliest l = Some e -> (fst e <= fst t)%Z ->
  Session.drop_earliest (l ++ [t]) = Session.drop_earliest l ++ [t].
Proof.
  revert e. induction l as [| a l IH]; intros e He Hle; [discriminate |].
  cbn [app Session.earliest Session.drop_earliest] in *.
  rewrite earliest_app.
  destruct (Session.earliest l) as [e' |] eqn:E.
  - destruct (Z.ltb_spec (fst e') (fst a)); injection He as <-;
      repeat match goal with
             | |- context [(?x <? ?y)%Z] => destruct (Z.ltb_spec x y)
             end; try lia; try reflexivity.
    rewrite (IH e' eq_refl Hle). reflexivity.
  - injection He as <-.
    destruct (Z.ltb_spec (fst t) (fst a)); [lia | reflexivity].
Qed.

Lemma duration_of_5000 (type : PowerupKind) :
  PowerupManager.duration_of type = 5000%Z.
Proof. destruct type; reflexivity. Qed.

(** X20.  [activatePowerup] never cancels the timeout of an earlier
    power-up.  If the timer that is due next is the expiry of an earlier
    power-up, a power-up activated now is cut short by it: once that timer
    has run, no power-up is active any more, although the new power-up's own
    expiry, 5000 ms after its activation, is still pending. *)
Theorem earlier_expiry_ends_the_next_powerup
    (type : PowerupKind) (deadline : Z) (ms : N) (w : World) :
  Session.earliest (timers w) = Some (deadline, ClearActivePowerup) ->
  (deadline <= Date_now w + 5000)%Z ->
  (deadline <= Date_now w + Z.of_N ms)%Z ->
  activePowerup (PowerupManager.activatePowerup type w) = Some type /\
  activePowerup
    (Session.run [Session.Elapse ms; Session.TimerDue]
       (PowerupManager.activatePowerup type w)) = None /\
  In ((Date_now w + 5000)%Z, ClearActivePowerup)
     (timers (Session.run [Session.Elapse ms; Session.TimerDue]
                (PowerupManager.activatePowerup type w))).
Proof.
  intros He Hle Hdue. split; [reflexivity |].
  unfold Session.run. cbn [fold_left Session.step].
  unfold PowerupManager.activatePowerup, setTimeout. rewrite duration_of_5000.
  unfold Session.fire.
  cbn [timers Date_now set_timers set_activePowerup set_Date_now].
  rewrite earliest_app, He. cbn [fst].
  destruct (Z.ltb_spec (Date_now w + 5000) deadline); [lia |].
  destruct (Z.leb_spec deadline (Date_now w + Z.of_N ms)); [| lia].
  cbn [Session.run_callback activePowerup timers set_activePowerup set_timers].
  split; [reflexivity |].
  rewrite (drop_earliest_app _ _ _ He) by (cbn [fst]; lia).
  apply in_app_iff. right. left. reflexivity.
Qed.

Lemma earlier_expiry_ends_the_next_powerup_witness :
  activePowerup
    (Session.run [Session.Elapse 1000; Session.TimerDue]
       (PowerupManager.activatePowerup slowmo
          (set_Date_now 4000
             (PowerupManager.activatePowerup invincibility
                (set_timers [] (Sample.started Original)))))) = None.
Proof.
  refine (proj1 (proj2 (earlier_expiry_ends_the_next_powerup slowmo 5000 1000
            (set_Date_now 4000
               (PowerupManager.activatePowerup invincibility
                  (set_timers [] (Sample.started Original))))
            eq_refl _ _))).
  - cbn. lia.
  - cbn. lia.
Defined.

(** ** Swipes *)

(** X21.  A swipe on the canvas, from a touch at [(x0, y0)] to its release
    at [(x1, y1)] in a running game on a touch device, moves the player only
    when it is more vertical than horizontal and longer than the minimum
    swipe distance, and the player is neither jumping nor sliding: upwards
    it is a jump, downwards a slide.  A swipe that is not both, and any
    swipe while the player is jumping or sliding, leaves the player as it
    is. *)
Theorem swipe_must_be_vertical_and_long (x0 y0 x1 y1 : Q) (w : World) :
  Input.touch_enabled w = true ->
  GameEngine.is_playing w = true -> isPaused w = false ->
  (~ (Qabs (y1 - y0) > Qabs (x1 - x0) /\
      Qabs (y1 - y0) > TouchControls.minSwipeDistance (touchControls w)) ->
   player (Input.canvas_touchend x1 y1 (Input.canvas_touchstart x0 y0 w)) =
   player w) /\
  (Input.running w = false ->
   player (Input.canvas_touchend x1 y1 (Input.canvas_touchstart x0 y0 w)) =
   player w) /\
  (Qabs (y1 - y0) > Qabs (x1 - x0) ->
   Qabs (y1 - y0) > TouchControls.minSwipeDistance (touchControls w) ->
   Input.running w = true ->
   (y1 < y0 ->
    player (Input.canvas_touchend x1 y1 (Input.canvas_touchstart x0 y0 w)) =
    Player.jump (player w)) /\
   (y0 < y1 ->
    player (Input.canvas_touchend x1 y1 (Input.canvas_touchstart x0 y0 w)) =
    Player.slide (player w))).
Proof.
  intros Htouch Hplay Hpause.
  unfold Input.canvas_touchstart. rewrite Htouch, Hplay, Hpause.
  cbn [negb orb]. cbv zeta.
  match goal with
  | |- context [Input.canvas_touchend x1 y1 ?s] => set (w1 := s)
  end.
  assert (Htouch1 : Input.touch_enabled w1 = true) by exact Htouch.
  assert (Hplay1 : GameEngine.is_playing w1 = true) by exact Hplay.
  assert (Hpause1 : isPaused w1 = false) by exact Hpause.
  assert (Hp1 : player w1 = player w) by reflexivity.
  assert (Hrun1 : Input.running w1 = Input.running w) by reflexivity.
  assert (Ht1 : touchControls w1 =
                TouchControls.mk x0 y0
                  (TouchControls.touchEndX (touchControls w))
                  (TouchControls.touchEndY (touchControls w))
                  (TouchControls.minSwipeDistance (touchControls w)))
    by reflexivity.
  clearbody w1.
  unfold Input.canvas_touchend. rewrite Htouch1, Hplay1, Hpause1.
  cbn [negb orb]. cbv zeta. rewrite Ht1.
  cbn [TouchControls.touchStartX TouchControls.touchStartY
       TouchControls.minSwipeDistance].
  match goal with
  | |- context [Input.handleSwipeGesture ?s] => set (w2 := s)
  end.
  assert (Hp2 : player w2 = player w1) by reflexivity.
  assert (Hrun2 : Input.running w2 = Input.running w) by exact Hrun1.
  assert (Ht2 : touchControls w2 =
                TouchControls.mk x0 y0 x1 y1
                  (TouchControls.minSwipeDistance (touchControls w)))
    by reflexivity.
  clearbody w2.
  assert (Hemit : player (emit PreventDefault (Input.handleSwipeGesture w2)) =
                  player (Input.handleSwipeGesture w2)) by reflexivity.
  rewrite Hemit. clear Hemit.
  unfold Input.handleSwipeGesture. rewrite Ht2.
  cbn [TouchControls.touchStartX TouchControls.touchStartY
       TouchControls.touchEndX TouchControls.touchEndY
       TouchControls.minSwipeDistance].
  rewrite Hrun2.
  set (m := TouchControls.minSwipeDistance (touchControls w)).
  split; [| split].
  - intros Hno.
    destruct (Qgtb (Qabs (y1 - y0)) (Qabs (x1 - x0))) eqn:E1; [| congruence].
    destruct (Qgtb (Qabs (y1 - y0)) m) eqn:E2; [| congruence].
    exfalso. apply Hno. split; apply Qgtb_gt; assumption.
  - intros Hbusy. rewrite Hbusy.
    destruct (Qgtb (Qabs (y1 - y0)) (Qabs (x1 - x0))); [| congruence].
    destruct (Qgtb (Qabs (y1 - y0)) m); [| congruence].
    destruct (Qltb (y1 - y0) 0); congruence.
  - intros H1 H2 Hrun.
    apply Qgtb_gt in H1, H2. rewrite H1, H2, Hrun.
    split; intros Hy.
    + assert (E : Qltb (y1 - y0) 0 = true) by (apply Qltb_lt; lra).
      rewrite E.
      assert (Hframe : same_field F_player
                (set_player (Player.jump (player w2)) w2)
                (GameEngine.triggerVibration 50
                   (GameEngine.playSound "jump"
                      (set_player (Player.jump (player w2)) w2))))
        by framed.
      unfold same_field in Hframe. rewrite <- Hframe.
      cbn [player set_player]. congruence.
    + assert (E : Qltb (y1 - y0) 0 = false).
      { destruct (Qltb (y1 - y0) 0) eqn:E; [| reflexivity].
        apply Qltb_lt in E. lra. }
      rewrite E.
      assert (Hframe : same_field F_player
                (set_player (Player.slide (player w2)) w2)
                (GameEngine.triggerVibration 50
                   (set_player (Player.slide (player w2)) w2)))
        by framed.
      unfold same_field in Hframe. rewrite <- Hframe.
      cbn [player set_player]. congruence.
Qed.

Lemma swipe_must_be_vertical_and_long_witness :
  player (Input.canvas_touchend 100 200 (Input.canvas_touchstart 100 300 on_mobile)) =
  Player.jump (player on_mobile) /\
  player (Input.canvas_touchend 100 200
            (Input.canvas_touchstart 100 300
               (Input.deliver Input.TouchJumpBtn on_mobile))) =
  player (Input.deliver Input.TouchJumpBtn on_mobile).
Proof.
  split.
  - refine (proj1 (proj2 (proj2 (swipe_must_be_vertical_and_long 100 300 100 200
                                   on_mobile eq_refl eq_refl eq_refl))
                     _ _ eq_refl) _);
      lazy; reflexivity.
  - refine (proj1 (proj2 (swipe_must_be_vertical_and_long 100 300 100 200
                            (Input.deliver Input.TouchJumpBtn on_mobile) _ _ _)) _);
      lazy; reflexivity.
Defined.

(** ** The stored progress *)

Lemma progress_saved_frame (w w' : World) :
  same_field F_highScore w w' -> same_field F_commitStreakHigh w w' ->
  same_field F_unlocked w w' -> same_field F_commitStreakAchievements w w' ->
  progress_saved w -> progress_saved w'.
Proof.
  unfold same_field, progress_saved, loadStats, loadUnlocked.
  cbn [Stats.highScore]. intros H1 H2 H3 H4 [Ha Hb].
  rewrite <- H1, <- H2, <- H3, <- H4. auto.
Qed.

(** A chain of calls that touches neither the high score nor the
    achievements keeps the store up to date. *)
Ltac saved_by_frame :=
  lazymatch goal with
  | H : progress_saved ?a |- progress_saved ?b =>
      let H1 := fresh in let H2 := fresh in let H3 := fresh in let H4 := fresh in
      assert (H1 : same_field F_highScore a b) by framed;
      assert (H2 : same_field F_commitStreakHigh a b) by framed;
      assert (H3 : same_field F_unlocked a b) by framed;
      assert (H4 : same_field F_commitStreakAchievements a b) by framed;
      exact (progress_saved_frame a b H1 H2 H3 H4 H)
  end.

Lemma checkAchievements_saved (stats : Stats.t) (w : World) :
  loadUnlocked w = unlocked w ->
  loadUnlocked (snd (AchievementManager.checkAchievements stats w)) =
  unlocked (snd (AchievementManager.checkAchievements stats w)).
Proof.
  intros Hw. unfold AchievementManager.checkAchievements, AchievementManager.check.
  rewrite (check_loop stats _ (catalog_ids_distinct (revision w))).
  cbn [fst snd app].
  destruct (newly_earned stats (unlocked w)
              (AchievementManager.achievements (revision w))) as [| a l].
  - cbn [List.length Z.of_nat Z.ltb Z.compare map]. rewrite app_nil_r.
    unfold loadUnlocked in *. cbn [commitStreakAchievements unlocked set_unlocked].
    exact Hw.
  - cbn [List.length]. rewrite Nat2Z.inj_succ.
    destruct (Z.ltb_spec 0 (Z.succ (Z.of_nat (List.length l)))); [reflexivity | lia].
Qed.

Lemma gameOver_saved (w : World) :
  progress_saved w -> progress_saved (GameEngine.gameOver w).
Proof.
  intros Hw. unfold GameEngine.gameOver.
  match goal with
  | |- context [AchievementManager.checkAchievements (stats ?x) ?x] =>
      set (w3 := x) in *
  end.
  assert (H3 : progress_saved w3).
  { subst w3.
    match goal with
    | |- progress_saved (if ?c then _ else ?w2) =>
        assert (H2 : progress_saved w2) by saved_by_frame;
        destruct c; [| exact H2]
    end.
    destruct H2 as [_ Hb]. split; [reflexivity | exact Hb]. }
  clearbody w3. clear Hw.
  assert (H4 : progress_saved
                 (snd (AchievementManager.checkAchievements (stats w3) w3))).
  { destruct H3 as [Ha Hb]. split.
    - assert (H1 : same_field F_highScore w3
                     (snd (AchievementManager.checkAchievements (stats w3) w3)))
        by framed.
      assert (H2 : same_field F_commitStreakHigh w3
                     (snd (AchievementManager.checkAchievements (stats w3) w3)))
        by framed.
      unfold same_field in H1, H2. unfold loadStats in *.
      cbn [Stats.highScore] in *. rewrite <- H1, <- H2. exact Ha.
    - apply checkAchievements_saved. exact Hb. }
  generalize dependent (AchievementManager.checkAchievements (stats w3) w3).
  intros r H4. clear H3. saved_by_frame.
Qed.

Lemma handleDamage_saved (w : World) :
  progress_saved w -> progress_saved (GameEngine.handleDamage w).
Proof.
  intros Hw. unfold GameEngine.handleDamage.
  match goal with
  | |- context [GameEngine.gameOver ?x] => set (w7 := x) in *
  end.
  assert (H7 : progress_saved w7) by (subst w7; saved_by_frame).
  clearbody w7. clear Hw.
  destruct (Stats.lives (stats w7) <=? 0)%Z.
  - apply gameOver_saved. exact H7.
  - saved_by_frame.
Qed.

Lemma update_saved (w : World) :
  progress_saved w -> progress_saved (GameEngine.update w).
Proof.
  intros Hw.
  destruct (GameEngine.is_playing w) eqn:Hplay;
    [| unfold GameEngine.update; rewrite Hplay; exact Hw].
  destruct (isPaused w) eqn:Hpause;
    [unfold GameEngine.update; rewrite Hplay, Hpause; exact Hw |].
  rewrite (update_playing w Hplay Hpause). cbv zeta.
  assert (Hpre : progress_saved (before_collisions w)).
  { apply (progress_saved_frame w); try exact Hw.
    - eapply same_field_trans;
        [apply before_managers_frame | apply before_collisions_frame]; notin.
    - eapply same_field_trans;
        [apply before_managers_frame | apply before_collisions_frame]; notin.
    - eapply same_field_trans;
        [apply before_managers_frame | apply before_collisions_frame]; notin.
    - eapply same_field_trans;
        [apply before_managers_frame | apply before_collisions_frame]; notin. }
  clear Hw Hplay Hpause.
  match goal with
  | |- context [GameEngine.checkCollisions ?p] =>
      assert (Hp : progress_saved p) by exact Hpre;
      clear Hpre; generalize dependent p
  end.
  intros pre Hpre. generalize (GameEngine.currentSpeed (before_managers w)).
  intros speed.
  assert (Ho : progress_saved (GameEngine.checkObstacle pre)).
  { unfold GameEngine.checkObstacle.
    destruct (ObstacleManager.checkCollision (player pre) pre); [| exact Hpre].
    destruct (negb (Player.invincible (player pre))); [| exact Hpre].
    pose proof (handleDamage_saved pre Hpre) as Hd.
    generalize dependent (GameEngine.handleDamage pre). intros hd Hd.
    clear Hpre. saved_by_frame. }
  unfold GameEngine.checkCollisions.
  generalize dependent (GameEngine.checkObstacle pre). intros w1 Ho.
  clear Hpre.
  assert (Hc : progress_saved (GameEngine.checkCollectible w1)) by saved_by_frame.
  generalize dependent (GameEngine.checkCollectible w1). intros w2 Hc. clear Ho.
  assert (Hp : progress_saved (GameEngine.checkPowerup w2)) by saved_by_frame.
  generalize dependent (GameEngine.checkPowerup w2). intros w3 Hp. clear Hc.
  saved_by_frame.
Qed.

(** X22.  The store is always up to date.  If the high score and the
    achievements that a freshly loaded page would read from the store are
    those of the running engine, then they still are after any sequence of
    events: whenever a game over raises the high score or unlocks an
    achievement, the new value is written in the same step, and nothing else
    changes either side. *)
Theorem stored_progress_is_current (events : list Session.Event) (w : World) :
  progress_saved w -> progress_saved (Session.run events w).
Proof.
  revert w. induction events as [| e events IH]; intros w Hw; [exact Hw |].
  unfold Session.run. cbn [fold_left]. apply IH.
  destruct e as [| ms | | c | |]; cbn [Session.step].
  - apply update_saved. exact Hw.
  - saved_by_frame.
  - saved_by_frame.
  - saved_by_frame.
  - unfold GameEngine.startGame, GameEngine.resetGame.
    set (w1 := set_stats (Stats.mk 0 0 (Stats.highScore (stats w)) 3 0 0 0 5 1) w).
    assert (H1 : progress_saved w1) by exact Hw.
    clearbody w1. clear Hw. saved_by_frame.
  - saved_by_frame.
Qed.

Lemma stored_progress_is_current_witness :
  progress_saved
    (Session.run [Session.Frame]
       (set_stats (Stats.mk 250 2 0 1 2 2 2 5 1) (on_a_bug Original))).
Proof.
  apply (stored_progress_is_current [Session.Frame]
           (set_stats (Stats.mk 250 2 0 1 2 2 2 5 1) (on_a_bug Original))).
  split; reflexivity.
Defined.

(** ** The camera shake *)

(** X23.  The camera shake is bounded and fades out.  For a shake of
    non-negative intensity and positive duration that was started no later
    than now, [getShake()] returns two numbers whose size is at most half
    the intensity times the part of the duration that is left, and exactly
    [(0, 0)] once the duration has passed; it draws two random numbers while
    the shake lasts and none afterwards. *)
Theorem camera_shake_is_bounded_and_fades (w : World) :
  (Camera.shakeTime (camera w) <= Date_now w)%Z ->
  (0 < Camera.shakeDuration (camera w))%Z ->
  0 <= Camera.shakeIntensity (camera w) ->
  exists dx dy,
    fst (Draw.getShake w) = Some (dx, dy) /\
    Qabs dx <= Camera.shakeIntensity (camera w) / 2 /\
    Qabs dy <= Camera.shakeIntensity (camera w) / 2 /\
    ((Camera.shakeTime (camera w) + Camera.shakeDuration (camera w) < Date_now w)%Z ->
     fst (Draw.getShake w) = Some (0, 0) /\ snd (Draw.getShake w) = w) /\
    ((Date_now w <= Camera.shakeTime (camera w) + Camera.shakeDuration (camera w))%Z ->
     drawn (snd (Draw.getShake w)) = (drawn w + 2)%nat).
Proof.
  intros Hstart Hdur Hint. unfold Draw.getShake.
  set (e := (Date_now w - Camera.shakeTime (camera w))%Z).
  set (d := Camera.shakeDuration (camera w)) in *.
  set (I := Camera.shakeIntensity (camera w)) in *.
  change (I / 2) with (I * (1 # 2)).
  destruct (Z.gtb_spec e d) as [Hover | Hin].
  - exists 0, 0. cbn [fst snd].
    change (Qabs 0) with 0.
    split; [reflexivity |]. split; [lra |]. split; [lra |].
    split; [auto | intros; lia].
  - destruct (Z.eqb_spec d 0) as [H0 | _]; [lia |].
    cbv zeta. cbn [fst snd].
    assert (He : 0 <= inject_Z e /\ inject_Z e <= inject_Z d).
    { split; [change 0 with (inject_Z 0) |]; rewrite <- Zle_Qle; lia. }
    assert (Hd : 0 < inject_Z d).
    { change 0 with (inject_Z 0). rewrite <- Zlt_Qlt. exact Hdur. }
    assert (Hq : 0 <= inject_Z e / inject_Z d /\ inject_Z e / inject_Z d <= 1).
    { split; [apply Qle_shift_div_l | apply Qle_shift_div_r]; lra. }
    set (q := inject_Z e / inject_Z d) in *.
    assert (Hb : 0 <= I * (1 - q) /\ I * (1 - q) <= I) by (split; nra).
    set (b := I * (1 - q)) in *.
    pose proof (Math_random_range 0 w) as [R0 R0'].
    pose proof (Math_random_range 1 w) as [R1 R1'].
    eexists. eexists. split; [reflexivity |].
    split; [| split; [| split]].
    + apply Qabs_Qle_condition. split; nra.
    + apply Qabs_Qle_condition. split; nra.
    + intros Hlate. lia.
    + intros _. reflexivity.
Qed.

Lemma camera_shake_is_bounded_and_fades_witness :
  exists dx dy,
    fst (Draw.getShake (set_Date_now 1100 (just_hit Original))) = Some (dx, dy) /\
    Qabs dx <= 10 / 2 /\ Qabs dy <= 10 / 2.
Proof.
  destruct (camera_shake_is_bounded_and_fades
              (set_Date_now 1100 (just_hit Original)))
    as [dx [dy [H1 [H2 [H3 _]]]]].
  - cbn. lia.
  - reflexivity.
  - discriminate.
  - exists dx, dy. split; [exact H1 |]. split; [exact H2 | exact H3].
Defined.

(** ** The scrolling background *)

Lemma scroll_in_view (el : Background.element) (w : World) :
  in_view el ->
  in_view (fst (Background.scroll el w)) /\
  Background.char (fst (Background.scroll el w)) = Background.char el /\
  Background.speed (fst (Background.scroll el w)) = Background.speed el.
Proof.
  unfold in_view, Background.scroll. intros [H1 [H2 [H3 [H4 [H5 [H6 H7]]]]]].
  destruct (Qltb (Background.x el - Background.speed el) (-50)) eqn:E;
    cbn [fst Background.x Background.y Background.char Background.speed].
  - pose proof (Math_random_range 0 w) as [R R'].
    repeat split; try assumption; lra.
  - assert (Hx : -50 <= Background.x el - Background.speed el).
    { apply Qnot_lt_le. intros Hlt. apply Qltb_lt in Hlt. congruence. }
    repeat split; try assumption; lra.
Qed.

Lemma update_loop_in_view (els done : list Background.element) (w : World) :
  Forall in_view els -> Forall in_view done ->
  Forall in_view
    (fst (fold_left
            (fun (acc : list Background.element * World) el =>
               let (done, w) := acc in
               let (el', w') := Background.scroll el w in
               (done ++ [el'], w'))
            els (done, w))) /\
  List.length
    (fst (fold_left
            (fun (acc : list Background.element * World) el =>
               let (done, w) := acc in
               let (el', w') := Background.scroll el w in
               (done ++ [el'], w'))
            els (done, w))) = (List.length done + List.length els)%nat.
Proof.
  revert done w. induction els as [| el els IH]; intros done w Hels Hdone.
  - cbn [fold_left fst List.length]. split; [exact Hdone | lia].
  - inversion Hels as [| ? ? Hel Hrest]; subst.
    cbn [fold_left].
    destruct (scroll_in_view el w Hel) as [Hv _].
    destruct (Background.scroll el w) as [el' w'] eqn:E. cbn [fst] in Hv.
    destruct (IH (done ++ [el']) w' Hrest) as [IH1 IH2].
    { apply Forall_app. split; [exact Hdone | constructor; [exact Hv | constructor]]. }
    split; [exact IH1 |]. rewrite IH2, length_app. cbn [List.length]. lia.
Qed.

Lemma init_in_view (w : World) :
  Forall in_view (fst (Background.init w)) /\
  List.length (fst (Background.init w)) = 20%nat.
Proof.
  unfold Background.init.
  apply (for_loop_ind_idx
           (fun i (s : list Background.element * World) =>
              Forall in_view (fst s) /\ List.length (fst s) = i)).
  - split; [constructor | reflexivity].
  - intros i [els w0] _ [Hv Hl]. cbn [fst] in *. split.
    + apply Forall_app. split; [exact Hv |].
      constructor; [| constructor].
      pose proof (Math_random_range 0 w0) as [A0 A0'].
      pose proof (Math_random_range 1 w0) as [A1 A1'].
      pose proof (Math_random_range 3 w0) as [A3 A3'].
      unfold in_view.
      cbn [Background.x Background.y Background.char Background.speed].
      repeat split; try lra.
      apply pick_In; [apply Math_random_range | apply Math_random_range |].
      discriminate.
    + rewrite length_app, Hl. cbn [List.length]. lia.
Qed.

(** X24.  The background keeps its twenty elements in view.  [init()] makes
    twenty elements, and after any number of [update] calls, at whatever
    game speeds, there are still twenty, each between x = -50 and x = 900
    and at a height in [0, 400), with its speed still in [0.2, 0.7) and its
    character from the list; an element that leaves on the left comes back
    on the right edge. *)
Theorem background_keeps_twenty_elements_in_view (speeds : list Q) (w : World) :
  Forall in_view
    (fst (fold_left (fun s g => Background.update g s) speeds (Background.init w))) /\
  List.length
    (fst (fold_left (fun s g => Background.update g s) speeds (Background.init w))) =
  20%nat.
Proof.
  destruct (init_in_view w) as [Hv Hl].
  generalize dependent (Background.init w).
  induction speeds as [| g speeds IH]; intros s Hv Hl.
  - split; assumption.
  - cbn [fold_left]. unfold Background.update at 2 4.
    destruct (update_loop_in_view (fst s) [] (snd s) Hv ltac:(constructor))
      as [U1 U2].
    apply IH; [exact U1 |]. rewrite U2, Hl. reflexivity.
Qed.

(** ** The order of a frame *)

Lemma updateEffects_stance (w : World) :
  stance (player (PowerupManager.updateEffects w)) = stance (player w).
Proof.
  unfold PowerupManager.updateEffects.
  destruct (activePowerup w) as [[] |] eqn:E;
    cbn [activePowerup set_player]; rewrite ?E; reflexivity.
Qed.

Lemma handleDamage_stance (w : World) :
  stance (player (GameEngine.handleDamage w)) = stance (player w).
Proof.
  unfold GameEngine.handleDamage.
  match goal with
  | |- context [GameEngine.gameOver ?x] => set (w7 := x) in *
  end.
  assert (H7 : same_field F_player w w7).
  { set (w1 := set_stats (Stats.set_lives (Stats.lives (stats w) - 1) (stats w)) w)
      in *.
    assert (H : same_field F_player w1 w7) by (subst w7; framed).
    exact H. }
  unfold same_field in H7. rewrite H7. clearbody w7.
  destruct (Stats.lives (stats w7) <=? 0)%Z.
  - assert (H : same_field F_player w7 (GameEngine.gameOver w7)) by framed.
    unfold same_field in H. rewrite <- H. reflexivity.
  - reflexivity.
Qed.

Lemma checkObstacle_stance (w : World) :
  stance (player (GameEngine.checkObstacle w)) = stance (player w).
Proof.
  unfold GameEngine.checkObstacle.
  destruct (ObstacleManager.checkCollision (player w) w); [| reflexivity].
  destruct (negb (Player.invincible (player w))); [| reflexivity].
  pose proof (handleDamage_stance w) as H.
  generalize dependent (GameEngine.handleDamage w). intros hd H.
  rewrite <- H. reflexivity.
Qed.

(** Within a frame the player is moved by [Player.update] and by nothing
    else: the effects of a power-up and a hit write the invincibility flag
    only. *)
Lemma update_stance (w : World) :
  GameEngine.is_playing w = true -> isPaused w = false ->
  stance (player (GameEngine.update w)) = stance (Player.update (player w)).
Proof.
  intros Hplay Hpause. rewrite (update_playing w Hplay Hpause). cbv zeta.
  clear Hplay Hpause.
  assert (Hbefore : stance (player (before_managers w)) =
                    stance (Player.update (player w))).
  { unfold before_managers.
    assert (H2 : same_field F_player (GameEngine.updatePlayer (GameEngine.advanceFrame w))
                   (GameEngine.emitTrail
                      (GameEngine.updatePlayer (GameEngine.advanceFrame w))))
      by framed.
    unfold same_field in H2.
    generalize dependent (GameEngine.emitTrail
                            (GameEngine.updatePlayer (GameEngine.advanceFrame w))).
    intros w3 H3.
    pose proof (updateEffects_stance w3) as H4.
    assert (H5 : same_field F_player (PowerupManager.updateEffects w3)
                   (GameEngine.updateGameSpeed (PowerupManager.updateEffects w3)))
      by framed.
    unfold same_field in H5. rewrite <- H5, H4, <- H3. reflexivity. }
  pose proof (before_collisions_frame F_player w ltac:(notin)) as Hpre.
  unfold same_field in Hpre. rewrite Hpre in Hbefore.
  unfold before_collisions, managers in Hbefore.
  match goal with
  | |- context [GameEngine.checkCollisions ?p] =>
      assert (Hp : stance (player p) = stance (Player.update (player w)))
        by exact Hbefore;
      clear Hbefore Hpre; generalize dependent p
  end.
  intros pre Hp. generalize (GameEngine.currentSpeed (before_managers w)).
  intros speed. rewrite <- Hp. clear Hp.
  pose proof (checkObstacle_stance pre) as H1.
  unfold GameEngine.checkCollisions.
  generalize dependent (GameEngine.checkObstacle pre). intros w1 H1.
  rewrite <- H1. clear H1.
  assert (H2 : same_field F_player w1 (GameEngine.checkCollectible w1)) by framed.
  unfold same_field in H2. rewrite H2.
  generalize (GameEngine.checkCollectible w1). intros w2.
  assert (H3 : same_field F_player w2 (GameEngine.checkPowerup w2)) by framed.
  unfold same_field in H3. rewrite H3.
  generalize (GameEngine.checkPowerup w2). intros w3.
  assert (H4 : same_field F_player w3
                 (GameEngine.refreshUI (GameEngine.updateScore speed w3)))
    by framed.
  unfold same_field in H4. rewrite <- H4. reflexivity.
Qed.

(** C6.  When the state is not ['playing'] or the game is paused, [update()]
    returns the world it was given: frame count, stats, player, the four
    lists and everything else.  Otherwise it is the following chain, each
    step working on the world the previous one has left: the frame counter
    goes up by one; the player is replaced by its [Player.update]; (the
    enhanced revision emits its trail, the power-up effects are applied and
    every 500th frame raises the speed;) the obstacle, the collectible and
    the power-up manager are updated, in this order, with the speed and the
    frame count just computed; the particles are updated; the collision pass
    runs; the points for the distance are added to the score (and every 30th
    frame refreshes the display).  In particular the frame count has gone up
    by one, and the player is as [Player.update] has left it, but for the
    invincibility flag: nothing after that step moves it. *)
Theorem update_noop_or_fixed_order (w : World) :
  (state w <> playing \/ isPaused w = true -> GameEngine.update w = w) /\
  (state w = playing -> isPaused w = false ->
   GameEngine.update w =
     (let w1 := set_frameCount (frameCount w + 1)%Z w in
      let w2 := set_player (Player.update (player w1)) w1 in
      let w3 :=
        match revision w2 with
        | Original => w2
        | Enhanced =>
            if Settings.particles (settings w2) && (js_rem (frameCount w2) 3 =? 0)%Z
            then ParticleSystem.createTrail
                   (Player.x (player w2) + Player.width (player w2) / 2)
                   (Player.y (player w2) + Player.height (player w2) / 2)
                   (if Player.invincible (player w2) then "#bc8cff"
                    else "rgba(57, 211, 83, 0.6)") w2
            else w2
        end in
      let w4 := PowerupManager.updateEffects w3 in
      let w5 :=
        if (js_rem (frameCount w4) 500 =? 0)%Z
        then set_stats
               (Stats.set_gameSpeed (Qmin (Stats.gameSpeed (stats w4) + 0.3) 12)
                  (stats w4)) w4
        else w4 in
      let currentSpeed := Stats.gameSpeed (stats w5) * Stats.speedMultiplier (stats w5) in
      let w6 := ObstacleManager.update currentSpeed (frameCount w5) w5 in
      let w7 := CollectibleManager.update currentSpeed (frameCount w6) w6 in
      let w8 := PowerupManager.update currentSpeed (frameCount w7) w7 in
      let w9 := ParticleSystem.update w8 in
      let w10 := GameEngine.checkCollisions w9 in
      let w11 :=
        set_stats
          (Stats.set_score
             (Stats.score (stats w10) + Math_floor (currentSpeed / 10))%Z
             (stats w10)) w10 in
      if (js_rem (frameCount w11) 30 =? 0)%Z
      then emit (UpdateUI (Stats.score (stats w11)) (Stats.streak (stats w11))
                          (Stats.highScore (stats w11))) w11
      else w11) /\
   frameCount (GameEngine.update w) = (frameCount w + 1)%Z /\
   stance (player (GameEngine.update w)) = stance (Player.update (player w)) /\
   Player.y (player (GameEngine.update w)) = Player.y (Player.update (player w)) /\
   Player.jumping (player (GameEngine.update w)) =
     Player.jumping (Player.update (player w)) /\
   Player.sliding (player (GameEngine.update w)) =
     Player.sliding (Player.update (player w))).
Proof.
  split.
  - intros H. unfold GameEngine.update, GameEngine.is_playing.
    destruct H as [H | H].
    + destruct (state w); try reflexivity. congruence.
    + rewrite H, orb_true_r. reflexivity.
  - intros Hstate Hpause.
    assert (Hplay : GameEngine.is_playing w = true)
      by (unfold GameEngine.is_playing; rewrite Hstate; reflexivity).
    split.
    + unfold GameEngine.update. rewrite Hplay, Hpause. reflexivity.
    + split; [apply update_frameCount; assumption |].
      pose proof (update_stance w Hplay Hpause) as H.
      generalize dependent (GameEngine.update w). intros w' H.
      generalize dependent (Player.update (player w)). intros p' H.
      split; [exact H |].
      unfold stance, Player.set_invincible in H. inversion H.
      repeat split; reflexivity.
Qed.

Lemma update_noop_or_fixed_order_witness :
  GameEngine.update (Sample.fresh Original) = Sample.fresh Original /\
  frameCount (GameEngine.update (airborne Enhanced)) =
    (frameCount (airborne Enhanced) + 1)%Z /\
  stance (player (GameEngine.update (airborne Enhanced))) =
    stance (Player.update (player (airborne Enhanced))).
Proof.
  split.
  - apply (update_noop_or_fixed_order (Sample.fresh Original)).
    left. discriminate.
  - split.
    + exact (proj1 (proj2 (proj2 (update_noop_or_fixed_order (airborne Enhanced))
                                   eq_refl eq_refl))).
    + exact (proj1 (proj2 (proj2 (proj2
               (update_noop_or_fixed_order (airborne Enhanced))
               eq_refl eq_refl)))).
Defined.

(** ** The range of the speed *)

(** X13.  The base speed never leaves its range: if [gameSpeed] is between 5
    and 12 and the multiplier is 1 or 0.5, they still are after any sequence
    of events.  In a game begun with the start button the speed is 5 as long
    as the frame count is below 500, and it is at the cap of 12 from frame
    12000 on. *)
Theorem speed_stays_in_range_and_reaches_the_cap
    (events : list Session.Event) (w : World) :
  (sane_speed (stats w) -> sane_speed (stats (Session.run events w))) /\
  ((frameCount (Session.run events (GameEngine.startGame w)) < 500)%Z ->
   Stats.gameSpeed (stats (Session.run events (GameEngine.startGame w))) == 5) /\
  ((12000 <= frameCount (Session.run events (GameEngine.startGame w)))%Z ->
   Stats.gameSpeed (stats (Session.run events (GameEngine.startGame w))) == 12).
Proof.
  split.
  - intros Hw.
    apply (session_invariant (fun _ s _ => sane_speed s) events);
      [right | | exact Hw].
    + intros _ s _ _. unfold sane_speed, initial_stats.
      cbn [Stats.gameSpeed Stats.speedMultiplier].
      split; [lra |]. split; [lra | left; reflexivity].
    + intros f s slow hit pick [Hlo [Hhi _]].
      destruct (stats_after_frame_counters (f + 1) slow hit pick s)
        as [_ [_ [_ [_ [_ [_ [Hgs [Hsm _]]]]]]]].
      pose proof (raised_speed_range (Stats.gameSpeed s)
                    (js_rem (f + 1) 500 =? 0)%Z Hlo Hhi) as [Hlo' Hhi'].
      unfold sane_speed. rewrite Hgs, Hsm.
      split; [exact Hlo' |]. split; [exact Hhi' |]. destruct slow; auto.
  - destruct (startGame_stats w) as [Hs _].
    pose proof (startGame_frameCount w) as Hf.
    assert (H : (0 <= frameCount (Session.run events (GameEngine.startGame w)))%Z /\
                Stats.gameSpeed (stats (Session.run events (GameEngine.startGame w))) ==
                  scheduled_speed
                    (frameCount (Session.run events (GameEngine.startGame w)))).
    { generalize dependent (GameEngine.startGame w). intros w0 Hs Hf.
      destruct (speed_schedule events w0) as [H1 [H2 _]].
      - rewrite Hf. lia.
      - rewrite Hs, Hf. reflexivity.
      - rewrite Hs. left. reflexivity.
      - split; assumption. }
    destruct H as [H0 Hg].
    generalize dependent (Session.run events (GameEngine.startGame w)).
    intros w' H0 Hg. rewrite Hg. unfold scheduled_speed. split.
    + intros Hlt. rewrite (Z.div_small (frameCount w') 500) by lia.
      reflexivity.
    + intros Hge.
      assert (Hq : inject_Z 24 <= inject_Z (frameCount w' / 500)).
      { rewrite <- Zle_Qle. apply Z.div_le_lower_bound; lia. }
      change (inject_Z 24) with 24 in Hq.
      destruct (Q.min_spec 12 (5 + 0.3 * inject_Z (frameCount w' / 500)))
        as [[L E] | [L E]]; rewrite E; lra.
Qed.

Lemma speed_stays_in_range_and_reaches_the_cap_witness :
  sane_speed
    (stats (Session.run [Session.ClickStart; Session.Frame; Session.Frame]
              (slowed Original))).
Proof.
  refine (proj1 (speed_stays_in_range_and_reaches_the_cap
                   [Session.ClickStart; Session.Frame; Session.Frame]
                   (slowed Original)) _).
  vm_compute. repeat split; try discriminate. left. reflexivity.
Defined.
